(** * agentpy output records: a shallow embedding of [agentpy/datadict.py]

    The development follows the module top to bottom: experiment-id
    resolution ([_last_exp_id]), the [DataDict] record with its text
    ([__repr__]) and its equality, the arrangement functions
    ([_combine_vars], [_combine_pars], [arrange]), the Sobol front end
    ([calc_sobol]) and persistence ([save], [_load]).

    Python objects that the code mutates ([pandas.DataFrame]) live in a
    store; records hold addresses into it, so that two names for one table
    see each other's writes.  Every function runs in a small state-and-error
    monad over that store; a raised exception keeps the writes made before
    it. *)

From Stdlib Require Import String Ascii List ZArith Bool Lia Permutation.
From Stdlib Require Import DecimalString DecimalPos.
Import ListNotations.
Set Warnings "-register-all".
Open Scope string_scope.
Open Scope list_scope.
Open Scope Z_scope.

(** ** Python dictionaries

    A [dict] keeps insertion order, so it is an association list with
    unique keys; [dict_set] overwrites in place or appends. *)
Section Dict.
Context {V : Type}.

Fixpoint dict_get (k : string) (d : list (string * V)) : option V :=
  match d with
  | [] => None
  | (k', v) :: d' => if String.eqb k k' then Some v else dict_get k d'
  end.

Definition dict_has (k : string) (d : list (string * V)) : bool :=
  match dict_get k d with Some _ => true | None => false end.

Fixpoint dict_set (k : string) (v : V) (d : list (string * V))
  : list (string * V) :=
  match d with
  | [] => [(k, v)]
  | (k', v') :: d' =>
      if String.eqb k k' then (k, v) :: d' else (k', v') :: dict_set k v d'
  end.

Definition dict_keys (d : list (string * V)) : list string := map fst d.
Definition dict_values (d : list (string * V)) : list V := map snd d.
End Dict.

Definition str_in (k : string) (l : list string) : bool :=
  existsb (String.eqb k) l.

(** ** Python values *)

(** The plain Python objects a record can hold outside tables: [None],
    integers, strings, lists, tuples and string-keyed dicts (an [AttrDict]
    is a [dict] here).  Floats and booleans are outside the model. *)
Inductive pyval : Type :=
| PNone
| PInt (z : Z)
| PStr (s : string)
| PList (l : list pyval)
| PTuple (l : list pyval)
| PDict (d : list (string * pyval)).

(** A table cell: an object, or the missing-value marker [NaN]. *)
Inductive cell : Type :=
| CNaN
| CVal (v : pyval).

(** Python's [==] on plain objects: structural, except that two dicts are
    equal when they have the same keys with equal values, in any order. *)
Fixpoint pyval_eqb (x y : pyval) {struct x} : bool :=
  let fix all2 (l m : list pyval) {struct l} : bool :=
    match l, m with
    | [], [] => true
    | a :: l', b :: m' => pyval_eqb a b && all2 l' m'
    | _, _ => false
    end in
  match x, y with
  | PNone, PNone => true
  | PInt a, PInt b => Z.eqb a b
  | PStr a, PStr b => String.eqb a b
  | PList l, PList m => all2 l m
  | PTuple l, PTuple m => all2 l m
  | PDict a, PDict b =>
      Nat.eqb (length a) (length b)
      && (fix items (l : list (string * pyval)) {struct l} : bool :=
            match l with
            | [] => true
            | (k, v) :: l' =>
                match dict_get k b with
                | Some w => pyval_eqb v w
                | None => false
                end && items l'
            end) a
  | _, _ => false
  end.

(** [DataFrame.equals] treats two [NaN] in the same place as equal. *)
Definition cell_eqb (x y : cell) : bool :=
  match x, y with
  | CNaN, CNaN => true
  | CVal a, CVal b => pyval_eqb a b
  | _, _ => false
  end.

Fixpoint list_eqb {A : Type} (eqb : A -> A -> bool) (l m : list A) : bool :=
  match l, m with
  | [], [] => true
  | a :: l', b :: m' => eqb a b && list_eqb eqb l' m'
  | _, _ => false
  end.

(** ** Tables

    A [pandas.DataFrame] is kept row by row: the names of its index levels
    ([None] for an unnamed level), its column labels, and for every row the
    index key (one cell per level) and the data (one cell per column). *)
Record DataFrame : Type := mkDF {
  index_names : list (option string);
  columns : list string;
  rows : list (list cell * list cell)
}.

Definition nrows (df : DataFrame) : nat := length (rows df).
Definition ncols (df : DataFrame) : nat := length (columns df).

(** [df.shape] *)
Definition shape (df : DataFrame) : nat * nat := (nrows df, ncols df).

(** [pd.RangeIndex(n)] as index keys [0, 1, ..., n-1]. *)
Definition range_keys (n : nat) : list (list cell) :=
  map (fun i => [CVal (PInt (Z.of_nat i))]) (seq 0 n).

(** [pd.DataFrame()] *)
Definition empty_frame : DataFrame :=
  {| index_names := [None]; columns := []; rows := [] |}.

(** Position of a label among the columns. *)
Fixpoint col_pos (k : string) (cs : list string) : option nat :=
  match cs with
  | [] => None
  | c :: cs' =>
      if String.eqb k c then Some O
      else match col_pos k cs' with Some i => Some (S i) | None => None end
  end.

(** The cells of column [k], top to bottom. *)
Definition column (df : DataFrame) (k : string) : option (list cell) :=
  match col_pos k (columns df) with
  | Some i => Some (map (fun r => nth i (snd r) CNaN) (rows df))
  | None => None
  end.

Fixpoint set_nth {A : Type} (i : nat) (x : A) (l : list A) : list A :=
  match i, l with
  | O, _ :: l' => x :: l'
  | S i', a :: l' => a :: set_nth i' x l'
  | _, [] => []
  end.

(** Write the cells [vs] (one per row) as column [k]: an existing column is
    overwritten where it stands, a new one is appended on the right. *)
Definition put_column (df : DataFrame) (k : string) (vs : list cell)
  : DataFrame :=
  match col_pos k (columns df) with
  | Some i =>
      {| index_names := index_names df;
         columns := columns df;
         rows := map (fun rv => (fst (fst rv), set_nth i (snd rv) (snd (fst rv))))
                     (combine (rows df) vs) |}
  | None =>
      {| index_names := index_names df;
         columns := columns df ++ [k];
         rows := map (fun rv => (fst (fst rv), snd (fst rv) ++ [snd rv]))
                     (combine (rows df) vs) |}
  end.

(** [DataFrame.equals]: same column labels, same index keys, same cells.
    The names of the index levels are not compared.  The tables of the
    model have no dtypes, which pandas compares as well: where [equals]
    is [false] here it is [False] for pandas, where it is [true] here the
    labels, keys and cells agree. *)
Definition equals (a b : DataFrame) : bool :=
  list_eqb String.eqb (columns a) (columns b)
  && list_eqb (fun r s => list_eqb cell_eqb (fst r) (fst s)
                          && list_eqb cell_eqb (snd r) (snd s))
              (rows a) (rows b).

(** ** Exceptions, the store and the monad *)

Inductive exn : Type :=
| TypeError (msg : string)
| KeyError (key : string)
| ValueError (msg : string)
| NameError (name : string)
| AttributeError (name : string)
| FileNotFoundError (path : string)
| FileExistsError (path : string)
| OSError (msg : string)
| AssertionError (msg : string).

Inductive result (A : Type) : Type :=
| Ok (a : A)
| Raise (e : exn).
Arguments Ok {A} a.
Arguments Raise {A} e.

Definition addr := nat.

(** The store of table objects; a new table takes the next free address. *)
Definition heap := list DataFrame.

(** What is on disk under the working directory: every directory and file
    by its path (the list of its components), a file with its content. *)
Inductive json : Type :=
| JNull
| JInt (z : Z)
| JStr (s : string)
| JArr (l : list json)
| JObj (m : list (string * json)).

Inductive content : Type :=
| Csv (header : list string) (body : list (list cell))
| Json (j : json)
| Truncated.

Inductive node : Type :=
| Dir
| File (c : content).

Definition disk := list (list string * node).

Record world : Type := mkWorld {
  tables : heap;
  files : disk
}.

Definition M (A : Type) : Type := world -> result A * world.

Definition ret {A} (a : A) : M A := fun h => (Ok a, h).
Definition raise {A} (e : exn) : M A := fun h => (Raise e, h).
Definition bind {A B} (c : M A) (f : A -> M B) : M B :=
  fun h => match c h with
           | (Ok a, h') => f a h'
           | (Raise e, h') => (Raise e, h')
           end.

Declare Scope py_scope.
Delimit Scope py_scope with py.
Notation "x <- c1 ;; c2" := (bind c1 (fun x => c2))
  (at level 61, c1 at next level, right associativity) : py_scope.
Notation "c1 ;;; c2" := (bind c1 (fun _ => c2))
  (at level 61, right associativity) : py_scope.
Open Scope py_scope.

(** Read the table at an address. *)
Definition deref (a : addr) : M DataFrame :=
  fun w => match nth_error (tables w) a with
           | Some df => (Ok df, w)
           | None => (Raise (AssertionError "dangling table"), w)
           end.

(** Store a new table object and return its address. *)
Definition alloc (df : DataFrame) : M addr :=
  fun w => (Ok (length (tables w)),
            {| tables := tables w ++ [df]; files := files w |}).

(** Overwrite the table object at an address (mutation in place). *)
Definition assign (a : addr) (df : DataFrame) : M unit :=
  fun w => (Ok tt, {| tables := set_nth a df (tables w); files := files w |}).

(** Lift a pure partial result. *)
Definition lift {A} (r : result A) : M A := fun h => (r, h).

(** ** Records

    An entry of a [DataDict]: a table (by address), a nested [DataDict],
    or a plain object. *)
Inductive value : Type :=
| VFrame (a : addr)
| VData (d : list (string * value))
| VPy (v : pyval).

Definition DataDict := list (string * value).

(** A local name for a table: either an object of the store (an alias of
    whatever else holds that address) or a table built by the running
    function that nothing else refers to yet. *)
Inductive tref : Type :=
| Stored (a : addr)
| Fresh (df : DataFrame).

Definition read (r : tref) : M DataFrame :=
  match r with
  | Stored a => deref a
  | Fresh df => ret df
  end.

(** ** The pandas operations the module calls *)

Definition string_of_nat (n : nat) : string :=
  NilZero.string_of_uint (Nat.to_uint n).

Definition string_of_Z (z : Z) : string :=
  NilZero.string_of_int (Z.to_int z).

(** A frame without rows, about to take the index [keys] from the value
    assigned to it: its columns are there, filled with [NaN]. *)
Definition blank_frame (df : DataFrame) (keys : list (list cell))
  : DataFrame :=
  {| index_names := [match index_names df with [n] => n | _ => None end];
     columns := columns df;
     rows := map (fun key => (key, repeat CNaN (ncols df))) keys |}.

(** The cell a dict value puts in the row with index key [key]: the entry
    under the row's label, [NaN] without one. *)
Definition aligned (d : list (string * pyval)) (key : list cell) : cell :=
  match key with
  | [CVal (PStr s)] =>
      match dict_get s d with
      | Some x => CVal x
      | None => CNaN
      end
  | _ => CNaN
  end.

(** [df[k] = v].  A scalar is broadcast to every row.  A list or tuple is
    written element by element and must have one element per row.  A dict
    is matched with the index by its keys.  A frame without rows first
    takes its index from a non-empty list, tuple or dict. *)
Definition setitem (df : DataFrame) (k : string) (v : cell)
  : result DataFrame :=
  let listlike (l : list pyval) :=
    if andb (Nat.eqb (nrows df) 0) (negb (Nat.eqb (length l) 0)) then
      Ok (put_column (blank_frame df (range_keys (length l))) k (map CVal l))
    else if Nat.eqb (length l) (nrows df) then
      Ok (put_column df k (map CVal l))
    else
      Raise (ValueError "Length of values does not match length of index") in
  match v with
  | CVal (PList l) => listlike l
  | CVal (PTuple l) => listlike l
  | CVal (PDict d) =>
      let df :=
        if andb (Nat.eqb (nrows df) 0) (negb (Nat.eqb (length d) 0)) then
          blank_frame df (map (fun kv => [CVal (PStr (fst kv))]) d)
        else df in
      Ok (put_column df k (map (fun r => aligned d (fst r)) (rows df)))
  | _ => Ok (put_column df k (repeat v (nrows df)))
  end.

(** The column label an index level gets from [reset_index]. *)
Definition level_label (multi : bool) (cols : list string) (i : nat)
  (n : option string) : string :=
  match n with
  | Some s => s
  | None =>
      if multi then "level_" ++ string_of_nat i
      else if str_in "index" cols then "level_0" else "index"
  end.

Fixpoint mapi_from {A B : Type} (f : nat -> A -> B) (i : nat) (l : list A)
  : list B :=
  match l with
  | [] => []
  | a :: l' => f i a :: mapi_from f (S i) l'
  end.

Fixpoint has_dup (l : list string) : bool :=
  match l with
  | [] => false
  | a :: l' => str_in a l' || has_dup l'
  end.

(** [df.reset_index()]: the index levels become the leftmost columns and
    the rows are renumbered; a level whose label is already taken cannot be
    inserted. *)
Definition reset_index (df : DataFrame) : result DataFrame :=
  let multi := Nat.ltb 1 (length (index_names df)) in
  let labels := mapi_from (level_label multi (columns df)) 0 (index_names df) in
  if has_dup (labels ++ columns df) then
    Raise (ValueError "cannot insert level, already exists")
  else
    Ok {| index_names := [None];
          columns := labels ++ columns df;
          rows := map (fun kr => (fst kr, fst (snd kr) ++ snd (snd kr)))
                      (combine (range_keys (nrows df)) (rows df)) |}.

Fixpoint positions (ks : list string) (cs : list string)
  : result (list nat) :=
  match ks with
  | [] => Ok []
  | k :: ks' =>
      match col_pos k cs with
      | None => Raise (KeyError k)
      | Some i =>
          match positions ks' cs with
          | Ok ps => Ok (i :: ps)
          | Raise e => Raise e
          end
      end
  end.

Definition pick (ps : list nat) (data : list cell) : list cell :=
  map (fun i => nth i data CNaN) ps.

Fixpoint named (ks : list (option string)) : result (list string) :=
  match ks with
  | [] => Ok []
  | None :: _ => Raise (KeyError "None")
  | Some k :: ks' =>
      match named ks' with
      | Ok l => Ok (k :: l)
      | Raise e => Raise e
      end
  end.

(** [df.set_index(keys)]: the named columns leave the data and become the
    index levels, in the order given. *)
Definition set_index (df : DataFrame) (keys : list (option string))
  : result DataFrame :=
  match keys with
  | [] => Raise (ValueError "Must pass non-zero number of levels/codes")
  | _ =>
      match named keys with
      | Raise e => Raise e
      | Ok ks =>
          match positions ks (columns df) with
          | Raise e => Raise e
          | Ok ps =>
              let rest := filter (fun c => negb (str_in c ks)) (columns df) in
              match positions rest (columns df) with
              | Raise e => Raise e
              | Ok qs =>
                  Ok {| index_names := keys;
                        columns := rest;
                        rows := map (fun r => (pick ps (snd r), pick qs (snd r)))
                                    (rows df) |}
              end
          end
      end
  end.

(** [df[keys]] with a list of labels: the listed columns in the order
    asked, the index kept. *)
Definition select_columns (df : DataFrame) (keys : list string)
  : result DataFrame :=
  match positions keys (columns df) with
  | Raise e => Raise e
  | Ok ps =>
      Ok {| index_names := index_names df;
            columns := keys;
            rows := map (fun r => (fst r, pick ps (snd r))) (rows df) |}
  end.

(** Labels of [l] followed by those of [m] not seen yet. *)
Fixpoint union_labels (l m : list string) : list string :=
  match m with
  | [] => l
  | c :: m' => if str_in c l then union_labels l m'
               else union_labels (l ++ [c]) m'
  end.

(** The data of a row re-laid over the columns [all]; a column the frame
    lacks is [NaN]. *)
Definition realign (cs : list string) (all : list string) (data : list cell)
  : list cell :=
  map (fun c => match col_pos c cs with
                | Some i => nth i data CNaN
                | None => CNaN
                end) all.

Definition opt_str_eqb (a b : option string) : bool :=
  match a, b with
  | Some x, Some y => String.eqb x y
  | None, None => true
  | _, _ => false
  end.

(** Level names on which all frames agree; [None] where they differ. *)
Definition unanimous (a b : list (option string)) : list (option string) :=
  map (fun p => if opt_str_eqb (fst p) (snd p) then fst p else None)
      (combine a b).

(** [pd.concat(frames)] along the rows: columns are united in order of
    first appearance, rows follow frame after frame with their own index
    keys, and the indexes must have the same number of levels. *)
Fixpoint concat_rows (frames : list DataFrame) : result DataFrame :=
  match frames with
  | [] => Raise (ValueError "No objects to concatenate")
  | [f] => Ok f
  | f :: rest =>
      match concat_rows rest with
      | Raise e => Raise e
      | Ok g =>
          if negb (Nat.eqb (length (index_names f)) (length (index_names g)))
          then Raise (AssertionError
                 "Cannot concat indices that do not have the same number of levels")
          else
            let all := union_labels (columns f) (columns g) in
            Ok {| index_names := unanimous (index_names f) (index_names g);
                  columns := all;
                  rows := map (fun r => (fst r, realign (columns f) all (snd r)))
                              (rows f)
                          ++ map (fun r => (fst r, realign (columns g) all (snd r)))
                                 (rows g) |}
      end
  end.

(** [pd.concat(d)] for a dict of frames: as [concat_rows], with the dict
    key of each frame put in front of its index keys as a new, unnamed
    outermost level. *)
Definition concat_dict (d : list (string * DataFrame)) : result DataFrame :=
  concat_rows
    (map (fun kf =>
            {| index_names := None :: index_names (snd kf);
               columns := columns (snd kf);
               rows := map (fun r => (CVal (PStr (fst kf)) :: fst r, snd r))
                           (rows (snd kf)) |}) d).

(** [df.index.set_names(name, level=0)] *)
Definition set_names0 (df : DataFrame) (name : string) : DataFrame :=
  {| index_names := match index_names df with
                    | [] => []
                    | _ :: ns => Some name :: ns
                    end;
     columns := columns df;
     rows := rows df |}.

Definition key_eqb (a b : list cell) : bool := list_eqb cell_eqb a b.

Fixpoint find_row (key : list cell) (rs : list (list cell * list cell))
  : option (list cell) :=
  match rs with
  | [] => None
  | r :: rs' => if key_eqb key (fst r) then Some (snd r) else find_row key rs'
  end.

Fixpoint keys_unique (ks : list (list cell)) : bool :=
  match ks with
  | [] => true
  | k :: ks' => negb (existsb (key_eqb k) ks') && keys_unique ks'
  end.

(** [pd.concat([a, b], axis=1)]: the columns of [b] are put to the right of
    those of [a].  Equal indexes are kept as they are; otherwise both must
    be free of duplicates and the result is indexed by the keys of [a]
    followed by the keys only [b] has, with [NaN] where a frame has no
    such row. *)
Definition concat_columns (a b : DataFrame) : result DataFrame :=
  let ka := map fst (rows a) in
  let kb := map fst (rows b) in
  if list_eqb key_eqb ka kb then
    Ok {| index_names := unanimous (index_names a) (index_names b);
          columns := columns a ++ columns b;
          rows := map (fun p => (fst (fst p), snd (fst p) ++ snd (snd p)))
                      (combine (rows a) (rows b)) |}
  else if negb (Nat.eqb (length (index_names a)) (length (index_names b)))
  then Raise (ValueError "cannot join indexes with different levels")
  else if negb (keys_unique ka && keys_unique kb) then
    Raise (ValueError "cannot reindex on an axis with duplicate labels")
  else
    let extra := filter (fun k => negb (existsb (key_eqb k) ka)) kb in
    let row_of (f : DataFrame) (k : list cell) :=
      match find_row k (rows f) with
      | Some d => d
      | None => repeat CNaN (ncols f)
      end in
    Ok {| index_names := unanimous (index_names a) (index_names b);
          columns := columns a ++ columns b;
          rows := map (fun k => (k, row_of a k ++ row_of b k)) (ka ++ extra) |}.

Fixpoint level_pos (name : string) (ns : list (option string)) : option nat :=
  match ns with
  | [] => None
  | n :: ns' =>
      if opt_str_eqb n (Some name) then Some O
      else match level_pos name ns' with Some i => Some (S i) | None => None end
  end.

(** [dfp.reindex(target, level=name)]: the rows of the flat-indexed [dfp]
    are repeated along the multi-level index [target], matched on the
    level called [name]; a key without a match gets [NaN]. *)
Definition reindex_level (dfp : DataFrame) (target_names : list (option string))
  (target_keys : list (list cell)) (name : string) : result DataFrame :=
  match level_pos name target_names with
  | None => Raise (KeyError name)
  | Some i =>
      if Nat.ltb 1 (length (index_names dfp)) then
        Raise (TypeError "Join on level between two MultiIndex objects is ambiguous")
      else
        Ok {| index_names := target_names;
              columns := columns dfp;
              rows := map (fun k =>
                             (k, match find_row [nth i k CNaN] (rows dfp) with
                                 | Some d => d
                                 | None => repeat CNaN (ncols dfp)
                                 end)) target_keys |}
  end.

(** [v[0]] for a column [v] of a frame: the cell of the row labelled [0]. *)
Definition at_label0 (df : DataFrame) (i : nat) : result cell :=
  match find_row [CVal (PInt 0)] (rows df) with
  | Some d => Ok (nth i d CNaN)
  | None => Raise (KeyError "0")
  end.

(** ** Record access *)

(** What a function hands back or keeps in a local [dict]: an object a
    record already holds, or a table it has just built. *)
Inductive pyobj : Type :=
| Obj (v : value)
| New (df : DataFrame).

(** Use of an object as a table.  Python fails with [AttributeError] at
    the first table method called on anything else; the model fails where
    the object is first bound to a table name. *)
Definition as_table (o : pyobj) : M tref :=
  match o with
  | Obj (VFrame a) => ret (Stored a)
  | New df => ret (Fresh df)
  | Obj _ => raise (AttributeError "object is not a DataFrame")
  end.

(** [self.name] for an attribute-style record. *)
Definition getattr (self : DataDict) (name : string) : M value :=
  match dict_get name self with
  | Some v => ret v
  | None => raise (AttributeError name)
  end.

(** [d[key]] on a mapping entry ([dict] or [DataDict]). *)
Definition getitem (d : value) (key : string) : M value :=
  match d with
  | VPy (PDict m) => match dict_get key m with
               | Some v => ret (VPy v)
               | None => raise (KeyError key)
               end
  | VData m => match dict_get key m with
               | Some v => ret v
               | None => raise (KeyError key)
               end
  | _ => raise (TypeError "object is not a mapping")
  end.

(** [key in d] on a mapping entry. *)
Definition contains (d : value) (key : string) : M bool :=
  match d with
  | VPy (PDict m) => ret (dict_has key m)
  | VData m => ret (dict_has key m)
  | _ => raise (TypeError "object is not a mapping")
  end.

(** The items of a mapping whose values are plain objects. *)
Definition plain_items (d : value) : M (list (string * pyval)) :=
  match d with
  | VPy (PDict m) => ret m
  | VData m =>
      (fix go (l : list (string * value)) : M (list (string * pyval)) :=
         match l with
         | [] => ret []
         | (k, VPy v) :: l' => r <- go l' ;; ret ((k, v) :: r)
         | _ :: _ => raise (TypeError "parameter value is not a plain object")
         end) m
  | _ => raise (AttributeError "items")
  end.

(** A selection argument: [True], [False], one key, or a list of keys. *)
Inductive selector : Type :=
| SelTrue
| SelFalse
| SelKey (k : string)
| SelKeys (ks : list string).

Definition is_True (s : selector) : bool :=
  match s with SelTrue => true | _ => false end.

Definition is_False (s : selector) : bool :=
  match s with SelFalse => true | _ => false end.

(** Modelled from the spec: [make_list] is defined in [agentpy/tools.py],
    which is not among the sources.  A selection is "a single name or a
    list": a single key becomes a one-element list and a list is kept.
    The booleans are no keys, so the list made of one matches no label. *)
Definition make_list (s : selector) : list string :=
  match s with
  | SelKey k => [k]
  | SelKeys ks => ks
  | SelTrue => []
  | SelFalse => []
  end.

(** ** [DataDict._combine_vars] *)

(** [l.insert(-1, x)] *)
Definition insert_before_last {A : Type} (x : A) (l : list A) : list A :=
  match rev l with
  | [] => [x]
  | last :: front => rev front ++ [x; last]
  end.

(** [any(x in v.columns for x in keys)]: [v.columns] is only looked at
    when there is a key to test. *)
Definition any_in_columns (keys : list string) (o : pyobj) : M bool :=
  match keys with
  | [] => ret false
  | _ => t <- as_table o ;; df <- read t ;;
         ret (existsb (fun x => str_in x (columns df)) keys)
  end.

Fixpoint filterM {A : Type} (p : A -> M bool) (l : list A) : M (list A) :=
  match l with
  | [] => ret []
  | a :: l' =>
      b <- p a ;;
      r <- filterM p l' ;;
      ret (if b then a :: r else r)
  end.

Fixpoint mapM {A B : Type} (f : A -> M B) (l : list A) : M (list B) :=
  match l with
  | [] => ret []
  | a :: l' => b <- f a ;; r <- mapM f l' ;; ret (b :: r)
  end.

(** The part of [_combine_vars] after [df_dict = dict(vs)]: the local dict
    is new, the tables in it are still the record's own objects. *)
Definition combine_vars_dict (self : DataDict) (df_dict : list (string * pyobj))
  (obj_types var_keys : selector) : M (option pyobj) :=
  (* Remove dataframes that don't include any of the selected var_keys *)
  df_dict <- (if is_True var_keys then ret df_dict
              else filterM (fun kv => any_in_columns (make_list var_keys) (snd kv))
                           df_dict) ;;
  (* Select object types *)
  let df_dict :=
    if is_True obj_types then df_dict
    else filter (fun kv => str_in (fst kv) (make_list obj_types)) df_dict in
  (* Add 'obj_id' before 't' for model df *)
  log <- getattr self "log" ;;
  model_type <- getitem log "model_type" ;;
  df_dict <-
    match model_type with
    | VPy (PStr mt) =>
        match dict_get mt df_dict with
        | None => ret df_dict
        | Some o =>
            t <- as_table o ;;
            df <- read t ;;
            df <- lift (setitem df "obj_id" (CVal (PInt 0))) ;;
            match t with
            | Stored a => assign a df
            | Fresh _ => ret tt
            end ;;;
            let indexes := insert_before_last (Some "obj_id") (index_names df) in
            df <- lift (reset_index df) ;;
            df <- lift (set_index df indexes) ;;
            ret (dict_set mt (New df) df_dict)
        end
    | _ => ret df_dict
    end ;;
  (* Return none if empty *)
  match df_dict with
  | [] => ret None
  | _ =>
      (* Create dataframe *)
      frames <- mapM (fun kv => t <- as_table (snd kv) ;; df <- read t ;;
                                ret (fst kv, df)) df_dict ;;
      df <- lift (concat_dict frames) ;;
      let df := set_names0 df "obj_type" in
      (* Select var_keys *)
      df <- (if is_True var_keys then ret df
             else lift (select_columns df (make_list var_keys))) ;;
      ret (Some (New df))
  end.

Definition _combine_vars (self : DataDict) (obj_types var_keys : selector)
  : M (option pyobj) :=
  match dict_get "variables" self with
  | None => ret None
  | Some vs =>
      match vs with
      | VFrame a => ret (Some (Obj vs))
      | VData d =>
          match d with
          | [(_, child)] => ret (Some (Obj child))
          | _ => combine_vars_dict self
                   (map (fun kv => (fst kv, Obj (snd kv))) d) obj_types var_keys
          end
      | VPy (PDict d) =>
          combine_vars_dict self
            (map (fun kv => (fst kv, Obj (VPy (snd kv)))) d) obj_types var_keys
      | VPy _ =>
          raise (TypeError
            "DataDict.variables must be of type dict,agentpy.DataDict, or pandas.DataFrame.")
      end
  end.

(** ** [DataDict._dict_pars_to_df] and [DataDict._combine_pars] *)

Definition _dict_pars_to_df (self : DataDict) (dict_pars : list (string * pyval))
  : M DataFrame :=
  log <- getattr self "log" ;;
  has <- contains log "sample_size" ;;
  n <- (if has then getitem log "sample_size" else ret (VPy (PInt 1))) ;;
  match n with
  | VPy (PInt n) =>
      let data := map (fun kv => CVal (snd kv)) dict_pars in
      ret {| index_names := [Some "sample_id"];
             columns := dict_keys dict_pars;
             rows := map (fun key => (key, data)) (range_keys (Z.to_nat n)) |}
  | _ => raise (TypeError "can't multiply sequence by non-int")
  end.

Fixpoint set_constants (dfp : DataFrame) (items : list (string * pyval))
  : result DataFrame :=
  match items with
  | [] => Ok dfp
  | (k, v) :: items' =>
      match setitem dfp k (CVal v) with
      | Ok dfp' => set_constants dfp' items'
      | Raise e => Raise e
      end
  end.

Definition _combine_pars (self : DataDict) (sample constants : bool)
  : M (option pyobj) :=
  (* Case 0: Cancel if there are no parameters *)
  match dict_get "parameters" self with
  | None => ret None
  | Some parameters =>
      dfp <-
        match parameters with
        | VData pd =>
            (* Case 1: There is a subdict with fixed & combined *)
            if sample && dict_has "sample" pd then
              s <- getitem parameters "sample" ;;
              t <- as_table (Obj s) ;;
              dfp <- read t ;;
              if constants && dict_has "constants" pd then
                c <- getitem parameters "constants" ;;
                items <- plain_items c ;;
                lift (set_constants dfp items)
              else ret dfp
            else if constants && dict_has "constants" pd then
              c <- getitem parameters "constants" ;;
              items <- plain_items c ;;
              _dict_pars_to_df self items
            else ret empty_frame
        | VPy (PDict d) =>
            (* Case 2: There is a dict with fixed parameters *)
            if constants then _dict_pars_to_df self d
            else raise (TypeError "DataDict.parameters must be a dict or DataDict.")
        | _ =>
            (* Case 4: Raise error if no valid data type if found *)
            raise (TypeError "DataDict.parameters must be a dict or DataDict.")
        end ;;
      (* Case 5: Cancel if no parameters have been selected *)
      if Nat.eqb (nrows dfp) 0 && Nat.eqb (ncols dfp) 0 then ret None
      else ret (Some (New dfp))
  end.

(** ** [DataDict.arrange] *)

Definition opt_table (o : option pyobj) : M (option tref) :=
  match o with
  | None => ret None
  | Some ob => t <- as_table ob ;; ret (Some t)
  end.

(** The loop [for k, v in dfp.items(): df[k] = v[0]]; [df] may be one of
    the record's own tables, which the assignment then changes. *)
Fixpoint add_parameter_columns (df : tref) (dfp : DataFrame)
  (cols : list string) (i : nat) : M tref :=
  match cols with
  | [] => ret df
  | k :: cols' =>
      v0 <- lift (at_label0 dfp i) ;;
      cur <- read df ;;
      cur <- lift (setitem cur k v0) ;;
      df <- match df with
            | Stored a => assign a cur ;;; ret (Stored a)
            | Fresh _ => ret (Fresh cur)
            end ;;
      add_parameter_columns df dfp cols' (S i)
  end.

Definition arrange (self : DataDict) (variables reporters parameters : selector)
  (obj_types : selector) (index : bool) : M (option tref) :=
  (* Step 1: Variables *)
  dfv <- (if is_False variables then ret None
          else o <- _combine_vars self obj_types variables ;; opt_table o) ;;
  (* Step 2: Measures *)
  dfm <- (if is_False reporters then ret None
          else
            r <- getattr self "reporters" ;;
            dfm <- as_table (Obj r) ;;
            if is_True reporters then ret (Some dfm)
            else
              cur <- read dfm ;;
              sel <- lift (select_columns cur (make_list reporters)) ;;
              ret (Some (Fresh sel))) ;;
  (* Step 3: Parameters *)
  dfp <- (if is_True parameters then
            o <- _combine_pars self true false ;; opt_table o
          else if is_False parameters then ret None
          else
            o <- _combine_pars self true true ;;
            match o with
            | None => raise (TypeError "'NoneType' object is not subscriptable")
            | Some ob =>
                t <- as_table ob ;;
                cur <- read t ;;
                sel <- lift (select_columns cur (make_list parameters)) ;;
                ret (Some (Fresh sel))
            end) ;;
  (* Step 4: Combine dataframes *)
  df <- match dfv, dfm with
        | Some dfv, Some dfm =>
            (* Combine variables & measures *)
            v <- read dfv ;;
            m <- read dfm ;;
            let index_keys := index_names v in
            m <- lift (reset_index m) ;;
            v <- lift (reset_index v) ;;
            df <- lift (concat_rows [m; v]) ;;
            df <- lift (set_index df index_keys) ;;
            ret (Some (Fresh df))
        | Some dfv, None => ret (Some dfv)
        | None, Some dfm => ret (Some dfm)
        | None, None => ret None
        end ;;
  df <- match dfp with
        | None => ret df
        | Some dfp =>
            match df with
            | None => ret (Some dfp)
            | Some df =>
                (* Combine df with parameters *)
                p <- read dfp ;;
                if Nat.ltb 1 (nrows p) then
                  (* If multi run, add parameters by sample_id *)
                  cur <- read df ;;
                  p <- (if Nat.ltb 1 (length (index_names cur)) then
                          lift (reindex_level p (index_names cur)
                                  (map fst (rows cur)) "sample_id")
                        else ret p) ;;
                  df <- lift (concat_columns cur p) ;;
                  ret (Some (Fresh df))
                else
                  (* Elif single run, add parameters as columns *)
                  df <- add_parameter_columns df p (columns p) 0 ;;
                  ret (Some df)
            end
        end ;;
  match df with
  | None => ret None
  | Some df =>
      (* Step 6: Reset index *)
      if negb index then
        cur <- read df ;;
        cur <- lift (reset_index cur) ;;
        ret (Some (Fresh cur))
      else ret (Some df)
  end.

(** [arrange_reporters] and [arrange_variables] *)
Definition arrange_reporters (self : DataDict) : M (option tref) :=
  arrange self SelFalse SelTrue SelTrue SelTrue false.

Definition arrange_variables (self : DataDict) : M (option tref) :=
  arrange self SelTrue SelFalse SelTrue SelTrue false.


(** ** [DataDict.__eq__] *)

(** [a.equals(b)] for two table objects of the store. *)
Definition frames_equal (h : heap) (a b : addr) : result bool :=
  match nth_error h a, nth_error h b with
  | Some x, Some y => Ok (equals x y)
  | _, _ => Raise (AssertionError "dangling table")
  end.

(** The comparison of two entries as [DataDict.__eq__] makes it: a table
    with [equals], anything else with [==], which for a nested [DataDict]
    is [__eq__] again.  Comparing a plain object with a table gives a table
    of booleans, whose truth value pandas refuses. *)
Fixpoint py_eq (h : heap) (x y : value) {struct x} : result bool :=
  match x with
  | VFrame a =>
      match y with
      | VFrame b => frames_equal h a b
      | _ => Ok false
      end
  | VData d =>
      match y with
      | VData other =>
          (fix items (l : list (string * value)) {struct l} : result bool :=
             match l with
             | [] => Ok true
             | (key, item) :: l' =>
                 match dict_get key other with
                 | None => Ok false
                 | Some o =>
                     match py_eq h item o with
                     | Ok true => items l'
                     | Ok false => Ok false
                     | Raise e => Raise e
                     end
                 end
             end) d
      | _ => Ok false
      end
  | VPy v =>
      match y with
      | VPy w => Ok (pyval_eqb v w)
      | VFrame _ => Raise (ValueError "The truth value of a DataFrame is ambiguous.")
      | VData _ => Ok false
      end
  end.

(** [self == other] for two [DataDict]s. *)
Definition __eq__ (h : heap) (self other : DataDict) : result bool :=
  py_eq h (VData self) (VData other).

Definition __ne__ (h : heap) (self other : DataDict) : result bool :=
  match __eq__ h self other with
  | Ok b => Ok (negb b)
  | Raise e => Raise e
  end.

(** ** [DataDict.__repr__] *)

(** The line feed. *)
Definition nl : string := String (ascii_of_nat 10) EmptyString.

(** [{type(v)}] in an f-string. *)
Definition type_text (v : pyval) : string :=
  match v with
  | PNone => "<class 'NoneType'>"
  | PInt _ => "<class 'int'>"
  | PStr _ => "<class 'str'>"
  | PList _ => "<class 'list'>"
  | PTuple _ => "<class 'tuple'>"
  | PDict _ => "<class 'dict'>"
  end.

(** What [__repr__] writes behind the key of an entry.  A nested record
    is written by [__repr__(indent=True)]: every entry on a line of its
    own behind four blanks, without the opening and the closing line.
    The length of a string is counted in bytes, which is Python's [len]
    for ASCII text. *)
Fixpoint repr_entry (h : heap) (v : value) {struct v} : result string :=
  match v with
  | VPy (PInt z) => Ok (string_of_Z z ++ " " ++ type_text (PInt z))%string
  | VPy (PStr s) =>
      let x0 := ("(length " ++ string_of_nat (String.length s) ++ ")")%string in
      let x := if Nat.ltb 20 (String.length s) then ("...' " ++ x0)%string
               else "'" in
      Ok ("'" ++ substring 0 30 s ++ x ++ " " ++ type_text (PStr s))%string
  | VFrame a =>
      match nth_error h a with
      | Some df =>
          let lv := ncols df in
          let rv := nrows df in
          Ok ("DataFrame with " ++ string_of_nat lv ++ " variable"
              ++ (if Nat.eqb lv 1 then "" else "s")
              ++ " and " ++ string_of_nat rv ++ " row"
              ++ (if Nat.eqb rv 1 then "" else "s"))%string
      | None => Raise (AssertionError "dangling table")
      end
  | VData d =>
      (fix entries (l : list (string * value)) {struct l} : result string :=
         match l with
         | [] => Ok EmptyString
         | (k, x) :: l' =>
             match repr_entry h x with
             | Raise e => Raise e
             | Ok s =>
                 match entries l' with
                 | Raise e => Raise e
                 | Ok t => Ok (nl ++ "    " ++ "'" ++ k ++ "': " ++ s ++ t)%string
                 end
             end
         end) d
  | VPy (PDict m) =>
      let lv := length m in
      Ok ("Dictionary with " ++ string_of_nat lv ++ " key"
          ++ (if Nat.eqb lv 1 then "" else "s"))%string
  | VPy (PList l) =>
      let lv := length l in
      Ok ("List with " ++ string_of_nat lv ++ " entr"
          ++ (if Nat.eqb lv 1 then "y" else "ies"))%string
  | VPy p => Ok ("Object of type " ++ type_text p)%string
  end.

(** The loop of [__repr__] over the entries, each behind the indent [i]. *)
Fixpoint repr_entries (h : heap) (i : string) (l : list (string * value))
  : result string :=
  match l with
  | [] => Ok EmptyString
  | (k, v) :: l' =>
      match repr_entry h v with
      | Raise e => Raise e
      | Ok s =>
          match repr_entries h i l' with
          | Raise e => Raise e
          | Ok t => Ok (nl ++ i ++ "'" ++ k ++ "': " ++ s ++ t)%string
          end
      end
  end.

Definition __repr__ (h : heap) (self : DataDict) (indent : bool)
  : result string :=
  let i := if indent then "    " else "" in
  match repr_entries h i self with
  | Raise e => Raise e
  | Ok body =>
      Ok ((if indent then "" else "DataDict {") ++ body
          ++ (if indent then "" else nl ++ "}"))%string
  end.

(** ** Strings *)

(** [sub in s] *)
Fixpoint is_substring (sub s : string) : bool :=
  String.prefix sub s
  || match s with
     | EmptyString => false
     | String _ s' => is_substring sub s'
     end.

(** [s.split(c)] for a one-character separator. *)
Fixpoint split_char (c : ascii) (s : string) : list string :=
  match s with
  | EmptyString => [EmptyString]
  | String a s' =>
      if Ascii.eqb a c then EmptyString :: split_char c s'
      else match split_char c s' with
           | [] => [String a EmptyString]
           | w :: ws => String a w :: ws
           end
  end.

(** [l[-1]] for a list of strings that is never empty. *)
Definition last_str (l : list string) : string := last l EmptyString.

Fixpoint drop_str (n : nat) (s : string) : string :=
  match n, s with
  | O, _ => s
  | S n', String _ s' => drop_str n' s'
  | S _, EmptyString => EmptyString
  end.

(** [s.replace(old, new)] for a non-empty [old]: occurrences are replaced
    from the left without overlap.  [skip] counts the characters of a
    match still to be passed over. *)
Fixpoint replace_from (old new : string) (skip : nat) (s : string) : string :=
  match s with
  | EmptyString => EmptyString
  | String a s' =>
      match skip with
      | S k => replace_from old new k s'
      | O =>
          if String.prefix old s
          then new ++ replace_from old new (String.length old - 1) s'
          else String a (replace_from old new O s')
      end
  end.

Definition replace (old new s : string) : string :=
  replace_from old new O s.

(** [s[:-n]] for [n >= 1]. *)
Definition drop_last (n : nat) (s : string) : string :=
  substring 0 (String.length s - n) s.

(** [s.rsplit('_', 1)[0]] *)
Definition before_last_underscore (s : string) : string :=
  match rev (split_char "_" s) with
  | [] => s
  | [_] => s
  | last :: _ => drop_last (String.length last + 1) s
  end.

Definition is_space (a : ascii) : bool :=
  let n := nat_of_ascii a in
  (Nat.leb 9 n && Nat.leb n 13) || (Nat.leb 28 n && Nat.leb n 32).

Fixpoint lstrip (s : string) : string :=
  match s with
  | String a s' => if is_space a then lstrip s' else s
  | EmptyString => EmptyString
  end.

Fixpoint string_rev_onto (s acc : string) : string :=
  match s with
  | EmptyString => acc
  | String a s' => string_rev_onto s' (String a acc)
  end.

Definition string_rev (s : string) : string := string_rev_onto s EmptyString.

(** [s.strip()] *)
Definition strip (s : string) : string :=
  string_rev (lstrip (string_rev (lstrip s))).

Definition digit_of (a : ascii) : option Z :=
  let n := nat_of_ascii a in
  if Nat.leb 48 n && Nat.leb n 57 then Some (Z.of_nat (n - 48)) else None.

Fixpoint digits_value (acc : Z) (s : string) : option Z :=
  match s with
  | EmptyString => Some acc
  | String a s' =>
      match digit_of a with
      | Some d => digits_value (10 * acc + d) s'
      | None => None
      end
  end.

(** [int(s)] on ASCII text without underscores: blanks around it are
    dropped, then an optional sign and at least one decimal digit must
    remain.  (Python reads the decimal digits of other scripts too; where
    [py_int] gives a number, so does [int].) *)
Definition py_int (s : string) : result Z :=
  let bad := Raise (ValueError "invalid literal for int() with base 10") in
  let number (t : string) : option Z :=
    match t with
    | EmptyString => None
    | _ => digits_value 0 t
    end in
  match strip s with
  | String "-" t => match number t with Some z => Ok (- z) | None => bad end
  | String "+" t => match number t with Some z => Ok z | None => bad end
  | t => match number t with Some z => Ok z | None => bad end
  end.

(** [max(ids)] for a non-empty list. *)
Definition py_max (ids : list Z) : Z :=
  match ids with
  | [] => 0
  | i :: ids' => fold_left Z.max ids' i
  end.

(** ** The file system *)

Definition path_eqb (p q : list string) : bool := list_eqb String.eqb p q.

(** The components of a path string; empty components and [.] are
    dropped, so the working directory is the empty path.  Paths are read
    from the working directory downwards: a leading [/] and a component
    [..] are not resolved, and the statements about paths are made for
    paths without them ([relative_path], [entry_name]). *)
Definition parse_path (s : string) : list string :=
  filter (fun c => negb (String.eqb c "" || String.eqb c "."))
         (split_char "/" s).

Fixpoint disk_get (p : list string) (d : disk) : option node :=
  match d with
  | [] => None
  | (q, n) :: d' => if path_eqb p q then Some n else disk_get p d'
  end.

Fixpoint disk_set (p : list string) (n : node) (d : disk) : disk :=
  match d with
  | [] => [(p, n)]
  | (q, m) :: d' =>
      if path_eqb p q then (p, n) :: d' else (q, m) :: disk_set p n d'
  end.

Definition disk_remove (p : list string) (d : disk) : disk :=
  filter (fun e => negb (path_eqb p (fst e))) d.

Definition is_dir (p : list string) (d : disk) : bool :=
  match p with
  | [] => true
  | _ => match disk_get p d with Some Dir => true | _ => false end
  end.

Definition exists_path (p : list string) (d : disk) : bool :=
  match p with
  | [] => true
  | _ => match disk_get p d with Some _ => true | None => false end
  end.

Fixpoint strip_prefix (p q : list string) : option (list string) :=
  match p, q with
  | [], _ => Some q
  | a :: p', b :: q' => if String.eqb a b then strip_prefix p' q' else None
  | _ :: _, [] => None
  end.

(** The names directly under the directory [p]. *)
Definition children (p : list string) (d : disk) : list string :=
  flat_map (fun e => match strip_prefix p (fst e) with
                     | Some [n] => [n]
                     | _ => []
                     end) d.

(** [p[:1], p[:2], ..., p] *)
Definition prefixes (p : list string) : list (list string) :=
  map (fun i => firstn i p) (seq 1 (length p)).

(** Create the missing directories among [ps], outermost first. *)
Fixpoint make_each (ps : list (list string)) (d : disk) : result disk :=
  match ps with
  | [] => Ok d
  | q :: ps' =>
      match disk_get q d with
      | Some Dir => make_each ps' d
      | Some (File _) => Raise (OSError "Not a directory")
      | None => make_each ps' (d ++ [(q, Dir)])
      end
  end.

Definition set_files (d : disk) : M unit :=
  fun w => (Ok tt, {| tables := tables w; files := d |}).

Definition get_files : M disk := fun w => (Ok (files w), w).

(** [os.makedirs(path)]: the directory and its missing parents are made;
    the directory itself must not exist yet. *)
Definition makedirs (path : string) : M unit :=
  d <- get_files ;;
  let p := parse_path path in
  if exists_path p d then raise (FileExistsError path)
  else d' <- lift (make_each (prefixes p) d) ;; set_files d'.

(** Writing a file: [open(path, 'w')] followed by the content. *)
Definition write_file (path : string) (c : content) : M unit :=
  d <- get_files ;;
  let p := parse_path path in
  if negb (is_dir (removelast p) d) then raise (FileNotFoundError path)
  else
    match p with
    | [] => raise (OSError "Is a directory")
    | _ =>
        match disk_get p d with
        | Some Dir => raise (OSError "Is a directory")
        | _ => set_files (disk_set p (File c) d)
        end
    end.

(** [os.remove(path)] *)
Definition remove (path : string) : M unit :=
  d <- get_files ;;
  let p := parse_path path in
  match disk_get p d with
  | Some (File _) => set_files (disk_remove p d)
  | _ => raise (FileNotFoundError path)
  end.

(** ** JSON *)

Fixpoint json_of_pyval (v : pyval) : json :=
  match v with
  | PNone => JNull
  | PInt z => JInt z
  | PStr s => JStr s
  | PList l => JArr (map json_of_pyval l)
  | PTuple l => JArr (map json_of_pyval l)
  | PDict d => JObj (map (fun kv => (fst kv, json_of_pyval (snd kv))) d)
  end.

Fixpoint pyval_of_json (j : json) : pyval :=
  match j with
  | JNull => PNone
  | JInt z => PInt z
  | JStr s => PStr s
  | JArr l => PList (map pyval_of_json l)
  | JObj m => PDict (map (fun kv => (fst kv, pyval_of_json (snd kv))) m)
  end.

(** What [json.dump] writes for an entry; a table has no JSON form. *)
Fixpoint json_of_value (v : value) : option json :=
  match v with
  | VFrame _ => None
  | VPy p => Some (json_of_pyval p)
  | VData d =>
      match
        (fix items (l : list (string * value)) : option (list (string * json)) :=
           match l with
           | [] => Some []
           | (k, x) :: l' =>
               match json_of_value x, items l' with
               | Some j, Some m => Some ((k, j) :: m)
               | _, _ => None
               end
           end) d
      with
      | Some m => Some (JObj m)
      | None => None
      end
  end.

(** ** CSV *)

(** [df.to_csv()]: a header with the index level names (empty for an
    unnamed level) and the column labels, then one line per row with the
    index key in front. *)
Definition to_csv (df : DataFrame) : content :=
  Csv (map (fun n => match n with Some s => s | None => "" end) (index_names df)
       ++ columns df)
      (map (fun r => fst r ++ snd r) (rows df)).

Fixpoint count_str (k : string) (l : list string) : nat :=
  match l with
  | [] => O
  | a :: l' => (if String.eqb k a then 1 else 0) + count_str k l'
  end.

(** The column labels [read_csv] makes of a header: an empty label is
    called after its position, a repeated label gets a numbered suffix. *)
Fixpoint mangle (seen : list string) (i : nat) (header : list string)
  : list string :=
  match header with
  | [] => []
  | c :: header' =>
      let c1 := if String.eqb c "" then ("Unnamed: " ++ string_of_nat i)%string
                else c in
      let n := count_str c1 seen in
      let c2 := match n with
                | O => c1
                | _ => (c1 ++ "." ++ string_of_nat n)%string
                end in
      c2 :: mangle (c1 :: seen) (S i) header'
  end.

(** ** Experiment ids, [save] and [_load] *)

Section Persistence.

(** The order in which [os.listdir] reports the names of a directory. *)
Variable scan : list string -> list string.

(** [os.path.getmtime] *)
Variable getmtime : string -> Z.

(** What the cells of a table are read back as once they have been
    written as text, all lines at once. *)
Variable reparse : list (list cell) -> list (list cell).

(** [os.listdir(path)] *)
Definition listdir (path : string) : M (list string) :=
  d <- get_files ;;
  let p := parse_path path in
  if is_dir p d then ret (scan (children p d))
  else raise (FileNotFoundError path).

(** [pd.read_csv(path)] on what [to_csv] wrote. *)
Definition read_csv (header : list string) (body : list (list cell))
  : DataFrame :=
  let body := reparse body in
  {| index_names := [None];
     columns := mangle [] 0 header;
     rows := combine (range_keys (length body)) body |}.

Definition _last_exp_id (name path : string) : M Z :=
  output_dirs <- listdir path ;;
  let exp_dirs := filter (fun s => is_substring name s) output_dirs in
  match exp_dirs with
  | [] => ret 0
  | _ =>
      ids <- mapM (fun s => lift (py_int (last_str (split_char "_" s))))
                  exp_dirs ;;
      ret (py_max ids)
  end.

(** One entry of a nested record in [save]. *)
Definition save_child (path key : string) (ko : string * value) : M unit :=
  let (k, o) := ko in
  match o with
  | VFrame a =>
      df <- deref a ;;
      write_file (path ++ "/" ++ key ++ "_" ++ k ++ ".csv") (to_csv df)
  | VPy (PDict _) | VData _ =>
      match json_of_value o with
      | Some j => write_file (path ++ "/" ++ key ++ "_" ++ k ++ ".json") (Json j)
      | None =>
          write_file (path ++ "/" ++ key ++ "_" ++ k ++ ".json") Truncated ;;;
          raise (TypeError "Object of type DataFrame is not JSON serializable")
      end
  | VPy _ => ret tt
  end.

(** One top-level entry in [save]. *)
Definition save_entry (path : string) (ko : string * value) : M unit :=
  let (key, output) := ko in
  match output with
  | VFrame a =>
      df <- deref a ;;
      write_file (path ++ "/" ++ key ++ ".csv") (to_csv df)
  | VData d =>
      mapM (save_child path key) d ;;; ret tt
  | VPy _ =>
      (* Use JSON for other object types *)
      match json_of_value output with
      | Some j => write_file (path ++ "/" ++ key ++ ".json") (Json j)
      | None =>
          write_file (path ++ "/" ++ key ++ ".json") Truncated ;;;
          remove (path ++ "/" ++ key ++ ".json")
      end
  end.

Definition save (self : DataDict) (exp_name : option string)
  (exp_id : option Z) (path : string) : M unit :=
  (* Create output directory if it doesn't exist *)
  here <- listdir "." ;;
  (if str_in path here then ret tt else makedirs path) ;;;
  (* Set exp_name *)
  exp_name <-
    match exp_name with
    | Some n => ret n
    | None =>
        match dict_get "log" self with
        | None => ret "Unnamed"
        | Some log =>
            has <- contains log "model_type" ;;
            if has then
              mt <- getitem log "model_type" ;;
              match mt with
              | VPy (PStr n) => ret n
              | _ => raise (AttributeError "replace")
              end
            else ret "Unnamed"
        end
    end ;;
  let exp_name := replace " " "_" exp_name in
  (* Set exp_id *)
  exp_id <-
    match exp_id with
    | Some i => ret i
    | None => last <- _last_exp_id exp_name path ;; ret (last + 1)
    end ;;
  (* Create new directory for output *)
  let path := (path ++ "/" ++ exp_name ++ "_" ++ string_of_Z exp_id)%string in
  makedirs path ;;;
  (* Save experiment data *)
  mapM (save_entry path) self ;;;
  ret tt.

Definition i_cols : list string := ["sample_id"; "iteration"; "obj_id"; "t"].

(** [load_file] of [_load]: whatever goes wrong is reported and the
    result is [None]. *)
Definition load_file (path file : string) : M value :=
  let ext := last_str (split_char "." file) in
  let path := (path ++ file)%string in
  d <- get_files ;;
  if String.eqb ext "csv" then
    match disk_get (parse_path path) d with
    | Some (File (Csv header body)) =>
        let obj := read_csv header body in
        let index := filter (fun i => str_in i (columns obj)) i_cols in
        match index with
        | [] => a <- alloc obj ;; ret (VFrame a)
        | _ =>
            match set_index obj (map Some index) with
            | Ok obj => a <- alloc obj ;; ret (VFrame a)
            | Raise _ => ret (VPy PNone)
            end
        end
    | _ => ret (VPy PNone)
    end
  else if String.eqb ext "json" then
    match disk_get (parse_path path) d with
    | Some (File (Json j)) => ret (VPy (pyval_of_json j))
    | _ => ret (VPy PNone)
    end
  else ret (VPy PNone).

(** [os.path.join(path, d)] for a relative [d]. *)
Definition join (path d : string) : string :=
  if String.eqb path "" then d
  else if String.eqb (drop_str (String.length path - 1) path) "/"
       then (path ++ d)%string
       else (path ++ "/" ++ d)%string.

(** [max(names, key=...)]: the first name whose key is the largest. *)
Fixpoint latest (key : string -> Z) (best : string) (names : list string)
  : string :=
  match names with
  | [] => best
  | n :: names' =>
      latest key (if Z.ltb (key best) (key n) then n else best) names'
  end.

(** [self[section][key] = obj], the section made on first use. *)
Definition set_nested (self : DataDict) (section key : string) (obj : value)
  : M DataDict :=
  match dict_get section self with
  | None => ret (dict_set section (VData [(key, obj)]) self)
  | Some (VData d) => ret (dict_set section (VData (dict_set key obj d)) self)
  | Some _ => raise (TypeError "section is not a DataDict")
  end.

(** The loop of [_load] over the files of the experiment directory. *)
Fixpoint load_files (self : DataDict) (path : string) (l : list string)
  : M DataDict :=
  match l with
  | [] => ret self
  | file :: l' =>
      let ext := last_str (split_char "." file) in
      let stem := drop_last (String.length ext + 1) file in
      self <-
        (if is_substring "variables_" file then
           self <- (if dict_has "variables" self then ret self
                    else ret (dict_set "variables" (VData []) self)) ;;
           let key := replace "variables_" "" stem in
           obj <- load_file path file ;;
           set_nested self "variables" key obj
         else if is_substring "parameters_" file then
           let key := replace "parameters_" "" stem in
           self <- (if dict_has "parameters" self then ret self
                    else ret (dict_set "parameters" (VData []) self)) ;;
           obj <- load_file path file ;;
           set_nested self "parameters" key obj
         else
           obj <- load_file path file ;;
           ret (dict_set stem obj self)) ;;
      load_files self path l'
  end.

Definition _load (self : DataDict) (exp_name : option string)
  (exp_id : option Z) (path : string) : M DataDict :=
  (* Prepare for loading *)
  exp_name <-
    match exp_name with
    | Some n => ret n
    | None =>
        (* Choose latest modified experiment *)
        exp_names <- listdir path ;;
        match exp_names with
        | [] => raise (ValueError "max() arg is an empty sequence")
        | n :: ns =>
            let latest_exp :=
              latest (fun d => getmtime (join path d)) n ns in
            ret (before_last_underscore latest_exp)
        end
    end ;;
  let exp_name := replace " " "_" exp_name in
  exp_id <-
    match exp_id with
    | Some i => if Z.eqb i 0 then ret None else ret (Some i)
    | None => ret None
    end ;;
  exp_id <-
    match exp_id with
    | Some i => ret i
    | None =>
        i <- _last_exp_id exp_name path ;;
        if Z.eqb i 0 then raise (FileNotFoundError path) else ret i
    end ;;
  let path :=
    (path ++ "/" ++ exp_name ++ "_" ++ string_of_Z exp_id ++ "/")%string in
  (* Loading data *)
  l <- listdir path ;;
  load_files self path l.

Definition load (exp_name : option string) (exp_id : option Z)
  (path : string) : M DataDict :=
  _load [] exp_name exp_id path.

End Persistence.

(** ** [DataDict.calc_sobol] *)

(** What [SALib.analyze.sobol.analyze] returns: named lists of first and
    total order indices (one per parameter) and named matrices of second
    order indices, in the order of the returned dict. *)
Record sobol_indices : Type := mkIndices {
  first_order : list (string * list cell);
  second_order : list (string * list (list cell))
}.

(** An object that a global name of the module can stand for. *)
Inductive gobj : Type :=
| GOther
| GData (d : DataDict)
| GToSalib (f : list (string * pyval) -> pyval)
| GSobol (analyze : pyval -> list cell -> bool -> list (string * pyval)
                    -> sobol_indices)
| GSetDfIndex.

Definition globals := list (string * gobj).

(** The global names of [datadict.py]: what its [import] statements and
    its top-level [def] and [class] statements bind, in that order. *)
Definition datadict_globals : globals :=
  [ ("pd", GOther); ("os", GOther); ("listdir", GOther); ("makedirs", GOther);
    ("getmtime", GOther); ("join", GOther);
    ("AttrDict", GOther); ("make_list", GOther); ("AgentpyError", GOther);
    ("json", GOther); ("np", GOther);
    ("NpEncoder", GOther); ("_last_exp_id", GOther); ("DataDict", GOther);
    ("load", GOther) ].

(** Evaluation of a name that is not local to the running function. *)
Definition load_global (g : globals) (name : string) : M gobj :=
  match dict_get name g with
  | Some o => ret o
  | None => raise (NameError name)
  end.

(** [pd.DataFrame(s)] for a dict of equally long lists. *)
Fixpoint frame_of_columns (s : list (string * list cell)) : result DataFrame :=
  match s with
  | [] => Ok empty_frame
  | [(k, vs)] =>
      Ok {| index_names := [None];
            columns := [k];
            rows := map (fun kv => (fst kv, [snd kv]))
                        (combine (range_keys (length vs)) vs) |}
  | (k, vs) :: s' =>
      match frame_of_columns s' with
      | Raise e => Raise e
      | Ok df =>
          if Nat.eqb (length vs) (nrows df) then
            Ok {| index_names := [None];
                  columns := k :: columns df;
                  rows := map (fun vr => (fst (snd vr), fst vr :: snd (snd vr)))
                              (combine vs (rows df)) |}
          else Raise (ValueError "All arrays must be of the same length")
      end
  end.

(** [pd.DataFrame(m)] for a matrix: the columns are numbered. *)
Definition frame_of_matrix (m : list (list cell)) : DataFrame :=
  {| index_names := [None];
     columns := map string_of_nat (seq 0 (length (hd [] m)));
     rows := combine (range_keys (length m)) m |}.

(** [_sobol_set_df_index(df, p_keys, reporter)] *)
Definition _sobol_set_df_index (df : DataFrame) (p_keys : list string)
  (reporter : string) : result DataFrame :=
  match setitem df "parameter" (CVal (PList (map PStr p_keys))) with
  | Raise e => Raise e
  | Ok df =>
      match setitem df "reporter" (CVal (PStr reporter)) with
      | Raise e => Raise e
      | Ok df => set_index df [Some "reporter"; Some "parameter"]
      end
  end.

Definition is_tuple (v : pyval) : bool :=
  match v with PTuple _ => true | _ => false end.

(** [pd.concat(dfs)] for the list that was filled by [append]. *)
Definition concat_appended (dfs : list DataFrame) : result DataFrame :=
  concat_rows dfs.

(** The column labels of a second-order table: [S1] and [ST] with an empty
    second level, then [S2] with each parameter.  A two-level label
    [(order, parameter)] is written [order:parameter]. *)
Definition sobol_column_index (p_keys : list string) : list string :=
  ["S1:"; "ST:"] ++ map (fun p => ("S2:" ++ p)%string) p_keys.

(** [df.columns = index] *)
Definition set_columns (df : DataFrame) (labels : list string)
  : result DataFrame :=
  if Nat.eqb (length labels) (ncols df) then
    Ok {| index_names := index_names df; columns := labels; rows := rows df |}
  else Raise (ValueError "Length mismatch").

(** The body of the loop [for reporter in reporters]; [dfs_list] holds the
    tables collected so far, newest last. *)
Definition sobol_for_reporter (g : globals) (param_ranges_salib : pyval)
  (p_keys : list string) (calc_second_order : bool)
  (kwargs : list (string * pyval))
  (dfs_list : list (list DataFrame)) (reporter : string)
  : M (list (list DataFrame)) :=
  output <- load_global g "output" ;;
  rep <- match output with
         | GData d => getattr d "reporters"
         | _ => raise (AttributeError "reporters")
         end ;;
  t <- as_table (Obj rep) ;;
  df <- read t ;;
  y <- match column df reporter with
       | Some y => ret y
       | None => raise (KeyError reporter)
       end ;;
  sobol <- load_global g "sobol" ;;
  si <- match sobol with
        | GSobol analyze =>
            ret (analyze param_ranges_salib y calc_second_order kwargs)
        | _ => raise (AttributeError "analyze")
        end ;;
  (* Make dataframes out of S1 and ST sensitivities *)
  let keyss := [["S1"; "ST"]; ["S1_conf"; "ST_conf"]] in
  firsts <-
    mapM (fun keys =>
            let s := map (fun kv => (substring 0 2 (fst kv), snd kv))
                         (filter (fun kv => str_in (fst kv) keys)
                                 (first_order si)) in
            df <- lift (frame_of_columns s) ;;
            f <- load_global g "_sobol_set_df_index" ;;
            match f with
            | GSetDfIndex => lift (_sobol_set_df_index df p_keys reporter)
            | _ => raise (TypeError "object is not callable")
            end) keyss ;;
  (* Make dataframes out S2 sensitivities *)
  seconds <-
    (if calc_second_order then
       mapM (fun key =>
               match dict_get key (second_order si) with
               | None => raise (KeyError key)
               | Some m =>
                   let df := frame_of_matrix m in
                   f <- load_global g "_sobol_set_df_index" ;;
                   match f with
                   | GSetDfIndex => lift (_sobol_set_df_index df p_keys reporter)
                   | _ => raise (TypeError "object is not callable")
                   end
               end) ["S2"; "S2_conf"]
     else ret []) ;;
  ret (map (fun p => fst p ++ snd p)
           (combine dfs_list
                    (map (fun x => [x]) (firsts ++ seconds)))).

Fixpoint foldM {A B : Type} (f : A -> B -> M A) (a : A) (l : list B) : M A :=
  match l with
  | [] => ret a
  | b :: l' => a' <- f a b ;; foldM f a' l'
  end.

(** [output[key] = df] for a table just built: the table becomes an object
    of the store. *)
Definition store_table (output : DataDict) (key : string) (df : DataFrame)
  : M DataDict :=
  a <- alloc df ;; ret (dict_set key (VFrame a) output).

Definition calc_sobol (g : globals) (self : DataDict)
  (param_ranges : list (string * pyval)) (reporters : option selector)
  (calc_second_order : bool) (kwargs : list (string * pyval)) : M DataDict :=
  (* STEP 1 - Convert param_ranges to SALib Format *)
  let param_ranges_tuples := filter (fun kv => is_tuple (snd kv)) param_ranges in
  to_salib <- load_global g "param_tuples_to_salib" ;;
  param_ranges_salib <-
    match to_salib with
    | GToSalib f => ret (f param_ranges_tuples)
    | _ => raise (TypeError "object is not callable")
    end ;;
  (* STEP 2 - Calculate Sobol Sensitivity Indices *)
  reporters <-
    match reporters with
    | None =>
        output <- load_global g "output" ;;
        rep <- match output with
               | GData d => getattr d "reporters"
               | _ => raise (AttributeError "reporters")
               end ;;
        t <- as_table (Obj rep) ;;
        df <- read t ;;
        ret (Some (SelKeys (columns df)))
    | Some (SelKey k) => ret (Some (SelKeys [k]))
    | Some r => ret (Some r)
    end ;;
  output <- load_global g "output" ;;
  output <- match output with
            | GData d => ret d
            | _ => raise (AttributeError "_combine_pars")
            end ;;
  pars <- _combine_pars output true false ;;
  p_keys <- match pars with
            | None => raise (AttributeError "keys")
            | Some o => t <- as_table o ;; df <- read t ;; ret (columns df)
            end ;;
  let dfs_list := repeat [] (if calc_second_order then 4 else 2)%nat in
  reporters <- match reporters with
               | Some (SelKeys ks) => ret ks
               | _ => raise (TypeError "'bool' object is not iterable")
               end ;;
  dfs_list <- foldM (sobol_for_reporter g param_ranges_salib p_keys
                       calc_second_order kwargs) dfs_list reporters ;;
  (* Combine dataframes for each reporter *)
  sensitivity <- lift (concat_appended (nth 0 dfs_list [])) ;;
  output <- store_table output "sensitivity" sensitivity ;;
  sensitivity_conf <- lift (concat_appended (nth 1 dfs_list [])) ;;
  output <- store_table output "sensitivity_conf" sensitivity_conf ;;
  if calc_second_order then
    (* Add Second-Order to Output *)
    s2 <- lift (concat_appended (nth 2 dfs_list [])) ;;
    s2_conf <- lift (concat_appended (nth 3 dfs_list [])) ;;
    sensitivity <- lift (concat_columns sensitivity s2) ;;
    output <- store_table output "sensitivity" sensitivity ;;
    sensitivity_conf <- lift (concat_columns sensitivity_conf s2_conf) ;;
    output <- store_table output "sensitivity_conf" sensitivity_conf ;;
    (* Create Multi-Index for Columns *)
    let index := sobol_column_index p_keys in
    sensitivity <- lift (set_columns sensitivity index) ;;
    output <- store_table output "sensitivity" sensitivity ;;
    sensitivity_conf <- lift (set_columns sensitivity_conf index) ;;
    output <- store_table output "sensitivity_conf" sensitivity_conf ;;
    ret output
  else ret output.

(** ** Example records *)

Definition int_cells (l : list Z) : list cell := map (fun z => CVal (PInt z)) l.

(** A table indexed by [sample_id] [0..] with one column. *)
Definition sampled_column (name : string) (vs : list cell) : DataFrame :=
  {| index_names := [Some "sample_id"];
     columns := [name];
     rows := map (fun kv => (fst kv, [snd kv]))
                 (combine (range_keys (length vs)) vs) |}.

(** The record of the sweep scenario: four samples of the parameter [x],
    the constant [y = 1], and the reporter [out]. *)
Definition sweep_world (xs outs : list cell) : world :=
  {| tables := [sampled_column "x" xs; sampled_column "out" outs];
     files := [] |}.

Definition sweep_record (y : pyval) : DataDict :=
  [ ("log", VPy (PDict [("model_type", PStr "Model"); ("sample_size", PInt 4)]));
    ("parameters", VData [ ("constants", VPy (PDict [("y", y)]));
                           ("sample", VFrame 0%nat) ]);
    ("reporters", VFrame 1%nat) ].

(** The record of a single run: a flat dict of parameters. *)
Definition single_run_record : DataDict :=
  [ ("log", VPy (PDict [("model_type", PStr "Model")]));
    ("parameters", VPy (PDict [("y", PInt 1)]));
    ("reporters", VFrame 0%nat) ].

(** A record whose [variables] hold one table. *)
Definition one_type_record : DataDict :=
  [ ("log", VPy (PDict [("model_type", PStr "Model")]));
    ("variables", VData [("agent", VFrame 0%nat)]) ].

Definition one_table_world : world :=
  {| tables := [sampled_column "out" (int_cells [5; 6; 7])]; files := [] |}.

(** A record with the variables of the model, indexed by [t], and of one
    agent, indexed by [obj_id] and [t]. *)
Definition model_table : DataFrame :=
  {| index_names := [Some "t"];
     columns := ["wealth"];
     rows := [ ([CVal (PInt 0)], [CVal (PInt 7)]);
               ([CVal (PInt 1)], [CVal (PInt 8)]) ] |}.

Definition agent_table : DataFrame :=
  {| index_names := [Some "obj_id"; Some "t"];
     columns := ["age"];
     rows := [ ([CVal (PInt 1); CVal (PInt 0)], [CVal (PInt 30)]);
               ([CVal (PInt 1); CVal (PInt 1)], [CVal (PInt 31)]) ] |}.

Definition two_type_world : world :=
  {| tables := [model_table; agent_table]; files := [] |}.

Definition two_type_record : DataDict :=
  [ ("log", VPy (PDict [("model_type", PStr "Model")]));
    ("variables", VData [("Model", VFrame 0%nat); ("agent", VFrame 1%nat)]) ].





(** ** Predicates of the statements *)

(** Every row has one cell per column. *)
Definition wf_frame (df : DataFrame) : Prop :=
  forall r, In r (rows df) -> length (snd r) = ncols df.

(** A computation that leaves the tables and the disk as they were. *)
Definition keeps_world {A} (c : M A) : Prop := forall w, snd (c w) = w.

(** The filter of [_combine_vars] on [var_keys], read off the store: the
    entry is a stored table with one of the keys among its columns. *)
Definition var_key_test (h : heap) (keys : list string) (kv : string * pyobj)
  : bool :=
  match snd kv with
  | Obj (VFrame b) =>
      match nth_error h b with
      | Some t => existsb (fun x => str_in x (columns t)) keys
      | None => false
      end
  | _ => false
  end.

(** The character [c] does not occur in [s]. *)
Fixpoint free_of (c : ascii) (s : string) : bool :=
  match s with
  | EmptyString => true
  | String a s' => negb (Ascii.eqb a c) && free_of c s'
  end.

(** A name that is a single path component. *)
Definition plain_name (s : string) : bool :=
  free_of "/" s && negb (String.eqb s "" || String.eqb s ".").

(** The name of an entry of a directory: a single path component other
    than [.] and [..]. *)
Definition entry_name (s : string) : bool :=
  plain_name s && negb (String.eqb s "..").


(** No key of the record, and no key of a record nested in it, has a [/]:
    every file that [save] writes for it is named by a single component
    below the directory of the experiment. *)
Definition plain_keys (r : DataDict) : Prop :=
  forall key v, In (key, v) r ->
    free_of "/" key = true
    /\ forall d k o, v = VData d -> In (k, o) d -> free_of "/" k = true.

(** Every entry sits in a directory that is on the disk too. *)
Definition wf_disk (d : disk) : Prop :=
  forall q n, In (q, n) d -> is_dir (removelast q) d = true.

(** The experiment id that the name of a directory ends in. *)
Definition suffix_id (s : string) : result Z :=
  py_int (last_str (split_char "_" s)).

(** The world after a directory or a file has been added to the disk. *)
Definition with_files (w : world) (new : disk) : world :=
  {| tables := tables w; files := files w ++ new |}.

(** Objects that pandas broadcasts when they are assigned to a column. *)
Definition is_scalar (v : pyval) : bool :=
  match v with
  | PNone | PInt _ | PStr _ => true
  | _ => false
  end.

(** An object that [json.dump] and [json.load] give back as it was: no
    tuple inside (a tuple comes back as a list), dict keys distinct. *)
Fixpoint json_stable (v : pyval) : bool :=
  match v with
  | PNone | PInt _ | PStr _ => true
  | PList l => forallb json_stable l
  | PTuple _ => false
  | PDict d => negb (has_dup (map fst d))
               && forallb (fun kv => json_stable (snd kv)) d
  end.

(** The names of the named index levels. *)
Definition level_names (df : DataFrame) : list string :=
  flat_map (fun n => match n with Some s => [s] | None => [] end)
           (index_names df).

(** A table that [to_csv] and [load_file] give back as it was: its index
    levels are named, taken from the index vocabulary and in its order; its
    column labels are distinct, not empty and outside that vocabulary; its
    rows are complete; its cells read back from text as they were written
    (and are equal to themselves). *)
Definition csv_stable (reparse : list (list cell) -> list (list cell))
  (df : DataFrame) : Prop :=
  index_names df = map Some (level_names df)
  /\ level_names df <> []
  /\ level_names df = filter (fun i => str_in i (level_names df)) i_cols
  /\ NoDup (columns df)
  /\ (forall c, In c (columns df) -> str_in c i_cols = false /\ c <> "")
  /\ wf_frame df
  /\ (forall r, In r (rows df) -> length (fst r) = length (index_names df))
  /\ reparse (map (fun r => fst r ++ snd r) (rows df))
     = map (fun r => fst r ++ snd r) (rows df)
  /\ (forall r c, In r (rows df) -> In c (fst r ++ snd r) ->
                  cell_eqb c c = true).

(** Where [_load] puts what it reads from a file: the section, if any, and
    the key. *)
Definition classify (file : string) : option string * string :=
  let ext := last_str (split_char "." file) in
  let stem := drop_last (String.length ext + 1) file in
  if is_substring "variables_" file then
    (Some "variables", replace "variables_" "" stem)
  else if is_substring "parameters_" file then
    (Some "parameters", replace "parameters_" "" stem)
  else (None, stem).





(** The place of a value in a record: the section of the nested record
    that holds it, if any, and its key. *)
Definition target : Type := option string * string.







(** Writing into a record at a place, as the loop of [_load] does. *)
Definition put (self : DataDict) (t : target) (obj : value)
  : result DataDict :=
  match fst t with
  | None => Ok (dict_set (snd t) obj self)
  | Some sec =>
      match dict_get sec self with
      | None => Ok (dict_set sec (VData [(snd t, obj)]) self)
      | Some (VData d) =>
          Ok (dict_set sec (VData (dict_set (snd t) obj d)) self)
      | Some _ => Raise (TypeError "section is not a DataDict")
      end
  end.










(** Every character of [s] passes the test [p]. *)
Fixpoint all_chars (p : ascii -> bool) (s : string) : bool :=
  match s with
  | EmptyString => true
  | String a s' => p a && all_chars p s'
  end.




(** A computation that leaves the disk alone and at most adds tables to
    the store. *)
Definition reads_only {A} (c : M A) : Prop :=
  forall w, files (snd (c w)) = files w
            /\ exists ext, tables (snd (c w)) = tables w ++ ext.



(** Two stores whose tables have the same numbers of rows and columns,
    address by address. *)
Definition same_shapes (h h' : heap) : Prop :=
  forall a, option_map shape (nth_error h a)
            = option_map shape (nth_error h' a).

(** * Properties *)

(** ** Running the monad *)

Lemma bind_ok {A B} (c : M A) (f : A -> M B) w a w' :
  c w = (Ok a, w') -> bind c f w = f a w'.
Proof. intros H. unfold bind. rewrite H. reflexivity. Qed.

Lemma bind_raise {A B} (c : M A) (f : A -> M B) w e w' :
  c w = (Raise e, w') -> bind c f w = (Raise e, w').
Proof. intros H. unfold bind. rewrite H. reflexivity. Qed.

Lemma deref_ok a w df :
  nth_error (tables w) a = Some df -> deref a w = (Ok df, w).
Proof. intros H. unfold deref. rewrite H. reflexivity. Qed.

Lemma bind_bind {A B C} (c : M A) (f : A -> M B) (g : B -> M C) w :
  bind (bind c f) g w = bind c (fun a => bind (f a) g) w.
Proof. unfold bind. destruct (c w) as [[a|e] w']; reflexivity. Qed.

Ltac run :=
  repeat (first
    [ rewrite bind_bind
    | progress (cbn [ret raise lift getattr getitem contains plain_items
                     as_table read opt_table])
    | erewrite bind_ok by (first [ reflexivity | eassumption
                                 | apply deref_ok; eassumption ])
    | erewrite bind_raise by (first [ reflexivity | eassumption ]) ]).

(** ** Single-child identity of [_combine_vars] *)

(** C6.  When the [variables] section is a nested record with exactly one
    child, [_combine_vars] hands back that very child (for a table: the same
    object of the store) and leaves the store and the disk as they were,
    whatever [obj_types] and [var_keys] are. *)
Theorem combine_vars_single_child :
  forall (self : DataDict) (k : string) (child : value)
         (obj_types var_keys : selector) (w : world),
    dict_get "variables" self = Some (VData [(k, child)]) ->
    _combine_vars self obj_types var_keys w = (Ok (Some (Obj child)), w).
Proof.
  intros self k child obj_types var_keys w H.
  unfold _combine_vars. rewrite H. reflexivity.
Qed.

Lemma combine_vars_single_child_witness :
  _combine_vars one_type_record (SelKeys ["other"]) (SelKey "missing")
                one_table_world
  = (Ok (Some (Obj (VFrame 0%nat))), one_table_world).
Proof.
  apply (combine_vars_single_child one_type_record "agent" (VFrame 0%nat)).
  reflexivity.
Defined.

(** ** Type errors of [_combine_pars] *)

(** C5.  A flat [dict] of parameters is one of the two accepted shapes, and
    yet asking for it without the constants raises the [TypeError] that
    says the section must be a dict or [DataDict]. *)
Theorem combine_pars_flat_dict_type_error :
  forall (self : DataDict) (d : list (string * pyval)) (sample : bool)
         (w : world),
    dict_get "parameters" self = Some (VPy (PDict d)) ->
    _combine_pars self sample false w
    = (Raise (TypeError "DataDict.parameters must be a dict or DataDict."), w).
Proof.
  intros self d sample w H.
  unfold _combine_pars. rewrite H. reflexivity.
Qed.

Lemma combine_pars_flat_dict_type_error_witness :
  _combine_pars single_run_record true false one_table_world
  = (Raise (TypeError "DataDict.parameters must be a dict or DataDict."),
     one_table_world).
Proof.
  apply (combine_pars_flat_dict_type_error single_run_record [("y", PInt 1)]).
  reflexivity.
Defined.

(** ** [calc_sobol] and the names of the module *)

(** C1.  With the global names that [datadict.py] binds, every call of
    [calc_sobol] stops at the first name the module never imported, before
    any table is made or stored. *)
Theorem calc_sobol_name_error :
  forall (self : DataDict) (param_ranges : list (string * pyval))
         (reporters : option selector) (calc_second_order : bool)
         (kwargs : list (string * pyval)) (w : world),
    calc_sobol datadict_globals self param_ranges reporters
               calc_second_order kwargs w
    = (Raise (NameError "param_tuples_to_salib"), w).
Proof. intros. reflexivity. Qed.

(** ** Equality of records *)

Lemma dict_get_app_some {V} (k : string) (d e : list (string * V)) v :
  dict_get k d = Some v -> dict_get k (d ++ e) = Some v.
Proof.
  induction d as [|[k' v'] d IH]; simpl; [discriminate|].
  destruct (String.eqb k k'); auto.
Qed.

Lemma dict_has_false {V} (k : string) (d : list (string * V)) :
  dict_has k d = false -> dict_get k d = None.
Proof. unfold dict_has. destruct (dict_get k d); [discriminate|reflexivity]. Qed.

(** The loop of [__eq__] answers [True] as soon as every item of [self]
    finds an equal partner in [other]. *)
Lemma eq_items_all h other d :
  (forall key item, In (key, item) d ->
     exists o, dict_get key other = Some o /\ py_eq h item o = Ok true) ->
  py_eq h (VData d) (VData other) = Ok true.
Proof.
  induction d as [|[key item] d IH]; intros H; [reflexivity|].
  destruct (H key item (or_introl eq_refl)) as (o & Hget & Heq).
  cbn [py_eq]. rewrite Hget. cbn [py_eq] in Heq. rewrite Heq.
  apply IH. intros key' item' Hin. apply H. right. exact Hin.
Qed.

(** It answers [True] only if every key of [self] is a key of [other]. *)
Lemma eq_items_keys h other d :
  py_eq h (VData d) (VData other) = Ok true ->
  forall key item, In (key, item) d -> dict_get key other <> None.
Proof.
  induction d as [|[k0 v0] d IH]; intros H key item Hin; [destruct Hin|].
  cbn [py_eq] in H.
  destruct (dict_get k0 other) as [o|] eqn:Hget; [|discriminate].
  destruct (py_eq h v0 o) as [[|]|e] eqn:Heq; try discriminate.
  destruct Hin as [Hin|Hin].
  - inversion Hin; subst. rewrite Hget. discriminate.
  - eapply IH; eauto.
Qed.

(** C8.  [a == b] holds as soon as every entry of [a] has an equal partner
    under the same key in [b].  Keys that only [b] has are never looked at:
    with one more entry in [b], under a key [a] lacks, [a == b] is still
    true while [b == a] is not, so the relation is not symmetric. *)
Theorem eq_is_subset_based :
  forall (h : heap) (a b : DataDict) (k : string) (v : value),
    (forall key item, In (key, item) a ->
       exists o, dict_get key b = Some o /\ py_eq h item o = Ok true) ->
    dict_has k a = false ->
    __eq__ h a b = Ok true
    /\ __eq__ h a (b ++ [(k, v)]) = Ok true
    /\ __eq__ h (b ++ [(k, v)]) a <> Ok true.
Proof.
  intros h a b k v Hsub Hk. unfold __eq__. repeat split.
  - apply eq_items_all. exact Hsub.
  - apply eq_items_all. intros key item Hin.
    destruct (Hsub key item Hin) as (o & Hget & Heq).
    exists o. split; [apply dict_get_app_some; exact Hget|exact Heq].
  - intros Heq.
    apply (eq_items_keys _ _ _ Heq k v).
    + apply in_or_app. right. left. reflexivity.
    + apply dict_has_false. exact Hk.
Qed.

Lemma eq_is_subset_based_witness :
  __eq__ [] [("x", VPy (PInt 1))] [("x", VPy (PInt 1))] = Ok true
  /\ __eq__ [] [("x", VPy (PInt 1))]
            ([("x", VPy (PInt 1))] ++ [("y", VPy (PInt 2))]) = Ok true
  /\ __eq__ [] ([("x", VPy (PInt 1))] ++ [("y", VPy (PInt 2))])
            [("x", VPy (PInt 1))] <> Ok true.
Proof.
  apply (eq_is_subset_based [] [("x", VPy (PInt 1))] [("x", VPy (PInt 1))]
           "y" (VPy (PInt 2))).
  - intros key item [H|[]]. inversion H; subst.
    exists (VPy (PInt 1)). split; reflexivity.
  - reflexivity.
Defined.

(** ** The sweep scenario *)

Lemma length4 {A} (l : list A) :
  length l = 4%nat -> exists a b c d, l = [a; b; c; d].
Proof.
  destruct l as [|a [|b [|c [|d [|e l]]]]]; try discriminate.
  intros _. exists a, b, c, d. reflexivity.
Qed.

(** C4, as the code has it.  In the sweep scenario [_combine_pars()] gives
    the four rows with the columns [x] and [y], [y] being [1] throughout;
    [arrange(reporters=True, parameters=True)] gives four flattened rows
    with the columns [sample_id], [out] and [x]: with [parameters=True]
    only the varying parameters are joined, so the constant [y] is left
    out. *)
Theorem sweep_scenario :
  forall xs outs : list cell,
    length xs = 4%nat -> length outs = 4%nat ->
    let w := sweep_world xs outs in
    let r := sweep_record (PInt 1) in
    (exists dfp,
        _combine_pars r true true w = (Ok (Some (New dfp)), w)
        /\ nrows dfp = 4%nat
        /\ columns dfp = ["x"; "y"]
        /\ column dfp "x" = Some xs
        /\ column dfp "y" = Some (repeat (CVal (PInt 1)) 4))
    /\ (exists df,
           arrange r SelFalse SelTrue SelTrue SelTrue false w
           = (Ok (Some (Fresh df)), w)
           /\ nrows df = 4%nat
           /\ columns df = ["sample_id"; "out"; "x"]
           /\ column df "sample_id" = Some (int_cells [0; 1; 2; 3])
           /\ column df "out" = Some outs
           /\ column df "x" = Some xs).
Proof.
  intros xs outs Hx Ho.
  destruct (length4 _ Hx) as (x0 & x1 & x2 & x3 & ->).
  destruct (length4 _ Ho) as (o0 & o1 & o2 & o3 & ->).
  split.
  - eexists. repeat split; reflexivity.
  - eexists. repeat split; reflexivity.
Qed.

Lemma sweep_scenario_witness :
  exists df,
    arrange (sweep_record (PInt 1)) SelFalse SelTrue SelTrue SelTrue false
            (sweep_world (int_cells [10; 20; 30; 40]) (int_cells [5; 6; 7; 8]))
    = (Ok (Some (Fresh df)),
       sweep_world (int_cells [10; 20; 30; 40]) (int_cells [5; 6; 7; 8]))
    /\ columns df = ["sample_id"; "out"; "x"].
Proof.
  destruct (sweep_scenario (int_cells [10; 20; 30; 40]) (int_cells [5; 6; 7; 8])
              eq_refl eq_refl) as [_ (df & H & _ & Hc & _)].
  exists df. split; [exact H | exact Hc].
Defined.

(** C4, as it was stated, fails in the scenario itself: the table that
    [arrange(reporters=True, parameters=True)] returns has no column [y]. *)
Lemma sweep_scenario_counterexample :
  ~ (exists df,
        arrange (sweep_record (PInt 1)) SelFalse SelTrue SelTrue SelTrue false
                (sweep_world (int_cells [10; 20; 30; 40])
                             (int_cells [5; 6; 7; 8]))
        = (Ok (Some (Fresh df)),
           sweep_world (int_cells [10; 20; 30; 40]) (int_cells [5; 6; 7; 8]))
        /\ nrows df = 4%nat
        /\ (forall c, In c (columns df)
                      <-> In c ["sample_id"; "x"; "y"; "out"])).
Proof.
  intros (df & H & _ & Hcols).
  vm_compute in H. inversion H; subst df. clear H.
  assert (Hy : In "y" ["sample_id"; "out"; "x"]).
  { apply Hcols. right. right. left. reflexivity. }
  cbn in Hy. repeat (destruct Hy as [Hy|Hy]; [discriminate|]). exact Hy.
Qed.

(** ** Well-formed tables and column writes *)

Lemma col_pos_lt k cs i : col_pos k cs = Some i -> (i < length cs)%nat.
Proof.
  revert i. induction cs as [|c cs IH]; intros i; simpl; [discriminate|].
  destruct (String.eqb k c).
  - intros [= <-]. lia.
  - destruct (col_pos k cs) as [j|]; [|discriminate].
    intros [= <-]. specialize (IH j eq_refl). lia.
Qed.

Lemma col_pos_app_new k cs :
  col_pos k cs = None -> col_pos k (cs ++ [k]) = Some (length cs).
Proof.
  induction cs as [|c cs IH]; simpl.
  - intros _. rewrite String.eqb_refl. reflexivity.
  - destruct (String.eqb k c); [discriminate|].
    destruct (col_pos k cs); [discriminate|].
    intros _. rewrite IH; reflexivity.
Qed.

Lemma col_pos_in k cs i : col_pos k cs = Some i -> In k cs.
Proof.
  revert i. induction cs as [|c cs IH]; intros i; simpl; [discriminate|].
  destruct (String.eqb k c) eqn:E.
  - intros _. left. symmetry. apply String.eqb_eq. exact E.
  - destruct (col_pos k cs) as [j|]; [|discriminate].
    intros _. right. eapply IH. reflexivity.
Qed.

Lemma nth_set_nth {A} (i : nat) (x d : A) (l : list A) :
  (i < length l)%nat -> nth i (set_nth i x l) d = x.
Proof.
  revert i. induction l as [|a l IH]; intros [|i] H; simpl in *; try lia.
  - reflexivity.
  - apply IH. lia.
Qed.

Lemma length_set_nth {A} (i : nat) (x : A) (l : list A) :
  length (set_nth i x l) = length l.
Proof.
  revert i. induction l as [|a l IH]; intros [|i]; simpl; auto.
Qed.

Lemma map_combine_values {A B} (g : A * B -> B) (l : list A) (vs : list B) :
  length l = length vs ->
  (forall a b, In a l -> g (a, b) = b) ->
  map g (combine l vs) = vs.
Proof.
  revert vs. induction l as [|a l IH]; intros [|v vs] Hlen Hg;
    simpl in *; try discriminate; [reflexivity|].
  rewrite Hg by (left; reflexivity).
  f_equal. apply IH; [lia|]. intros. apply Hg. right. assumption.
Qed.

Lemma nrows_put_column df k vs :
  length vs = nrows df -> nrows (put_column df k vs) = nrows df.
Proof.
  intros H. unfold put_column, nrows in *.
  destruct (col_pos k (columns df)); simpl;
    rewrite length_map, length_combine; lia.
Qed.

(** After [df[k] = ...] the column [k] holds exactly the cells written. *)
Lemma column_put_column df k vs :
  wf_frame df -> length vs = nrows df ->
  column (put_column df k vs) k = Some vs.
Proof.
  intros Hwf Hlen. unfold column, put_column.
  destruct (col_pos k (columns df)) as [i|] eqn:E; simpl.
  - rewrite E. f_equal. rewrite map_map. apply map_combine_values.
    + symmetry. exact Hlen.
    + intros r b Hin. simpl. apply nth_set_nth.
      rewrite (Hwf r Hin). eapply col_pos_lt. exact E.
  - rewrite (col_pos_app_new _ _ E). f_equal. rewrite map_map.
    apply map_combine_values.
    + symmetry. exact Hlen.
    + intros r b Hin. simpl.
      rewrite app_nth2 by (rewrite (Hwf r Hin); unfold ncols; lia).
      rewrite (Hwf r Hin). unfold ncols. rewrite Nat.sub_diag. reflexivity.
Qed.

(** ** Computations that leave the world alone *)

Lemma keeps_ret {A} (a : A) : keeps_world (ret a).
Proof. intros w. reflexivity. Qed.

Lemma keeps_raise {A} e : keeps_world (@raise A e).
Proof. intros w. reflexivity. Qed.

Lemma keeps_lift {A} (r : result A) : keeps_world (lift r).
Proof. intros w. reflexivity. Qed.

Lemma keeps_bind {A B} (c : M A) (f : A -> M B) :
  keeps_world c -> (forall a, keeps_world (f a)) -> keeps_world (bind c f).
Proof.
  intros Hc Hf w. unfold bind. specialize (Hc w).
  destruct (c w) as [[a|e] w']; simpl in Hc; subst w'.
  - apply Hf.
  - reflexivity.
Qed.

Lemma keeps_deref a : keeps_world (deref a).
Proof. intros w. unfold deref. destruct (nth_error (tables w) a); reflexivity. Qed.

Lemma keeps_read t : keeps_world (read t).
Proof. destruct t; [apply keeps_deref|apply keeps_ret]. Qed.

Lemma keeps_as_table o : keeps_world (as_table o).
Proof.
  destruct o as [[a|d|v]|df]; simpl;
    first [apply keeps_ret | apply keeps_raise].
Qed.

Lemma keeps_mapM {A B} (f : A -> M B) l :
  (forall a, keeps_world (f a)) -> keeps_world (mapM f l).
Proof.
  intros Hf. induction l as [|a l IH]; simpl; [apply keeps_ret|].
  apply keeps_bind; [apply Hf|]. intros b.
  apply keeps_bind; [apply IH|]. intros r. apply keeps_ret.
Qed.

Create HintDb keeps.
#[local] Hint Resolve keeps_ret keeps_raise keeps_lift keeps_deref keeps_read
  keeps_as_table : keeps.

Ltac keeps :=
  repeat first
    [ apply keeps_bind; [|intros ?]
    | apply keeps_mapM; intros ?
    | solve [auto with keeps]
    | match goal with
      | |- keeps_world (if ?b then _ else _) => destruct b
      | |- keeps_world (match ?x with _ => _ end) => destruct x
      end ].
(** ** In-place change of the model table by [_combine_vars] *)

Lemma filterM_pure {A} (p : A -> M bool) (q : A -> bool) l w :
  (forall a, In a l -> p a w = (Ok (q a), w)) ->
  filterM p l w = (Ok (filter q l), w).
Proof.
  induction l as [|a l IH]; intros H; simpl; [reflexivity|].
  erewrite bind_ok by (apply H; left; reflexivity).
  erewrite bind_ok by (apply IH; intros; apply H; right; assumption).
  reflexivity.
Qed.

Lemma dict_get_filter {V} (p : string * V -> bool) k v (l : list (string * V)) :
  dict_get k l = Some v -> p (k, v) = true ->
  dict_get k (filter p l) = Some v.
Proof.
  induction l as [|[k' v'] l IH]; simpl; [discriminate|].
  destruct (String.eqb k k') eqn:E.
  - intros [= ->] Hp. apply String.eqb_eq in E. subst k'.
    rewrite Hp. simpl. rewrite String.eqb_refl. reflexivity.
  - intros Hget Hp. destruct (p (k', v')); simpl; [rewrite E|]; auto.
Qed.

Lemma dict_get_map_values {V W} (f : V -> W) k (l : list (string * V)) :
  dict_get k (map (fun kv => (fst kv, f (snd kv))) l)
  = option_map f (dict_get k l).
Proof.
  induction l as [|[k' v'] l IH]; simpl; [reflexivity|].
  destruct (String.eqb k k'); [reflexivity|exact IH].
Qed.

Lemma any_in_columns_stored keys b t w :
  nth_error (tables w) b = Some t ->
  any_in_columns keys (Obj (VFrame b)) w
  = (Ok (existsb (fun x => str_in x (columns t)) keys), w).
Proof.
  intros H. unfold any_in_columns. destruct keys as [|k keys]; [reflexivity|].
  cbn [as_table]. erewrite bind_ok by reflexivity.
  cbn [read]. erewrite bind_ok by (apply deref_ok; exact H). reflexivity.
Qed.

Lemma snd_bind_keeps {A B} (c : M A) (f : A -> M B) w :
  (forall a, keeps_world (f a)) -> snd (bind c f w) = snd (c w).
Proof.
  intros Hf. unfold bind. destruct (c w) as [[a|e] w1]; simpl; [apply Hf|reflexivity].
Qed.

Lemma setitem_scalar_int df k z :
  setitem df k (CVal (PInt z)) = Ok (put_column df k (repeat (CVal (PInt z)) (nrows df))).
Proof. reflexivity. Qed.

Lemma nth_error_set_nth {A} (i : nat) (x y : A) (l : list A) :
  nth_error l i = Some x -> nth_error (set_nth i y l) i = Some y.
Proof.
  revert i. induction l as [|a l IH]; intros [|i]; simpl; try discriminate; auto.
Qed.

Lemma nth_error_set_nth_other {A} (i j : nat) (y : A) (l : list A) :
  i <> j -> nth_error (set_nth i y l) j = nth_error l j.
Proof.
  revert i j. induction l as [|a l IH]; intros [|i] [|j] H; simpl;
    try reflexivity; try congruence.
  apply IH. congruence.
Qed.

(** C9, as the code has it.  When the [variables] section is a nested
    record of stored tables with more than one child, one of them keyed by
    [log.model_type], and that child passes the [var_keys] and [obj_types]
    filters (as it does with the default arguments), [_combine_vars] writes
    into the stored table itself: after the call, whether it returned or
    raised, the object at the child's address has the column [obj_id] with
    [0] in every row.  No other table and nothing on disk is changed. *)
Theorem combine_vars_mutates_model_table :
  forall (self : DataDict) (d : list (string * value))
         (log : list (string * pyval)) (mt : string) (a : addr)
         (df : DataFrame) (obj_types var_keys : selector) (w : world),
    dict_get "variables" self = Some (VData d) ->
    (1 < length d)%nat ->
    dict_get "log" self = Some (VPy (PDict log)) ->
    dict_get "model_type" log = Some (PStr mt) ->
    dict_get mt d = Some (VFrame a) ->
    nth_error (tables w) a = Some df ->
    wf_frame df ->
    (forall k v, In (k, v) d ->
       exists b t, v = VFrame b /\ nth_error (tables w) b = Some t) ->
    (var_keys = SelTrue
     \/ existsb (fun x => str_in x (columns df)) (make_list var_keys) = true) ->
    (obj_types = SelTrue \/ str_in mt (make_list obj_types) = true) ->
    let w' := snd (_combine_vars self obj_types var_keys w) in
    exists df',
      nth_error (tables w') a = Some df'
      /\ nrows df' = nrows df
      /\ column df' "obj_id" = Some (repeat (CVal (PInt 0)) (nrows df))
      /\ (forall b, b <> a -> nth_error (tables w') b = nth_error (tables w) b)
      /\ files w' = files w.
Proof.
  intros self d log mt a df obj_types var_keys w
         Hvars Hlen Hlog Hmt Hchild Hdf Hwf Hall Hvk Hot w'.
  set (df' := put_column df "obj_id" (repeat (CVal (PInt 0)) (nrows df))).
  exists df'.
  assert (Hw' : w' = {| tables := set_nth a df' (tables w); files := files w |}).
  { subst w'. unfold _combine_vars. rewrite Hvars.
    destruct d as [|e1 [|e2 d]]; simpl in Hlen; try lia.
    set (dd := e1 :: e2 :: d) in *.
    destruct e1 as [k1 v1].
    change (snd (combine_vars_dict self
                   (map (fun kv => (fst kv, Obj (snd kv))) dd)
                   obj_types var_keys w) = {| tables := set_nth a df' (tables w); files := files w |}).
    unfold combine_vars_dict.
    set (l0 := map (fun kv => (fst kv, Obj (snd kv))) dd).
    assert (Hl0 : dict_get mt l0 = Some (Obj (VFrame a))).
    { unfold l0. rewrite dict_get_map_values, Hchild. reflexivity. }
    assert (Hstage1 : exists l1,
      (if is_True var_keys then ret l0
       else filterM (fun kv => any_in_columns (make_list var_keys) (snd kv)) l0) w
      = (Ok l1, w) /\ dict_get mt l1 = Some (Obj (VFrame a))).
    { destruct Hvk as [->|Hvk].
      - exists l0. split; [reflexivity|exact Hl0].
      - destruct (is_True var_keys).
        + exists l0. split; [reflexivity|exact Hl0].
        + exists (filter (var_key_test (tables w) (make_list var_keys)) l0).
          split.
          * apply filterM_pure. intros [k o] Hin. unfold l0 in Hin.
            apply in_map_iff in Hin. destruct Hin as ([k0 v0] & Heq & Hin).
            inversion Heq; subst. simpl.
            destruct (Hall _ _ Hin) as (b & t & -> & Ht).
            rewrite (any_in_columns_stored _ _ _ _ Ht).
            unfold var_key_test. simpl. rewrite Ht. reflexivity.
          * apply dict_get_filter; [exact Hl0|].
            unfold var_key_test. simpl. rewrite Hdf. exact Hvk. }
    destruct Hstage1 as (l1 & Hrun1 & Hl1).
    erewrite bind_ok by exact Hrun1.
    set (l2 := if is_True obj_types then l1
               else filter (fun kv => str_in (fst kv) (make_list obj_types)) l1).
    assert (Hl2 : dict_get mt l2 = Some (Obj (VFrame a))).
    { unfold l2. destruct Hot as [->|Hot]; [exact Hl1|].
      destruct (is_True obj_types); [exact Hl1|].
      apply dict_get_filter; [exact Hl1|exact Hot]. }
    unfold getattr. rewrite Hlog.
    erewrite bind_ok by reflexivity.
    cbn [getitem]. rewrite Hmt.
    erewrite bind_ok by reflexivity.
    cbv beta iota. rewrite Hl2.
    rewrite snd_bind_keeps by (intros; keeps).
    cbn [as_table]. erewrite bind_ok by reflexivity.
    cbn [read]. erewrite bind_ok by (apply deref_ok; exact Hdf).
    rewrite setitem_scalar_int. fold df'.
    erewrite bind_ok by reflexivity.
    erewrite bind_ok by reflexivity.
    rewrite snd_bind_keeps by (intros; keeps).
    reflexivity. }
  rewrite Hw'. cbn [tables files].
  assert (Hn : length (repeat (CVal (PInt 0)) (nrows df)) = nrows df)
    by apply repeat_length.
  repeat split.
  - eapply nth_error_set_nth. exact Hdf.
  - apply nrows_put_column. exact Hn.
  - apply column_put_column; assumption.
  - intros b Hb. apply nth_error_set_nth_other. congruence.
Qed.

Lemma combine_vars_mutates_model_table_witness :
  exists df',
    nth_error (tables (snd (_combine_vars two_type_record SelTrue SelTrue
                                          two_type_world))) 0
    = Some df'
    /\ column df' "obj_id" = Some (repeat (CVal (PInt 0)) 2).
Proof.
  destruct (combine_vars_mutates_model_table
              two_type_record
              [("Model", VFrame 0%nat); ("agent", VFrame 1%nat)]
              [("model_type", PStr "Model")] "Model" 0%nat model_table
              SelTrue SelTrue two_type_world)
    as (df' & H1 & _ & H2 & _).
  - reflexivity.
  - simpl. lia.
  - reflexivity.
  - reflexivity.
  - reflexivity.
  - reflexivity.
  - intros r [<-|[<-|[]]]; reflexivity.
  - intros k v [H|[H|[]]]; inversion H; subst; eexists; eexists;
      (split; [reflexivity|reflexivity]).
  - left. reflexivity.
  - left. reflexivity.
  - exists df'. split; [exact H1|exact H2].
Defined.

(** C9, as it was stated, fails when the filters drop the model's table:
    the record below has two children, one keyed by [log.model_type], and a
    call that selects the agent type only leaves the stored model table
    without any [obj_id] column. *)
Lemma combine_vars_mutation_counterexample :
  dict_get "variables" two_type_record
  = Some (VData [("Model", VFrame 0%nat); ("agent", VFrame 1%nat)])
  /\ exists df,
       nth_error (tables (snd (_combine_vars two_type_record
                                 (SelKeys ["agent"]) SelTrue two_type_world))) 0
       = Some df
       /\ column df "obj_id" = None.
Proof.
  split; [reflexivity|]. exists model_table. split; reflexivity.
Qed.

(** ** Strings and paths *)

Lemma split_char_nonempty c s : split_char c s <> [].
Proof.
  induction s as [|a s IH]; simpl; [discriminate|].
  destruct (Ascii.eqb a c); [discriminate|].
  destruct (split_char c s); discriminate.
Qed.

Lemma split_char_app c s t :
  split_char c (s ++ String c t) = split_char c s ++ split_char c t.
Proof.
  induction s as [|a s IH]; simpl.
  - rewrite Ascii.eqb_refl. reflexivity.
  - destruct (Ascii.eqb a c); [rewrite IH; reflexivity|].
    rewrite IH.
    destruct (split_char c s) as [|x xs] eqn:E; [|reflexivity].
    exfalso. eapply split_char_nonempty. exact E.
Qed.

Lemma split_char_free c s : free_of c s = true -> split_char c s = [s].
Proof.
  induction s as [|a s IH]; simpl; [reflexivity|].
  destruct (Ascii.eqb a c); simpl; [discriminate|].
  intros H. rewrite (IH H). reflexivity.
Qed.

Lemma free_of_app c s t :
  free_of c (s ++ t) = free_of c s && free_of c t.
Proof.
  induction s as [|a s IH]; simpl; [reflexivity|].
  rewrite IH. rewrite andb_assoc. reflexivity.
Qed.

Lemma parse_path_app s t :
  parse_path (s ++ String "/" t) = parse_path s ++ parse_path t.
Proof.
  unfold parse_path. rewrite split_char_app. apply filter_app.
Qed.

Lemma parse_path_plain s : plain_name s = true -> parse_path s = [s].
Proof.
  unfold plain_name, parse_path. intros H.
  apply andb_prop in H. destruct H as [Hf Hn].
  rewrite (split_char_free _ _ Hf). simpl. rewrite Hn. reflexivity.
Qed.

Lemma entry_name_plain s : entry_name s = true -> plain_name s = true.
Proof. unfold entry_name. intros H. apply andb_prop in H. apply H. Qed.

Lemma prefix_app s t : String.prefix s (s ++ t) = true.
Proof.
  induction s as [|a s IH]; simpl.
  - destruct t; reflexivity.
  - destruct (ascii_dec a a); [exact IH|congruence].
Qed.

Lemma is_substring_prefix sub s :
  String.prefix sub s = true -> is_substring sub s = true.
Proof. intros H. destruct s; cbn [is_substring]; rewrite H; reflexivity. Qed.

Lemma is_substring_app s t : is_substring s (s ++ t) = true.
Proof. apply is_substring_prefix, prefix_app. Qed.




Lemma string_app_inj s t u : (s ++ t = s ++ u)%string -> t = u.
Proof.
  induction s as [|a s IH]; simpl; [auto|].
  intros [= H]. auto.
Qed.

Lemma last_segment s t :
  free_of "_" t = true ->
  last_str (split_char "_" (s ++ String "_" t)) = t.
Proof.
  intros H. rewrite split_char_app, (split_char_free _ _ H).
  unfold last_str. apply last_last.
Qed.

Lemma plain_name_suffixed s t :
  free_of "/" s = true -> free_of "/" t = true ->
  plain_name (s ++ String "_" t) = true.
Proof.
  intros Hs Ht. unfold plain_name.
  rewrite free_of_app, Hs. cbn [free_of andb]. rewrite Ht.
  destruct s as [|a [|b s]]; cbn [append String.eqb];
    try reflexivity;
    destruct (Ascii.eqb a "."); reflexivity.
Qed.

(** ** Facts about the disk *)

Lemma list_eqb_string_eq (p q : list string) :
  path_eqb p q = true <-> p = q.
Proof.
  unfold path_eqb. revert q.
  induction p as [|a p IH]; intros [|b q]; simpl; split;
    try discriminate; try reflexivity.
  - intros H. apply andb_prop in H. destruct H as [H1 H2].
    apply String.eqb_eq in H1. apply IH in H2. congruence.
  - intros [= -> ->]. rewrite String.eqb_refl. simpl. apply IH. reflexivity.
Qed.

Lemma path_eqb_refl p : path_eqb p p = true.
Proof. apply list_eqb_string_eq. reflexivity. Qed.

Lemma disk_get_in p d n : disk_get p d = Some n -> In (p, n) d.
Proof.
  induction d as [|[q m] d IH]; simpl; [discriminate|].
  destruct (path_eqb p q) eqn:E.
  - intros [= ->]. apply list_eqb_string_eq in E. subst. left. reflexivity.
  - intros H. right. apply IH. exact H.
Qed.

Lemma disk_get_none p d : disk_get p d = None <-> forall n, ~ In (p, n) d.
Proof.
  induction d as [|[q m] d IH]; simpl.
  - split; [intros _ n []|reflexivity].
  - destruct (path_eqb p q) eqn:E.
    + apply list_eqb_string_eq in E. subst q. split; [discriminate|].
      intros H. exfalso. apply (H m). left. reflexivity.
    + split.
      * intros H n [Hin|Hin].
        -- inversion Hin; subst. rewrite path_eqb_refl in E. discriminate.
        -- destruct IH as [IH1 _]. apply (IH1 H n Hin).
      * intros H. destruct IH as [_ IH2]. apply IH2.
        intros n Hin. apply (H n). right. exact Hin.
Qed.

Lemma disk_get_app p d e :
  disk_get p (d ++ e)
  = match disk_get p d with Some n => Some n | None => disk_get p e end.
Proof.
  induction d as [|[q m] d IH]; simpl; [reflexivity|].
  destruct (path_eqb p q); [reflexivity|exact IH].
Qed.

Lemma disk_set_absent p n d :
  disk_get p d = None -> disk_set p n d = d ++ [(p, n)].
Proof.
  induction d as [|[q m] d IH]; simpl; [reflexivity|].
  destruct (path_eqb p q); [discriminate|].
  intros H. rewrite (IH H). reflexivity.
Qed.

Lemma strip_prefix_app p q : strip_prefix p (p ++ q) = Some q.
Proof.
  induction p as [|a p IH]; simpl; [reflexivity|].
  rewrite String.eqb_refl. exact IH.
Qed.

Lemma strip_prefix_some p q r : strip_prefix p q = Some r -> q = p ++ r.
Proof.
  revert q. induction p as [|a p IH]; intros q; simpl.
  - intros [= ->]. reflexivity.
  - destruct q as [|b q]; [discriminate|].
    destruct (String.eqb a b) eqn:E; [|discriminate].
    apply String.eqb_eq in E. subst b. intros H. rewrite (IH _ H). reflexivity.
Qed.

(** The names under [p] are the last components of the entries one level
    below [p]. *)
Lemma in_children p d n :
  In n (children p d) <-> exists x, In (p ++ [n], x) d.
Proof.
  unfold children. rewrite in_flat_map. split.
  - intros ([q x] & Hin & H). simpl in H.
    destruct (strip_prefix p q) as [[|m [|m' r]]|] eqn:E; simpl in H;
      try contradiction.
    destruct H as [<-|[]]. apply strip_prefix_some in E. subst q.
    exists x. exact Hin.
  - intros (x & Hin). exists (p ++ [n], x). split; [exact Hin|].
    simpl. rewrite strip_prefix_app. left. reflexivity.
Qed.

Lemma children_app p d e : children p (d ++ e) = children p d ++ children p e.
Proof. unfold children. apply flat_map_app. Qed.

Lemma fold_max_ge l : forall a, a <= fold_left Z.max l a.
Proof.
  induction l as [|b l IH]; intros a; simpl; [lia|].
  specialize (IH (Z.max a b)). lia.
Qed.

Lemma fold_max_upper l : forall a z, In z l -> z <= fold_left Z.max l a.
Proof.
  induction l as [|b l IH]; intros a z; simpl; [intros []|].
  intros [->|Hin].
  - pose proof (fold_max_ge l (Z.max a z)). lia.
  - apply IH. exact Hin.
Qed.

Lemma fold_max_in l : forall a, In (fold_left Z.max l a) (a :: l).
Proof.
  induction l as [|b l IH]; intros a; simpl; [left; reflexivity|].
  destruct (IH (Z.max a b)) as [H|H].
  - rewrite <- H.
    destruct (Z.max_spec a b) as [[_ E]|[_ E]]; rewrite E;
      [right; left|left]; reflexivity.
  - right. right. exact H.
Qed.

(** [max] returns an element of the list that bounds all of them. *)
Lemma py_max_spec ids :
  ids <> [] -> In (py_max ids) ids /\ forall z, In z ids -> z <= py_max ids.
Proof.
  destruct ids as [|i ids]; [congruence|]. intros _. unfold py_max. split.
  - apply fold_max_in.
  - intros z [<-|Hin]; [apply fold_max_ge|apply fold_max_upper; exact Hin].
Qed.

Lemma bind_lift {A B} (r : result A) (f : A -> M B) w :
  bind (lift r) f w
  = match r with Ok a => f a w | Raise e => (Raise e, w) end.
Proof. destruct r; reflexivity. Qed.

Lemma mapM_lift_all {A B} (f : A -> result B) l w :
  (forall s, In s l -> exists z, f s = Ok z) ->
  exists ids, mapM (fun s => lift (f s)) l w = (Ok ids, w)
              /\ Forall2 (fun s z => f s = Ok z) l ids.
Proof.
  induction l as [|a l IH]; intros H; simpl.
  - exists []. split; [reflexivity|constructor].
  - destruct (H a (or_introl eq_refl)) as (z & Hz).
    destruct IH as (ids & Hrun & Hall); [intros; apply H; right; assumption|].
    exists (z :: ids). split.
    + rewrite bind_lift, Hz.
      erewrite bind_ok by exact Hrun. reflexivity.
    + constructor; assumption.
Qed.


Lemma parsed_back {A B} (f : A -> result B) l ids :
  Forall2 (fun s z => f s = Ok z) l ids ->
  forall z, In z ids -> exists x, In x l /\ f x = Ok z.
Proof.
  induction 1 as [|x z0 l ids Hx Hall IH]; intros z Hz; [destruct Hz|].
  destruct Hz as [<-|Hz].
  - exists x. split; [left; reflexivity|exact Hx].
  - destruct (IH z Hz) as (x' & Hx' & Hid).
    exists x'. split; [right; exact Hx'|exact Hid].
Qed.

Lemma parsed_forth {A B} (f : A -> result B) l ids :
  Forall2 (fun s z => f s = Ok z) l ids ->
  forall x z, In x l -> f x = Ok z -> In z ids.
Proof.
  induction 1 as [|x0 z0 l ids Hx Hall IH]; intros x z Hin Hz; [destruct Hin|].
  destruct Hin as [->|Hin].
  - left. congruence.
  - right. eapply IH; eassumption.
Qed.

Lemma filter_perm {A} (f : A -> bool) (l m : list A) :
  Permutation l m -> Permutation (filter f l) (filter f m).
Proof.
  induction 1; simpl.
  - constructor.
  - destruct (f x); [constructor|]; assumption.
  - destruct (f x), (f y); try constructor; try apply Permutation_refl.
  - eapply Permutation_trans; eassumption.
Qed.

Section PersistenceFacts.

Variable scan : list string -> list string.
Variable getmtime : string -> Z.
Variable reparse : list (list cell) -> list (list cell).

Hypothesis scan_perm : forall l, Permutation (scan l) l.

Lemma scan_in x l : In x (scan l) <-> In x l.
Proof.
  split; apply Permutation_in; [|apply Permutation_sym]; apply scan_perm.
Qed.



Lemma listdir_ok path w :
  is_dir (parse_path path) (files w) = true ->
  listdir scan path w = (Ok (scan (children (parse_path path) (files w))), w).
Proof.
  intros H. unfold listdir, get_files, bind. rewrite H. reflexivity.
Qed.

Lemma str_in_iff x l : str_in x l = true <-> In x l.
Proof.
  unfold str_in. rewrite existsb_exists. split.
  - intros (y & Hin & E). apply String.eqb_eq in E. subst. exact Hin.
  - intros H. exists x. split; [exact H|apply String.eqb_refl].
Qed.

Lemma filter_none {A} (f : A -> bool) l :
  (forall x, In x l -> f x = false) -> filter f l = [].
Proof.
  induction l as [|a l IH]; intros H; simpl; [reflexivity|].
  rewrite (H a (or_introl eq_refl)). apply IH. intros. apply H. right. assumption.
Qed.

(** The names that [_last_exp_id] keeps are those of the directory that
    contain the experiment name. *)
Lemma kept_names name p d s :
  In s (filter (fun s => is_substring name s) (scan (children p d)))
  <-> In s (children p d) /\ is_substring name s = true.
Proof. rewrite filter_In, scan_in. reflexivity. Qed.

Lemma last_exp_id_none name path w :
  is_dir (parse_path path) (files w) = true ->
  (forall s, In s (children (parse_path path) (files w)) ->
             is_substring name s = false) ->
  _last_exp_id scan name path w = (Ok 0, w).
Proof.
  intros Hdir Hnone. unfold _last_exp_id.
  rewrite (bind_ok _ _ _ _ _ (listdir_ok _ _ Hdir)).
  rewrite filter_none; [reflexivity|].
  intros x Hx. apply Hnone. apply scan_in. exact Hx.
Qed.

Lemma last_exp_id_some name path w :
  is_dir (parse_path path) (files w) = true ->
  forall s0,
    In s0 (children (parse_path path) (files w)) ->
    is_substring name s0 = true ->
    (forall s, In s (children (parse_path path) (files w)) ->
               is_substring name s = true -> exists z, suffix_id s = Ok z) ->
    exists ids,
      _last_exp_id scan name path w = (Ok (py_max ids), w)
      /\ ids <> []
      /\ Forall2 (fun s z => suffix_id s = Ok z)
                 (filter (fun s => is_substring name s)
                         (scan (children (parse_path path) (files w)))) ids.
Proof.
  intros Hdir s0 Hs0 Hm0 Hints. unfold _last_exp_id.
  rewrite (bind_ok _ _ _ _ _ (listdir_ok _ _ Hdir)).
  destruct (filter (fun s => is_substring name s)
                   (scan (children (parse_path path) (files w))))
    as [|s l] eqn:E.
  { exfalso. assert (H : In s0 []); [|destruct H].
    rewrite <- E. apply kept_names. split; assumption. }
  destruct (mapM_lift_all suffix_id (s :: l) w) as (ids & Hrun & Hall).
  { intros x Hx. rewrite <- E in Hx. apply kept_names in Hx.
    destruct Hx. apply Hints; assumption. }
  exists ids. unfold suffix_id in Hrun. rewrite (bind_ok _ _ _ _ _ Hrun).
  split; [reflexivity|]. split; [inversion Hall; discriminate|exact Hall].
Qed.



(** ** Saving into a fresh directory *)

Lemma listed_dir path w :
  plain_name path = true ->
  is_dir [path] (files w) = true ->
  str_in path (scan (children [] (files w))) = true.
Proof.
  intros Hp Hd. apply str_in_iff, scan_in, in_children.
  unfold is_dir in Hd.
  destruct (disk_get [path] (files w)) as [[|c]|] eqn:E; try discriminate.
  exists Dir. apply disk_get_in. exact E.
Qed.

Lemma unlisted_path path w :
  disk_get [path] (files w) = None ->
  str_in path (scan (children [] (files w))) = false.
Proof.
  intros Hn. destruct (str_in path (scan (children [] (files w)))) eqn:E;
    [|reflexivity].
  apply str_in_iff, scan_in, in_children in E. destruct E as (x & Hin).
  exfalso. eapply disk_get_none; eassumption.
Qed.

(** A save that finds its base directory and the id [m] as the last one
    in use makes the directory with the next id and writes the table
    there. *)
Lemma save_step (a : addr) (df : DataFrame) (name path : string) (m : Z)
  (w : world) :
  let exp := replace " " "_" name in
  let e := (exp ++ "_" ++ string_of_Z (m + 1))%string in
  nth_error (tables w) a = Some df ->
  plain_name path = true ->
  free_of "/" exp = true ->
  free_of "/" (string_of_Z (m + 1)) = true ->
  is_dir [path] (files w) = true ->
  _last_exp_id scan exp path w = (Ok m, w) ->
  disk_get [path; e] (files w) = None ->
  disk_get [path; e; "reporters.csv"] (files w) = None ->
  save scan [("reporters", VFrame a)] (Some name) None path w
  = (Ok tt, with_files w [ ([path; e], Dir);
                           ([path; e; "reporters.csv"], File (to_csv df)) ]).
Proof.
  intros exp e Hdf Hp Hexp Hid Hdir Hlast Hnew Hfile.
  assert (He : plain_name e = true) by (apply plain_name_suffixed; assumption).
  assert (Hpe : parse_path (path ++ "/" ++ exp ++ "_" ++ string_of_Z (m + 1))
                = [path; e]).
  { cbn [append]. rewrite parse_path_app, (parse_path_plain _ Hp).
    change (exp ++ String "_" (string_of_Z (m + 1)))%string with e.
    rewrite (parse_path_plain _ He). reflexivity. }
  assert (Hpf : parse_path ((path ++ "/" ++ exp ++ "_" ++ string_of_Z (m + 1))
                            ++ "/" ++ "reporters" ++ ".csv")
                = [path; e; "reporters.csv"]).
  { cbn [append]. rewrite parse_path_app.
    change (parse_path (path ++ String "/" (exp ++ String "_" (string_of_Z (m + 1)))))
      with (parse_path (path ++ "/" ++ exp ++ "_" ++ string_of_Z (m + 1))).
    rewrite Hpe. reflexivity. }
  unfold save.
  erewrite bind_ok by (apply listdir_ok; reflexivity).
  change (parse_path ".") with (@nil string).
  rewrite (listed_dir _ _ Hp Hdir).
  erewrite bind_ok by reflexivity.
  erewrite bind_ok by reflexivity.
  fold exp.
  erewrite bind_ok by (erewrite bind_ok by exact Hlast; reflexivity).
  (* the experiment directory *)
  assert (Hmk : makedirs (path ++ "/" ++ exp ++ "_" ++ string_of_Z (m + 1)) w
                = (Ok tt, with_files w [([path; e], Dir)])).
  { unfold makedirs, get_files, bind. rewrite Hpe.
    unfold exists_path. rewrite Hnew.
    cbn [prefixes length seq map firstn make_each].
    unfold is_dir in Hdir.
    destruct (disk_get [path] (files w)) as [[|c]|]; try discriminate.
    rewrite Hnew. reflexivity. }
  erewrite bind_ok by exact Hmk.
  (* the table *)
  assert (Hwr : mapM (save_entry (path ++ "/" ++ exp ++ "_" ++ string_of_Z (m + 1)))
                     [("reporters", VFrame a)] (with_files w [([path; e], Dir)])
                = (Ok [tt], with_files w [ ([path; e], Dir);
                            ([path; e; "reporters.csv"], File (to_csv df)) ])).
  { cbn [mapM save_entry].
    erewrite bind_ok.
    2:{ erewrite bind_ok by (apply deref_ok; exact Hdf).
        unfold write_file, get_files, bind. rewrite Hpf.
        cbn [removelast with_files files tables].
        unfold is_dir. rewrite disk_get_app, Hnew.
        cbn [disk_get]. rewrite path_eqb_refl. cbn [negb].
        rewrite disk_get_app, Hfile. cbn [disk_get].
        replace (path_eqb [path; e; "reporters.csv"] [path; e]) with false.
        2:{ symmetry. destruct (path_eqb _ _) eqn:E; [|reflexivity].
            apply list_eqb_string_eq in E. discriminate. }
        unfold set_files. rewrite disk_set_absent.
        2:{ rewrite disk_get_app, Hfile. cbn [disk_get].
            destruct (path_eqb _ _) eqn:E; [|reflexivity].
            apply list_eqb_string_eq in E. discriminate. }
        reflexivity. }
    erewrite bind_ok by reflexivity.
    unfold with_files. cbn [ret tables files]. rewrite <- app_assoc. reflexivity. }
  erewrite bind_ok by exact Hwr.
  reflexivity.
Qed.

Lemma path_eqb_false p q : p <> q -> path_eqb p q = false.
Proof.
  intros H. destruct (path_eqb p q) eqn:E; [|reflexivity].
  apply list_eqb_string_eq in E. contradiction.
Qed.

Lemma save_makes_base (self : DataDict) (name : option string)
  (id : option Z) (path : string) (w : world) :
  plain_name path = true ->
  disk_get [path] (files w) = None ->
  save scan self name id path w
  = save scan self name id path (with_files w [([path], Dir)]).
Proof.
  intros Hp Hn. unfold save.
  erewrite bind_ok by (apply listdir_ok; reflexivity).
  erewrite (bind_ok (listdir scan ".")) by (apply listdir_ok; reflexivity).
  change (parse_path ".") with (@nil string).
  rewrite (unlisted_path _ _ Hn).
  rewrite (listed_dir path (with_files w [([path], Dir)]) Hp).
  2:{ unfold is_dir, with_files. cbn [files]. rewrite disk_get_app, Hn.
      cbn [disk_get]. rewrite path_eqb_refl. reflexivity. }
  assert (Hmk : makedirs path w = (Ok tt, with_files w [([path], Dir)])).
  { unfold makedirs, get_files, bind. rewrite (parse_path_plain _ Hp).
    unfold exists_path. rewrite Hn.
    cbn [prefixes length seq map firstn make_each]. rewrite Hn. reflexivity. }
  erewrite bind_ok by exact Hmk.
  erewrite (bind_ok (ret tt)) by reflexivity.
  reflexivity.
Qed.

Lemma filter_scan_last (f : string -> bool) cs x :
  (forall c, In c cs -> f c = false) -> f x = true ->
  filter f (scan (cs ++ [x])) = [x].
Proof.
  intros Hcs Hx. apply Permutation_length_1_inv.
  apply Permutation_sym.
  eapply Permutation_trans; [apply filter_perm, scan_perm|].
  rewrite filter_app, (filter_none _ _ Hcs). simpl. rewrite Hx.
  apply Permutation_refl.
Qed.

(** Two saves in a row into a directory where no name contains the
    experiment name. *)
Lemma save_twice (a : addr) (df : DataFrame) (name path : string) (w : world) :
  let exp := replace " " "_" name in
  let e1 := (exp ++ "_1")%string in
  let e2 := (exp ++ "_2")%string in
  let w1 := with_files w [ ([path; e1], Dir);
                           ([path; e1; "reporters.csv"], File (to_csv df)) ] in
  let w2 := with_files w1 [ ([path; e2], Dir);
                            ([path; e2; "reporters.csv"], File (to_csv df)) ] in
  nth_error (tables w) a = Some df ->
  plain_name path = true ->
  free_of "/" exp = true ->
  is_dir [path] (files w) = true ->
  (forall n, In n (children [path] (files w)) -> is_substring exp n = false) ->
  (forall e f n, In ([path; e; f], n) (files w) ->
                 In e (children [path] (files w))) ->
  save scan [("reporters", VFrame a)] (Some name) None path w = (Ok tt, w1)
  /\ save scan [("reporters", VFrame a)] (Some name) None path w1 = (Ok tt, w2)
  /\ disk_get [path; e1] (files w1) = Some Dir
  /\ disk_get [path; e1; "reporters.csv"] (files w1) = Some (File (to_csv df))
  /\ disk_get [path; e2] (files w2) = Some Dir
  /\ disk_get [path; e2; "reporters.csv"] (files w2) = Some (File (to_csv df)).
Proof.
  intros exp e1 e2 w1 w2 Hdf Hp Hexp Hdir Hfresh Hsub.
  assert (Hno : forall t, ~ In (exp ++ t)%string (children [path] (files w))).
  { intros t Hin. apply Hfresh in Hin. rewrite is_substring_app in Hin.
    discriminate. }
  assert (Hdir_none : forall t, disk_get [path; (exp ++ t)%string] (files w) = None).
  { intros t. apply disk_get_none. intros n Hin.
    apply (Hno t). apply in_children. exists n. exact Hin. }
  assert (Hfile_none : forall t f,
             disk_get [path; (exp ++ t)%string; f] (files w) = None).
  { intros t f. apply disk_get_none. intros n Hin.
    apply (Hno t). eapply Hsub. exact Hin. }
  split; [|split; [|split; [|split; [|split]]]].
  - pose proof (save_step a df name path 0 w Hdf Hp Hexp eq_refl Hdir) as S.
    cbv zeta in S. apply S.
    + apply last_exp_id_none.
      * rewrite (parse_path_plain _ Hp). exact Hdir.
      * rewrite (parse_path_plain _ Hp). exact Hfresh.
    + apply Hdir_none.
    + apply Hfile_none.
  - assert (Hdir1 : is_dir [path] (files w1) = true).
    { unfold is_dir in *. unfold w1, with_files. cbn [files].
      rewrite disk_get_app.
      destruct (disk_get [path] (files w)) as [[|c]|]; try discriminate.
      reflexivity. }
    assert (Hch : children [path] (files w1)
                  = children [path] (files w) ++ [e1]).
    { unfold w1, with_files. cbn [files]. rewrite children_app. f_equal.
      unfold children. cbn [flat_map fst strip_prefix].
      rewrite String.eqb_refl. reflexivity. }
    pose proof (save_step a df name path 1 w1 Hdf Hp Hexp eq_refl Hdir1) as S.
    cbv zeta in S. apply S.
    + unfold _last_exp_id.
      erewrite bind_ok by (apply listdir_ok; rewrite (parse_path_plain _ Hp);
                           exact Hdir1).
      rewrite (parse_path_plain _ Hp), Hch. fold exp. unfold e1.
      rewrite (filter_scan_last (fun s => is_substring exp s) _ _ Hfresh
                 (is_substring_app exp "_1")).
      cbn [mapM].
      change (exp ++ "_1")%string with (exp ++ String "_" "1")%string.
      rewrite (last_segment exp "1" eq_refl). reflexivity.
    + apply disk_get_none. intros n Hin.
      unfold w1, with_files in Hin. cbn [files] in Hin.
      apply in_app_or in Hin. destruct Hin as [Hin|[Hin|[Hin|[]]]].
      * eapply disk_get_none; [apply (Hdir_none "_2")|exact Hin].
      * inversion Hin as [[E]]. apply string_app_inj in E. discriminate.
      * discriminate.
    + apply disk_get_none. intros n Hin.
      unfold w1, with_files in Hin. cbn [files] in Hin.
      apply in_app_or in Hin. destruct Hin as [Hin|[Hin|[Hin|[]]]].
      * eapply disk_get_none; [apply (Hfile_none "_2")|exact Hin].
      * discriminate.
      * inversion Hin as [[E]]. apply string_app_inj in E. discriminate.
  - unfold w1, e1, with_files. cbn [files].
    rewrite disk_get_app, (Hdir_none "_1"). cbn [disk_get].
    rewrite path_eqb_refl. reflexivity.
  - unfold w1, e1, with_files. cbn [files].
    rewrite disk_get_app, (Hfile_none "_1"). cbn [disk_get].
    rewrite path_eqb_false by discriminate.
    rewrite path_eqb_refl. reflexivity.
  - unfold w2, w1, e1, e2, with_files. cbn [files].
    rewrite !disk_get_app, (Hdir_none "_2"). cbn [disk_get].
    rewrite path_eqb_false
      by (intros [= E]; apply string_app_inj in E; discriminate).
    rewrite path_eqb_false by discriminate.
    rewrite path_eqb_refl. reflexivity.
  - unfold w2, w1, e1, e2, with_files. cbn [files].
    rewrite !disk_get_app, (Hfile_none "_2"). cbn [disk_get].
    rewrite path_eqb_false by discriminate.
    rewrite path_eqb_false
      by (intros [= E]; apply string_app_inj in E; discriminate).
    rewrite path_eqb_false by discriminate.
    rewrite path_eqb_refl. reflexivity.
Qed.

(** C7, as the code has it.  Let the experiment name be taken with its
    blanks replaced by underscores, let the path be the name of an entry
    of the working directory (one component, neither [.] nor [..]; the
    directory is there already or not), and let no name in that directory
    contain the experiment name.  Then saving a record with the one table
    [reporters] makes [{path}/{name}_1/] with [reporters.csv] in it, and
    saving it once more makes [{path}/{name}_2/] with the same file. *)
Theorem save_fresh_sequence :
  forall (a : addr) (df : DataFrame) (name path : string) (w : world),
    let exp := replace " " "_" name in
    nth_error (tables w) a = Some df ->
    entry_name path = true ->
    free_of "/" exp = true ->
    wf_disk (files w) ->
    (is_dir [path] (files w) = true \/ disk_get [path] (files w) = None) ->
    (forall n, In n (children [path] (files w)) ->
               is_substring exp n = false) ->
    exists w1 w2,
      save scan [("reporters", VFrame a)] (Some name) None path w = (Ok tt, w1)
      /\ is_dir [path; (exp ++ "_1")%string] (files w1) = true
      /\ disk_get [path; (exp ++ "_1")%string; "reporters.csv"] (files w1)
         = Some (File (to_csv df))
      /\ save scan [("reporters", VFrame a)] (Some name) None path w1
         = (Ok tt, w2)
      /\ is_dir [path; (exp ++ "_2")%string] (files w2) = true
      /\ disk_get [path; (exp ++ "_2")%string; "reporters.csv"] (files w2)
         = Some (File (to_csv df)).
Proof.
  intros a df name path w exp Hdf Hentry Hexp Hwf Hbase Hfresh.
  assert (Hp := entry_name_plain _ Hentry).
  assert (Hsub : forall e f n, In ([path; e; f], n) (files w) ->
                               In e (children [path] (files w))).
  { intros e f n Hin. apply Hwf in Hin. cbn [removelast] in Hin.
    unfold is_dir in Hin.
    destruct (disk_get [path; e] (files w)) as [[|c]|] eqn:E; try discriminate.
    apply in_children. exists Dir. apply disk_get_in. exact E. }
  set (w0 := match disk_get [path] (files w) with
             | None => with_files w [([path], Dir)]
             | Some _ => w
             end).
  assert (Hsame : save scan [("reporters", VFrame a)] (Some name) None path w
                  = save scan [("reporters", VFrame a)] (Some name) None path w0).
  { unfold w0. destruct (disk_get [path] (files w)) eqn:E; [reflexivity|].
    apply save_makes_base; assumption. }
  assert (Hold : forall q n, In (q, n) (files w0) ->
                             In (q, n) (files w) \/ q = [path]).
  { unfold w0. intros q n Hin.
    destruct (disk_get [path] (files w)); [left; exact Hin|].
    unfold with_files in Hin. cbn [files] in Hin.
    apply in_app_or in Hin. destruct Hin as [Hin|[Hin|[]]]; [left; exact Hin|].
    right. congruence. }
  assert (Hdir0 : is_dir [path] (files w0) = true).
  { unfold w0. destruct Hbase as [Hd|Hn].
    - unfold is_dir in Hd.
      destruct (disk_get [path] (files w)) as [[|c]|] eqn:E; try discriminate.
      unfold is_dir. rewrite E. reflexivity.
    - rewrite Hn. unfold is_dir, with_files. cbn [files].
      rewrite disk_get_app, Hn. cbn [disk_get]. rewrite path_eqb_refl.
      reflexivity. }
  assert (Hch0 : forall n, In n (children [path] (files w0)) ->
                           In n (children [path] (files w))).
  { intros n Hin. apply in_children in Hin. destruct Hin as (x & Hin).
    apply Hold in Hin. destruct Hin as [Hin|Hin]; [|discriminate].
    apply in_children. exists x. exact Hin. }
  assert (Hdf0 : nth_error (tables w0) a = Some df).
  { unfold w0. destruct (disk_get [path] (files w)); exact Hdf. }
  destruct (save_twice a df name path w0 Hdf0 Hp Hexp Hdir0)
    as (S1 & S2 & D1 & F1 & D2 & F2).
  { intros n Hin. apply Hfresh, Hch0, Hin. }
  { intros e f n Hin. apply Hold in Hin. destruct Hin as [Hin|Hin]; [|discriminate].
    apply in_children. apply Hsub in Hin. apply in_children in Hin.
    destruct Hin as (x & Hin). exists x.
    unfold w0. destruct (disk_get [path] (files w)); [exact Hin|].
    unfold with_files. cbn [files]. apply in_or_app. left. exact Hin. }
  fold exp in S1, S2, D1, F1, D2, F2. cbv zeta in S1, S2, D1, F1, D2, F2.
  eexists. eexists. rewrite Hsame.
  split; [exact S1|]. split; [|split; [exact F1|split; [exact S2|split]]].
  - unfold is_dir. rewrite D1. reflexivity.
  - unfold is_dir. rewrite D2. reflexivity.
  - exact F2.
Qed.

End PersistenceFacts.


(** C10, as it was stated, fails for a listing with a name that contains
    the experiment name and does not end in an integer: next to [a_1] and
    a directory [data], the name [a] stands in [data], [_last_exp_id]
    returns no id at all, and a save under [a] raises [ValueError] and
    stores nothing. *)
Lemma last_exp_id_by_containment_counterexample :
  let w := {| tables := [];
              files := [(["out"], Dir); (["out"; "a_1"], Dir);
                        (["out"; "data"], Dir)] |} in
  In "data" (children (parse_path "out") (files w))
  /\ "data" = ("d" ++ "a" ++ "ta")%string
  /\ suffix_id "a_1" = Ok 1
  /\ (forall m, _last_exp_id (fun l => l) "a" "out" w <> (Ok m, w))
  /\ exists msg,
       _last_exp_id (fun l => l) "a" "out" w = (Raise (ValueError msg), w)
       /\ save (fun l => l) [] (Some "a") None "out" w
          = (Raise (ValueError msg), w).
Proof.
  intros w. split; [right; left; reflexivity|]. split; [reflexivity|].
  split; [reflexivity|]. split; [intros m; discriminate|].
  eexists. split; reflexivity.
Defined.

Lemma save_fresh_sequence_witness :
  exists w1 w2,
    save (fun l => l) [("reporters", VFrame 0%nat)] (Some "my model") None
         "out" one_table_world = (Ok tt, w1)
    /\ is_dir ["out"; "my_model_1"] (files w1) = true
    /\ save (fun l => l) [("reporters", VFrame 0%nat)] (Some "my model") None
            "out" w1 = (Ok tt, w2)
    /\ is_dir ["out"; "my_model_2"] (files w2) = true.
Proof.
  destruct (save_fresh_sequence (fun l => l) (fun l => Permutation_refl l)
              0%nat (sampled_column "out" (int_cells [5; 6; 7]))
              "my model" "out" one_table_world)
    as (w1 & w2 & S1 & D1 & _ & S2 & D2 & _).
  - reflexivity.
  - reflexivity.
  - reflexivity.
  - intros q n [].
  - right. reflexivity.
  - intros n [].
  - exists w1, w2. repeat split; assumption.
Defined.

(** C7, as it was stated, fails next to an experiment of another name:
    the directory [out] holds [ab_5] only, which is no directory of the
    experiment [a], and yet the first save under [a] does not make
    [out/a_1]. *)
Lemma save_fresh_sequence_counterexample :
  let w := {| tables := [sampled_column "out" (int_cells [5; 6; 7])];
              files := [(["out"], Dir); (["out"; "ab_5"], Dir)] |} in
  (forall n, In n (children ["out"] (files w)) ->
             before_last_underscore n <> "a")
  /\ ~ (exists w1,
          save (fun l => l) [("reporters", VFrame 0%nat)] (Some "a") None
               "out" w = (Ok tt, w1)
          /\ is_dir ["out"; "a_1"] (files w1) = true).
Proof.
  split.
  - intros n [<-|[]]. vm_compute. discriminate.
  - intros (w1 & H & Hd). vm_compute in H. inversion H; subst w1.
    vm_compute in Hd. discriminate.
Qed.

(** ** Constants in [_combine_pars] *)

Lemma setitem_scalar df k v :
  is_scalar v = true ->
  setitem df k (CVal v) = Ok (put_column df k (repeat (CVal v) (nrows df))).
Proof. destruct v; try discriminate; reflexivity. Qed.

Lemma map_combine_rows {A B C} (g : A -> C) (l : list A) (vs : list B) :
  length l = length vs ->
  map (fun rv => g (fst rv)) (combine l vs) = map g l.
Proof.
  revert vs. induction l as [|a l IH]; intros [|v vs] H; simpl in *;
    try discriminate; [reflexivity|].
  f_equal. apply IH. lia.
Qed.

Lemma nth_set_nth_other {A} (i j : nat) (x d : A) (l : list A) :
  i <> j -> nth j (set_nth i x l) d = nth j l d.
Proof.
  revert i j. induction l as [|a l IH]; intros [|i] [|j] H; simpl;
    try reflexivity; try congruence.
  apply IH. congruence.
Qed.

Lemma col_pos_inj k k' cs i :
  col_pos k cs = Some i -> col_pos k' cs = Some i -> k = k'.
Proof.
  revert i. induction cs as [|c cs IH]; intros i; simpl; [discriminate|].
  destruct (String.eqb k c) eqn:E, (String.eqb k' c) eqn:E'.
  - intros _ _. apply String.eqb_eq in E, E'. congruence.
  - intros [= <-]. destruct (col_pos k' cs); discriminate.
  - destruct (col_pos k cs); [|discriminate]. intros [= <-]. discriminate.
  - destruct (col_pos k cs) as [a|]; [|discriminate].
    destruct (col_pos k' cs) as [b|]; [|discriminate].
    intros [= <-] [= ->]. eapply IH; reflexivity.
Qed.

Lemma col_pos_app_other k k' cs :
  k <> k' -> col_pos k' (cs ++ [k]) = col_pos k' cs.
Proof.
  intros H. induction cs as [|c cs IH]; simpl.
  - destruct (String.eqb k' k) eqn:E; [|reflexivity].
    apply String.eqb_eq in E. congruence.
  - destruct (String.eqb k' c); [reflexivity|]. rewrite IH. reflexivity.
Qed.

Lemma wf_put_column df k vs :
  wf_frame df -> wf_frame (put_column df k vs).
Proof.
  intros Hwf r Hin. unfold put_column in *.
  destruct (col_pos k (columns df)) as [i|]; simpl in *;
    apply in_map_iff in Hin; destruct Hin as ([r0 v] & <- & Hin);
    apply in_combine_l in Hin; simpl; unfold ncols; simpl.
  - rewrite length_set_nth. apply Hwf. exact Hin.
  - rewrite !length_app. simpl. rewrite (Hwf r0 Hin). reflexivity.
Qed.

(** [df[k] = ...] leaves the other columns as they were. *)
Lemma column_put_other df k k' vs :
  k <> k' -> wf_frame df -> length vs = nrows df ->
  column (put_column df k vs) k' = column df k'.
Proof.
  intros Hne Hwf Hlen. unfold column, put_column.
  destruct (col_pos k (columns df)) as [i|] eqn:E; simpl.
  - destruct (col_pos k' (columns df)) as [j|] eqn:E'; [|reflexivity].
    f_equal. rewrite map_map.
    rewrite <- (map_combine_rows (fun r => nth j (snd r) CNaN) (rows df) vs)
      by (symmetry; exact Hlen).
    apply map_ext. intros [r v]. simpl. apply nth_set_nth_other.
    intros ->. apply Hne. eapply col_pos_inj; eassumption.
  - rewrite (col_pos_app_other _ _ _ Hne).
    destruct (col_pos k' (columns df)) as [j|] eqn:E'; [|reflexivity].
    f_equal. rewrite map_map.
    rewrite <- (map_combine_rows (fun r => nth j (snd r) CNaN) (rows df) vs)
      by (symmetry; exact Hlen).
    apply map_ext_in. intros [r v] Hin. simpl.
    apply in_combine_l in Hin. apply app_nth1.
    rewrite (Hwf r Hin). eapply col_pos_lt. exact E'.
Qed.

Lemma columns_put_column df k vs :
  In k (columns (put_column df k vs))
  /\ incl (columns df) (columns (put_column df k vs)).
Proof.
  unfold put_column. destruct (col_pos k (columns df)) as [i|] eqn:E; simpl.
  - split; [eapply col_pos_in; exact E|apply incl_refl].
  - split; [apply in_or_app; right; left; reflexivity|].
    apply incl_appl, incl_refl.
Qed.

(** Scalar constants, one after the other, each become a column that
    holds the constant in every row. *)
Lemma set_constants_scalars items :
  forall dfp,
    wf_frame dfp ->
    (forall k v, In (k, v) items -> is_scalar v = true) ->
    NoDup (dict_keys items) ->
    exists dfp',
      set_constants dfp items = Ok dfp'
      /\ wf_frame dfp'
      /\ nrows dfp' = nrows dfp
      /\ incl (columns dfp) (columns dfp')
      /\ (forall k, ~ In k (dict_keys items) -> column dfp' k = column dfp k)
      /\ (forall k v, In (k, v) items ->
            In k (columns dfp')
            /\ column dfp' k = Some (repeat (CVal v) (nrows dfp))).
Proof.
  induction items as [|[k v] items IH]; intros dfp Hwf Hsc Hnd.
  - exists dfp. split; [reflexivity|]. split; [exact Hwf|].
    split; [reflexivity|]. split; [apply incl_refl|].
    split; [reflexivity|]. intros k v [].
  - simpl in Hnd. inversion Hnd as [|? ? Hk Hnd']; subst.
    cbn [set_constants]. rewrite setitem_scalar by (eapply Hsc; left; reflexivity).
    set (df1 := put_column dfp k (repeat (CVal v) (nrows dfp))).
    assert (Hlen : length (repeat (CVal v) (nrows dfp)) = nrows dfp)
      by apply repeat_length.
    assert (Hwf1 : wf_frame df1) by (apply wf_put_column; exact Hwf).
    assert (Hn1 : nrows df1 = nrows dfp) by (apply nrows_put_column; exact Hlen).
    destruct (IH df1 Hwf1) as (dfp' & Hrun & Hwf' & Hn' & Hincl & Hkeep & Hcols);
      [intros; eapply Hsc; right; eassumption|exact Hnd'|].
    destruct (columns_put_column dfp k (repeat (CVal v) (nrows dfp)))
      as [Hin1 Hincl1].
    exists dfp'. split; [exact Hrun|]. split; [exact Hwf'|].
    split; [congruence|]. split; [eapply incl_tran; eassumption|]. split.
    + intros k' Hk'. simpl in Hk'.
      rewrite Hkeep by tauto.
      apply column_put_other; [tauto|exact Hwf|exact Hlen].
    + intros k' v' [Heq|Hin].
      * inversion Heq; subst k' v'. split; [apply Hincl, Hin1|].
        rewrite (Hkeep k Hk). apply column_put_column; assumption.
      * rewrite <- Hn1. apply Hcols. exact Hin.
Qed.

(** For scalar constants the statement of C3 holds: [N] rows, a column for
    every constant (so at least [k] columns), each holding its constant in
    every row. *)
Lemma combine_pars_scalar_constants :
  forall (self : DataDict) (pd : list (string * value)) (a : addr)
         (sample : DataFrame) (consts : list (string * pyval))
         (N : nat) (w : world),
    dict_get "parameters" self = Some (VData pd) ->
    dict_get "sample" pd = Some (VFrame a) ->
    dict_get "constants" pd = Some (VPy (PDict consts)) ->
    nth_error (tables w) a = Some sample ->
    wf_frame sample ->
    nrows sample = N ->
    (0 < N)%nat ->
    NoDup (dict_keys consts) ->
    (forall k v, In (k, v) consts -> is_scalar v = true) ->
    exists dfp,
      _combine_pars self true true w = (Ok (Some (New dfp)), w)
      /\ nrows dfp = N
      /\ (length consts <= ncols dfp)%nat
      /\ (forall k v, In (k, v) consts ->
            column dfp k = Some (repeat (CVal v) N)).
Proof.
  intros self pd a sample consts N w Hpar Hs Hc Hdf Hwf HN Hpos Hnd Hsc.
  destruct (set_constants_scalars consts sample Hwf Hsc Hnd)
    as (dfp & Hrun & _ & Hn & _ & _ & Hcols).
  exists dfp. split; [|split; [congruence|split]].
  - unfold _combine_pars. rewrite Hpar.
    unfold dict_has. rewrite Hs, Hc. cbn [andb getitem]. rewrite Hs, Hc.
    run. rewrite bind_lift, Hrun.
    destruct (nrows dfp) eqn:E; [lia|]. reflexivity.
  - unfold ncols. rewrite <- (length_map fst consts).
    apply NoDup_incl_length; [exact Hnd|].
    intros k Hk. unfold dict_keys in Hk. apply in_map_iff in Hk.
    destruct Hk as ([k0 v] & <- & Hin). apply (Hcols _ _ Hin).
  - intros k v Hin. rewrite <- HN. apply (Hcols _ _ Hin).
Qed.

(** C3.  A constant that is a list is not broadcast: assigned to the
    column it is spread over the rows when it has one element per row, and
    refused otherwise.  With four samples and the constant
    [y = [1, 2, 3, 4]] the column [y] holds [1, 2, 3, 4]; with [y = [1, 2]]
    the call raises [ValueError]. *)
Theorem combine_pars_list_constant :
  let w := sweep_world (int_cells [10; 20; 30; 40]) (int_cells [5; 6; 7; 8]) in
  (exists dfp,
      _combine_pars (sweep_record (PList [PInt 1; PInt 2; PInt 3; PInt 4]))
                    true true w
      = (Ok (Some (New dfp)), w)
      /\ nrows dfp = 4%nat
      /\ column dfp "y" = Some (int_cells [1; 2; 3; 4]))
  /\ _combine_pars (sweep_record (PList [PInt 1; PInt 2])) true true w
     = (Raise (ValueError "Length of values does not match length of index"),
        w).
Proof.
  split; [eexists; repeat split; reflexivity|reflexivity].
Qed.

(** ** Plain objects and JSON *)

(** Induction on plain objects that reaches into lists, tuples and
    dicts. *)
Lemma pyval_nested_ind (P : pyval -> Prop) :
  P PNone ->
  (forall z, P (PInt z)) ->
  (forall s, P (PStr s)) ->
  (forall l, Forall P l -> P (PList l)) ->
  (forall l, Forall P l -> P (PTuple l)) ->
  (forall d, Forall (fun kv => P (snd kv)) d -> P (PDict d)) ->
  forall v, P v.
Proof.
  intros HNone HInt HStr HList HTuple HDict.
  refine (fix rec (v : pyval) : P v :=
            match v with
            | PNone => HNone
            | PInt z => HInt z
            | PStr s => HStr s
            | PList l =>
                HList l ((fix all (l : list pyval) : Forall P l :=
                            match l with
                            | [] => Forall_nil P
                            | x :: l' => Forall_cons x (rec x) (all l')
                            end) l)
            | PTuple l =>
                HTuple l ((fix all (l : list pyval) : Forall P l :=
                             match l with
                             | [] => Forall_nil P
                             | x :: l' => Forall_cons x (rec x) (all l')
                             end) l)
            | PDict d =>
                HDict d ((fix all (d : list (string * pyval))
                            : Forall (fun kv => P (snd kv)) d :=
                            match d with
                            | [] => Forall_nil _
                            | kv :: d' =>
                                Forall_cons kv (rec (snd kv)) (all d')
                            end) d)
            end).
Qed.


Lemma str_in_cons_false k a l :
  str_in k (a :: l) = false -> String.eqb k a = false /\ str_in k l = false.
Proof. unfold str_in. simpl. apply orb_false_elim. Qed.

Lemma dict_get_unique {V} k (v : V) d :
  has_dup (map fst d) = false -> In (k, v) d -> dict_get k d = Some v.
Proof.
  induction d as [|[k' v'] d IH]; intros Hd Hin; [destruct Hin|].
  cbn [map fst has_dup] in Hd. apply orb_false_elim in Hd.
  destruct Hd as [Hk Hd]. cbn [dict_get].
  destruct Hin as [Heq|Hin].
  - inversion Heq; subst. rewrite String.eqb_refl. reflexivity.
  - destruct (String.eqb k k') eqn:E.
    + apply String.eqb_eq in E. subst k'. exfalso.
      assert (Hi : str_in k (map fst d) = true).
      { apply str_in_iff. apply in_map_iff. exists (k, v). auto. }
      congruence.
    + apply IH; assumption.
Qed.

(** On stable objects [==] is reflexive. *)
Lemma pyval_eqb_refl v : json_stable v = true -> pyval_eqb v v = true.
Proof.
  induction v as [| | | l IH | l IH | d IH] using pyval_nested_ind;
    cbn [json_stable pyval_eqb]; intros H; try reflexivity;
    try discriminate.
  - apply Z.eqb_refl.
  - apply String.eqb_refl.
  - rewrite forallb_forall in H.
    induction l as [|x l IHl]; [reflexivity|].
    inversion IH; subst. rewrite H2 by (apply H; left; reflexivity).
    cbn [andb]. apply IHl; [assumption|]. intros y Hy. apply H. right. exact Hy.
  - apply andb_prop in H. destruct H as [Hd H].
    apply negb_true_iff in Hd. rewrite Nat.eqb_refl. cbn [andb].
    rewrite forallb_forall in H.
    assert (Hall : forall k x, In (k, x) d ->
                     dict_get k d = Some x /\ pyval_eqb x x = true).
    { intros k x Hin. split; [apply dict_get_unique; assumption|].
      rewrite Forall_forall in IH. apply (IH (k, x) Hin).
      apply (H (k, x) Hin). }
    clear IH H Hd. revert Hall. generalize d at 1 4. intros d0.
    induction d0 as [|[k x] d0 IHd]; intros Hall; [reflexivity|].
    destruct (Hall k x (or_introl eq_refl)) as [Hg He].
    rewrite Hg, He. cbn [andb]. apply IHd.
    intros k' x' Hin. apply Hall. right. exact Hin.
Qed.

(** ** Tables and CSV *)



Lemma col_pos_middle k pre rest :
  ~ In k pre -> col_pos k (pre ++ k :: rest) = Some (length pre).
Proof.
  induction pre as [|a pre IH]; intros H; simpl.
  - rewrite String.eqb_refl. reflexivity.
  - destruct (String.eqb k a) eqn:E.
    + apply String.eqb_eq in E. subst. exfalso. apply H. left. reflexivity.
    + rewrite IH; [reflexivity|]. intros Hin. apply H. right. exact Hin.
Qed.

Lemma positions_middle l :
  forall pre post,
    NoDup (pre ++ l) ->
    positions l (pre ++ l ++ post) = Ok (seq (length pre) (length l)).
Proof.
  induction l as [|k l IH]; intros pre post Hnd; [reflexivity|].
  cbn [positions]. cbn [app]. rewrite col_pos_middle.
  2:{ apply NoDup_remove_2 in Hnd. intros Hin. apply Hnd.
      apply in_or_app. left. exact Hin. }
  replace (pre ++ k :: l ++ post) with ((pre ++ [k]) ++ l ++ post)
    by (rewrite <- app_assoc; reflexivity).
  rewrite IH.
  - rewrite length_app. cbn [length seq]. rewrite Nat.add_1_r. reflexivity.
  - rewrite <- app_assoc. exact Hnd.
Qed.

Lemma pick_middle (l : list cell) :
  forall pre post,
    pick (seq (length pre) (length l)) (pre ++ l ++ post) = l.
Proof.
  unfold pick.
  induction l as [|x l IH]; intros pre post; [reflexivity|].
  cbn [length seq map]. f_equal.
  - rewrite app_nth2 by lia. rewrite Nat.sub_diag. reflexivity.
  - replace (pre ++ (x :: l) ++ post) with ((pre ++ [x]) ++ l ++ post)
      by (rewrite <- app_assoc; reflexivity).
    replace (S (length pre)) with (length (pre ++ [x]))
      by (rewrite length_app; simpl; lia).
    apply IH.
Qed.




Lemma length_range_keys n : length (range_keys n) = n.
Proof. unfold range_keys. rewrite length_map, length_seq. reflexivity. Qed.

Lemma named_map_some ns : named (map Some ns) = Ok ns.
Proof.
  induction ns as [|n ns IH]; [reflexivity|].
  cbn [map named]. rewrite IH. reflexivity.
Qed.

Lemma set_index_named df ns :
  ns <> [] ->
  set_index df (map Some ns)
  = match positions ns (columns df) with
    | Raise e => Raise e
    | Ok ps =>
        let rest := filter (fun c => negb (str_in c ns)) (columns df) in
        match positions rest (columns df) with
        | Raise e => Raise e
        | Ok qs =>
            Ok {| index_names := map Some ns;
                  columns := rest;
                  rows := map (fun r => (pick ps (snd r), pick qs (snd r)))
                              (rows df) |}
        end
    end.
Proof.
  intros H. destruct ns as [|n ns]; [contradiction|].
  unfold set_index. cbn [map].
  change (Some n :: map Some ns) with (map Some (n :: ns)).
  rewrite named_map_some. reflexivity.
Qed.

Section CsvRoundTrip.

Variable reparse : list (list cell) -> list (list cell).


End CsvRoundTrip.

Lemma list_eqb_refl {A} (eqb : A -> A -> bool) (l : list A) :
  (forall x, In x l -> eqb x x = true) -> list_eqb eqb l l = true.
Proof.
  induction l as [|a l IH]; intros H; simpl; [reflexivity|].
  rewrite (H a (or_introl eq_refl)). apply IH. intros. apply H. right. assumption.
Qed.

(** A stable table [equals] itself. *)
Lemma equals_refl reparse df : csv_stable reparse df -> equals df df = true.
Proof.
  intros (_ & _ & _ & _ & _ & _ & _ & _ & Hcells). unfold equals.
  rewrite list_eqb_refl by (intros; apply String.eqb_refl). cbn [andb].
  apply list_eqb_refl. intros r Hr.
  rewrite !list_eqb_refl; [reflexivity| |];
    intros c Hc; apply (Hcells r c Hr); apply in_or_app; auto.
Qed.

(** ** File names of the entries *)


Lemma string_length_app (a b : string) :
  String.length (a ++ b) = (String.length a + String.length b)%nat.
Proof. induction a as [|x a IH]; simpl; [reflexivity|]. rewrite IH. reflexivity. Qed.

Lemma substring_app (a b : string) :
  substring 0 (String.length a) (a ++ b) = a.
Proof.
  induction a as [|x a IH]; simpl.
  - destruct b; reflexivity.
  - rewrite IH. reflexivity.
Qed.

Lemma drop_last_app (a b : string) :
  drop_last (String.length b) (a ++ b) = a.
Proof.
  unfold drop_last. rewrite string_length_app.
  replace (String.length a + String.length b - String.length b)%nat
    with (String.length a) by lia.
  apply substring_app.
Qed.

Lemma string_app_inv_tail (a b c : string) :
  (a ++ c = b ++ c)%string -> a = b.
Proof.
  intros H.
  rewrite <- (drop_last_app a c), <- (drop_last_app b c), H. reflexivity.
Qed.





Lemma free_of_digits u : free_of "/" (NilEmpty.string_of_uint u) = true.
Proof. induction u; simpl; auto. Qed.

Lemma free_of_uint u : free_of "/" (NilZero.string_of_uint u) = true.
Proof. destruct u; try reflexivity; apply (free_of_digits (_ u)). Qed.

Lemma free_of_string_of_Z i : free_of "/" (string_of_Z i) = true.
Proof.
  unfold string_of_Z, NilZero.string_of_int.
  destruct (Z.to_int i); simpl; apply free_of_uint.
Qed.





(** ** Records that can be stored *)

Lemma dict_get_set_same {V} k (v : V) d : dict_get k (dict_set k v d) = Some v.
Proof.
  induction d as [|[k' v'] d IH]; simpl.
  - rewrite String.eqb_refl. reflexivity.
  - destruct (String.eqb k k') eqn:E; simpl.
    + rewrite String.eqb_refl. reflexivity.
    + rewrite E. exact IH.
Qed.








Section Storable.

Variable reparse : list (list cell) -> list (list cell).
Variable h : heap.






End Storable.

(** ** Saving a storable record *)






Section Writes.

Variable h : heap.
Variable dir : list string.

Hypothesis dir_nonempty : dir <> [].



End Writes.





Section SaveStorable.

Variable scan : list string -> list string.
Variable reparse : list (list cell) -> list (list cell).
Hypothesis scan_perm : forall l, Permutation (scan l) l.

Variable h : heap.
Variable ds : string.
Variable dir : list string.
Hypothesis ds_dir : parse_path ds = dir.
Hypothesis dir_nonempty : dir <> [].








End SaveStorable.

(** ** Loading what was saved *)

Lemma dict_set_twice {V} k (v v' : V) d :
  dict_set k v (dict_set k v' d) = dict_set k v d.
Proof.
  induction d as [|[k0 v0] d IH]; simpl.
  - rewrite String.eqb_refl. reflexivity.
  - destruct (String.eqb k k0) eqn:E; simpl.
    + rewrite String.eqb_refl. reflexivity.
    + rewrite E, IH. reflexivity.
Qed.

Lemma set_nested_put self sec key obj w :
  set_nested self sec key obj w = lift (put self (Some sec, key) obj) w.
Proof.
  unfold set_nested, put, lift. cbn [fst snd].
  destruct (dict_get sec self) as [[a|d|p]|]; reflexivity.
Qed.

Lemma set_nested_fresh self sec key obj w :
  dict_get sec self = None ->
  set_nested (dict_set sec (VData []) self) sec key obj w
  = lift (put self (Some sec, key) obj) w.
Proof.
  intros H. unfold set_nested, put, lift. cbn [fst snd].
  rewrite dict_get_set_same, H. cbn [dict_set]. rewrite dict_set_twice.
  reflexivity.
Qed.

Section Loading.

Variable reparse : list (list cell) -> list (list cell).

(** One round of the loop of [_load]: the file is read and what was read
    is put at the place its name stands for. *)
Lemma load_files_cons self dl f l w :
  load_files reparse self dl (f :: l) w
  = (obj <- load_file reparse dl f ;;
     self' <- lift (put self (classify f) obj) ;;
     load_files reparse self' dl l) w.
Proof.
  cbn [load_files]. unfold classify.
  destruct (is_substring "variables_" f).
  - rewrite !bind_bind. unfold dict_has.
    destruct (dict_get "variables" self) eqn:E.
    + erewrite bind_ok by reflexivity. rewrite !bind_bind.
      unfold bind at 1 3. destruct (load_file reparse dl f w) as [[obj|e] w1];
        [|reflexivity].
      unfold bind. rewrite set_nested_put. reflexivity.
    + erewrite bind_ok by reflexivity. rewrite !bind_bind.
      unfold bind at 1 3. destruct (load_file reparse dl f w) as [[obj|e] w1];
        [|reflexivity].
      unfold bind. rewrite (set_nested_fresh _ _ _ _ _ E). reflexivity.
  - destruct (is_substring "parameters_" f).
    + rewrite !bind_bind. unfold dict_has.
      destruct (dict_get "parameters" self) eqn:E.
      * erewrite bind_ok by reflexivity. rewrite !bind_bind.
        unfold bind at 1 3.
        destruct (load_file reparse dl f w) as [[obj|e] w1]; [|reflexivity].
        unfold bind. rewrite set_nested_put. reflexivity.
      * erewrite bind_ok by reflexivity. rewrite !bind_bind.
        unfold bind at 1 3.
        destruct (load_file reparse dl f w) as [[obj|e] w1]; [|reflexivity].
        unfold bind. rewrite (set_nested_fresh _ _ _ _ _ E). reflexivity.
    + rewrite !bind_bind.
      unfold bind at 1 3.
      destruct (load_file reparse dl f w) as [[obj|e] w1]; reflexivity.
Qed.

End Loading.





Section LoadLeaf.

Variable reparse : list (list cell) -> list (list cell).
Variable h : heap.
Variable dl : string.
Variable dir : list string.

Hypothesis dl_dir :
  forall f, plain_name f = true -> parse_path (dl ++ f) = dir ++ [f].






End LoadLeaf.

(** ** Saving and loading again *)





Section RoundTrip.

Variable scan : list string -> list string.
Variable getmtime : string -> Z.
Variable reparse : list (list cell) -> list (list cell).

Hypothesis scan_perm : forall l, Permutation (scan l) l.



End RoundTrip.






(** * Further properties *)

(** ** Directory names and experiment ids *)

Lemma all_chars_uint (p : ascii -> bool) u :
  (forall a, digit_of a <> None -> p a = true) ->
  all_chars p (NilEmpty.string_of_uint u) = true.
Proof.
  intros H. induction u; cbn [NilEmpty.string_of_uint all_chars];
    try reflexivity; rewrite IHu, H by (cbv; discriminate); reflexivity.
Qed.

Lemma free_of_all_chars c s :
  all_chars (fun a => negb (Ascii.eqb a c)) s = free_of c s.
Proof. induction s as [|a s IH]; simpl; [reflexivity|]. rewrite IH. reflexivity. Qed.

Lemma all_chars_rev_onto p s :
  forall acc, all_chars p (string_rev_onto s acc)
              = all_chars p s && all_chars p acc.
Proof.
  induction s as [|a s IH]; intros acc; cbn [string_rev_onto all_chars].
  - reflexivity.
  - rewrite IH. cbn [all_chars].
    destruct (p a), (all_chars p s), (all_chars p acc); reflexivity.
Qed.

Lemma string_app_nil_r (s : string) : (s ++ "")%string = s.
Proof. induction s as [|a s IH]; simpl; [reflexivity|]. rewrite IH. reflexivity. Qed.

Lemma string_rev_onto_twice s :
  forall acc acc',
    string_rev_onto (string_rev_onto s acc) acc'
    = string_rev_onto acc (s ++ acc').
Proof.
  induction s as [|a s IH]; intros acc acc'; cbn [string_rev_onto append].
  - reflexivity.
  - rewrite IH. reflexivity.
Qed.

Lemma lstrip_id s :
  all_chars (fun a => negb (is_space a)) s = true -> lstrip s = s.
Proof.
  destruct s as [|a s]; cbn [all_chars lstrip]; [reflexivity|].
  intros H. apply andb_prop in H. destruct H as [H _].
  destruct (is_space a); [discriminate|reflexivity].
Qed.

(** [strip] leaves a string without blanks as it is. *)
Lemma strip_id s :
  all_chars (fun a => negb (is_space a)) s = true -> strip s = s.
Proof.
  intros H. unfold strip, string_rev.
  rewrite (lstrip_id s H). rewrite lstrip_id.
  - rewrite string_rev_onto_twice. cbn [string_rev_onto].
    apply string_app_nil_r.
  - rewrite all_chars_rev_onto, H. reflexivity.
Qed.

Lemma digits_value_acc u :
  forall acc,
    digits_value (Zpos acc) (NilEmpty.string_of_uint u)
    = Some (Zpos (Pos.of_uint_acc u acc)).
Proof.
  induction u; intros acc;
    cbn [NilEmpty.string_of_uint Pos.of_uint_acc]; [reflexivity| ..];
    cbn [digits_value]; (change (digit_of _) with (Some 0)
                         || change (digit_of _) with (Some 1)
                         || change (digit_of _) with (Some 2)
                         || change (digit_of _) with (Some 3)
                         || change (digit_of _) with (Some 4)
                         || change (digit_of _) with (Some 5)
                         || change (digit_of _) with (Some 6)
                         || change (digit_of _) with (Some 7)
                         || change (digit_of _) with (Some 8)
                         || change (digit_of _) with (Some 9));
    cbv iota; rewrite <- IHu; f_equal; lia.
Qed.

Lemma digits_value_uint u :
  digits_value 0 (NilEmpty.string_of_uint u) = Some (Z.of_N (Pos.of_uint u)).
Proof.
  induction u; cbn [NilEmpty.string_of_uint Pos.of_uint]; [reflexivity| ..];
    cbn [digits_value];
    first [ change (digit_of "0") with (Some 0); cbv iota;
            change (10 * 0 + 0) with 0; exact IHu
          | match goal with
            | |- context [digit_of ?a] =>
                let d := eval cbv in (digit_of a) in
                change (digit_of a) with d
            end;
            cbv iota; cbn [Z.mul Z.add Z.of_N];
            apply digits_value_acc ].
Qed.

(** [int(str(i))] is [i]. *)
Lemma py_int_string_of_Z i : py_int (string_of_Z i) = Ok i.
Proof.
  unfold string_of_Z.
  assert (Hpos : forall p,
             exists a t, NilEmpty.string_of_uint (Pos.to_uint p) = String a t
                         /\ digit_of a <> None
                         /\ NilZero.string_of_uint (Pos.to_uint p) = String a t
                         /\ digits_value 0 (String a t) = Some (Zpos p)).
  { intros p. pose proof (digits_value_uint (Pos.to_uint p)) as Hv.
    rewrite DecimalPos.Unsigned.of_to in Hv. cbn [Z.of_N] in Hv.
    destruct (Pos.to_uint p) as [|u|u|u|u|u|u|u|u|u|u] eqn:E;
      [discriminate Hv| ..];
      cbn [NilEmpty.string_of_uint NilZero.string_of_uint] in *;
      eexists; eexists; (split; [reflexivity|]);
      (split; [cbv; discriminate|]); (split; [reflexivity|exact Hv]). }
  assert (Hsp : forall p,
             all_chars (fun a => negb (is_space a))
                       (NilEmpty.string_of_uint (Pos.to_uint p)) = true).
  { intros p. apply all_chars_uint. intros a Ha.
    unfold digit_of in Ha. unfold is_space.
    destruct (Nat.leb 48 (nat_of_ascii a) && Nat.leb (nat_of_ascii a) 57)
      eqn:E; [|contradiction].
    apply andb_prop in E. destruct E as [E1 E2].
    apply Nat.leb_le in E1.
    replace (Nat.leb (nat_of_ascii a) 13) with false
      by (symmetry; apply Nat.leb_gt; lia).
    replace (Nat.leb (nat_of_ascii a) 32) with false
      by (symmetry; apply Nat.leb_gt; lia).
    rewrite !andb_false_r. reflexivity. }
  destruct i as [|p|p]; cbn [Z.to_int NilZero.string_of_int].
  - reflexivity.
  - destruct (Hpos p) as (a & t & E & Ha & E' & Hv). specialize (Hsp p).
    rewrite E'. rewrite E in Hsp. unfold py_int. rewrite (strip_id _ Hsp).
    destruct a as [[|] [|] [|] [|] [|] [|] [|] [|]];
      try (exfalso; apply Ha; reflexivity);
      cbv beta iota zeta; rewrite Hv; reflexivity.
  - destruct (Hpos p) as (a & t & E & Ha & E' & Hv). specialize (Hsp p).
    rewrite E'. rewrite E in Hsp. unfold py_int.
    assert (Hs2 : all_chars (fun a => negb (is_space a))
                            (String "-" (String a t)) = true).
    { change (negb (is_space "-")
              && all_chars (fun a => negb (is_space a)) (String a t) = true).
      rewrite Hsp. reflexivity. }
    rewrite (strip_id _ Hs2). cbv beta iota zeta. rewrite Hv. reflexivity.
Qed.

Lemma free_of_underscore_Z i : free_of "_" (string_of_Z i) = true.
Proof.
  assert (H : forall u, free_of "_" (NilEmpty.string_of_uint u) = true).
  { intros u. rewrite <- free_of_all_chars. apply all_chars_uint.
    intros a Ha. destruct (Ascii.eqb_spec a "_") as [->|]; [|reflexivity].
    exfalso. apply Ha. reflexivity. }
  assert (H' : forall u, free_of "_" (NilZero.string_of_uint u) = true).
  { intros u. destruct u; try apply (H (_ u)); try reflexivity;
      cbn [NilZero.string_of_uint]; apply H. }
  unfold string_of_Z. destruct (Z.to_int i) as [u|u];
    cbn [NilZero.string_of_int free_of]; [apply H'|].
  rewrite H'. reflexivity.
Qed.

Lemma suffix_id_made exp i :
  suffix_id (exp ++ "_" ++ string_of_Z i) = Ok i.
Proof.
  unfold suffix_id. cbn [append].
  rewrite (last_segment _ _ (free_of_underscore_Z i)).
  apply py_int_string_of_Z.
Qed.

(** X1.  The name that [save] gives an experiment directory,
    [{exp_name}_{exp_id}], gives both parts back to [_load] and
    [_last_exp_id]: the integer after the last underscore is the id, and
    what stands before the last underscore is the experiment name,
    whatever the name (underscores included) and whatever the id
    (negative ones included). *)
Theorem exp_dir_name_round_trip :
  forall (exp : string) (i : Z),
    suffix_id (exp ++ "_" ++ string_of_Z i) = Ok i
    /\ before_last_underscore (exp ++ "_" ++ string_of_Z i) = exp.
Proof.
  intros exp i. split; [apply suffix_id_made|].
  unfold before_last_underscore. cbn [append].
  rewrite split_char_app, (split_char_free _ _ (free_of_underscore_Z i)).
  rewrite rev_app_distr. cbn [rev app].
  destruct (rev (split_char "_" exp)) as [|x l] eqn:E.
  - exfalso. apply (split_char_nonempty "_" exp).
    apply (f_equal (@rev string)) in E. rewrite rev_involutive in E. exact E.
  - change (exp ++ String "_" (string_of_Z i))%string
      with (exp ++ ("_" ++ string_of_Z i))%string.
    replace (String.length (string_of_Z i) + 1)%nat
      with (String.length ("_" ++ string_of_Z i)%string)
      by (cbn [String.length append]; lia).
    apply drop_last_app.
Qed.


Lemma bind_ext {A B} (c : M A) (f g : A -> M B) w :
  (forall a w', f a w' = g a w') -> bind c f w = bind c g w.
Proof.
  intros H. unfold bind. destruct (c w) as [[a|e] w']; [apply H|reflexivity].
Qed.

Section SaveFacts.

Variable scan : list string -> list string.
Hypothesis scan_perm : forall l, Permutation (scan l) l.


(** X3.  [save] under an explicit id whose directory (or a file of that
    name) is already there raises [FileExistsError] for
    [{path}/{name}_{id}] and changes nothing, whatever the record holds:
    [makedirs] is called without [exist_ok], so nothing is overwritten. *)
Theorem save_existing_id_fails :
  forall (r : DataDict) (name path : string) (i : Z) (w : world) (n : node),
    let exp := replace " " "_" name in
    let e := (exp ++ "_" ++ string_of_Z i)%string in
    plain_name path = true ->
    free_of "/" exp = true ->
    is_dir [path] (files w) = true ->
    disk_get [path; e] (files w) = Some n ->
    save scan r (Some name) (Some i) path w
    = (Raise (FileExistsError (path ++ "/" ++ e)), w).
Proof.
  intros r name path i w n exp e Hp Hexp Hdir Hthere.
  assert (He : plain_name e = true)
    by (apply plain_name_suffixed; [assumption|apply free_of_string_of_Z]).
  assert (Hpe : parse_path (path ++ "/" ++ e) = [path; e]).
  { cbn [append]. rewrite parse_path_app, (parse_path_plain _ Hp).
    rewrite (parse_path_plain _ He). reflexivity. }
  unfold save.
  erewrite bind_ok by (apply listdir_ok; reflexivity).
  change (parse_path ".") with (@nil string).
  rewrite (listed_dir scan scan_perm _ _ Hp Hdir).
  erewrite bind_ok by reflexivity.
  erewrite bind_ok by reflexivity.
  fold exp.
  erewrite bind_ok by reflexivity.
  fold e.
  erewrite bind_raise; [reflexivity|].
  unfold makedirs, get_files, bind. rewrite Hpe.
  unfold exists_path. rewrite Hthere. reflexivity.
Qed.


(** X5.  Without an experiment name [save] takes the model type of the
    log, and [Unnamed] when the record has no log or the log no model
    type: the call is the one with that name passed. *)
Theorem save_default_name :
  forall (self : DataDict) (id : option Z) (path n : string) (w : world),
    (dict_get "log" self = None /\ n = "Unnamed")
    \/ (exists m, dict_get "log" self = Some (VPy (PDict m))
                  /\ dict_get "model_type" m = None /\ n = "Unnamed")
    \/ (exists m, dict_get "log" self = Some (VPy (PDict m))
                  /\ dict_get "model_type" m = Some (PStr n)) ->
    save scan self None id path w = save scan self (Some n) id path w.
Proof.
  intros self id path n w H. unfold save.
  apply bind_ext. intros here w1. apply bind_ext. intros _ w2.
  erewrite (bind_ok (ret n)) by reflexivity.
  erewrite bind_ok; [reflexivity|].
  destruct H as [[Hlog ->]|[(m & Hlog & Hm & ->)|(m & Hlog & Hm)]];
    rewrite Hlog; cbn [contains getitem]; unfold dict_has;
    try rewrite Hm; run; reflexivity.
Qed.

End SaveFacts.


Lemma save_existing_id_fails_witness :
  save (fun l => l) [] (Some "a") (Some 1) "out"
       {| tables := []; files := [(["out"], Dir); (["out"; "a_1"], Dir)] |}
  = (Raise (FileExistsError "out/a_1"),
     {| tables := []; files := [(["out"], Dir); (["out"; "a_1"], Dir)] |}).
Proof.
  apply (save_existing_id_fails (fun l => l) (fun l => Permutation_refl l)
           [] "a" "out" 1
           {| tables := []; files := [(["out"], Dir); (["out"; "a_1"], Dir)] |}
           Dir); reflexivity.
Defined.


Lemma save_default_name_witness :
  save (fun l => l) single_run_record None None "out"
       {| tables := [model_table]; files := [] |}
  = save (fun l => l) single_run_record (Some "Model") None "out"
         {| tables := [model_table]; files := [] |}.
Proof.
  apply (save_default_name (fun l => l)).
  right. right. eexists. split; reflexivity.
Defined.

(** ** What [save] leaves alone *)











Section SaveKeeps.

Variable w0 : world.
Variable ds : string.

Hypothesis below : forall s, disk_get (parse_path ds ++ s) (files w0) = None.




End SaveKeeps.

Lemma keeps_listdir scan path : keeps_world (listdir scan path).
Proof.
  intros w. unfold listdir, get_files, bind.
  destruct (is_dir (parse_path path) (files w)); reflexivity.
Qed.

Lemma keeps_getitem d key : keeps_world (getitem d key).
Proof.
  destruct d as [a|m|[| | | | |m]]; cbn [getitem];
    try apply keeps_raise; destruct (dict_get key m);
    first [apply keeps_ret|apply keeps_raise].
Qed.

Lemma keeps_contains d key : keeps_world (contains d key).
Proof.
  destruct d as [a|m|[| | | | |m]]; cbn [contains];
    first [apply keeps_ret|apply keeps_raise].
Qed.

Lemma keeps_getattr self name : keeps_world (getattr self name).
Proof.
  unfold getattr. destruct (dict_get name self);
    first [apply keeps_ret|apply keeps_raise].
Qed.

Lemma keeps_last_exp_id scan name path :
  keeps_world (_last_exp_id scan name path).
Proof.
  unfold _last_exp_id. apply keeps_bind; [apply keeps_listdir|].
  intros l. destruct (filter _ l); [apply keeps_ret|].
  apply keeps_bind; [|intros; apply keeps_ret].
  apply keeps_mapM. intros a. apply keeps_lift.
Qed.




Section SaveLoadFacts.

Variable scan : list string -> list string.
Variable getmtime : string -> Z.
Variable reparse : list (list cell) -> list (list cell).

Hypothesis scan_perm : forall l, Permutation (scan l) l.


(** X8.  An experiment saved under the id [0] cannot be loaded by that
    id: [_load] takes [0] for "no id" and looks for the highest one.  When
    [{name}_0] is there and no directory of that name has a higher id,
    [load] with id [0] raises [FileNotFoundError] although the directory
    exists. *)
Theorem load_id_zero_not_found :
  forall (name path : string) (w : world),
    let exp := replace " " "_" name in
    is_dir (parse_path path) (files w) = true ->
    In (exp ++ "_0")%string (children (parse_path path) (files w)) ->
    (forall s, In s (children (parse_path path) (files w)) ->
               is_substring exp s = true ->
               exists z, suffix_id s = Ok z /\ z <= 0) ->
    load scan getmtime reparse (Some name) (Some 0) path w
    = (Raise (FileNotFoundError path), w).
Proof.
  intros name path w exp Hdir Hzero Hall.
  destruct (last_exp_id_some scan scan_perm exp path w Hdir
              (exp ++ "_0")%string Hzero (is_substring_app exp "_0"))
    as (ids & Hrun & Hne & Hids).
  { intros s Hs Hm. destruct (Hall s Hs Hm) as (z & Hz & _). exists z. exact Hz. }
  destruct (py_max_spec ids Hne) as [Hin Hub].
  assert (Hmax : py_max ids = 0).
  { apply Z.le_antisymm.
    - destruct (parsed_back _ _ _ Hids _ Hin) as (s & Hs & Hid).
      apply (kept_names scan scan_perm) in Hs. destruct Hs as [Hs Hm].
      destruct (Hall s Hs Hm) as (z & Hz & Hle). congruence.
    - apply Hub. eapply parsed_forth; [exact Hids| |].
      + apply (kept_names scan scan_perm). split; [exact Hzero|].
        apply is_substring_app.
      + exact (suffix_id_made exp 0). }
  unfold load, _load.
  erewrite bind_ok by reflexivity. fold exp.
  change (Z.eqb 0 0) with true. cbv iota.
  erewrite bind_ok by reflexivity.
  erewrite bind_raise; [reflexivity|].
  erewrite bind_ok by exact Hrun. rewrite Hmax. reflexivity.
Qed.

End SaveLoadFacts.


Lemma load_id_zero_not_found_witness :
  load (fun l => l) (fun _ => 0) (fun b => b) (Some "a") (Some 0) "out"
       {| tables := []; files := [(["out"], Dir); (["out"; "a_0"], Dir)] |}
  = (Raise (FileNotFoundError "out"),
     {| tables := []; files := [(["out"], Dir); (["out"; "a_0"], Dir)] |}).
Proof.
  apply (load_id_zero_not_found (fun l => l) (fun _ => 0) (fun b => b)
           (fun l => Permutation_refl l) "a" "out").
  - reflexivity.
  - left. reflexivity.
  - intros s [<-|[]] _. exists 0. split; [reflexivity|lia].
Defined.

(** ** What [_load] does and does not do *)

Lemma reads_only_keeps {A} (c : M A) : keeps_world c -> reads_only c.
Proof.
  intros H w. pose proof (H w) as E. rewrite E. split; [reflexivity|].
  exists []. symmetry. apply app_nil_r.
Qed.

Lemma reads_only_bind {A B} (c : M A) (f : A -> M B) :
  reads_only c -> (forall a, reads_only (f a)) -> reads_only (bind c f).
Proof.
  intros Hc Hf w. destruct (Hc w) as [Hfiles [ext Ht]]. unfold bind.
  destruct (c w) as [[a|e] w1]; cbn [snd] in *.
  - destruct (Hf a w1) as [Hfiles' [ext' Ht']].
    split; [congruence|]. exists (ext ++ ext').
    rewrite Ht', Ht, app_assoc. reflexivity.
  - split; [exact Hfiles|]. exists ext. exact Ht.
Qed.

Section LoadFacts.

Variable scan : list string -> list string.
Variable getmtime : string -> Z.
Variable reparse : list (list cell) -> list (list cell).

(** X9.  [load_file] never raises and never writes: whatever the file
    is, it answers with an object, and a file it cannot read (it is not
    there, or its extension is neither [csv] nor [json]) gives [None].
    The disk is as before, and the store has at most one table more, the
    one the answer refers to. *)
Theorem load_file_never_raises :
  forall (path file : string) (w : world),
    let ext := last_str (split_char "." file) in
    exists v w',
      load_file reparse path file w = (Ok v, w')
      /\ files w' = files w
      /\ ((v = VPy PNone /\ w' = w)
          \/ (exists j, v = VPy (pyval_of_json j) /\ w' = w /\ ext = "json")
          \/ (exists df, v = VFrame (length (tables w))
                         /\ tables w' = tables w ++ [df] /\ ext = "csv")).
Proof.
  intros path file w ext. unfold load_file. fold ext.
  erewrite bind_ok by reflexivity.
  destruct (String.eqb_spec ext "csv") as [Ecsv|_].
  - destruct (disk_get (parse_path (path ++ file)) (files w))
      as [[|[header body|j|]]|]; try (eexists; eexists; split; [reflexivity|];
        split; [reflexivity|]; left; split; reflexivity).
    cbv zeta.
    destruct (filter _ i_cols) as [|i0 index].
    + eexists. eexists. split; [reflexivity|]. split; [reflexivity|].
      right. right. eexists. repeat split. exact Ecsv.
    + destruct (set_index _ _) as [obj|e].
      * eexists. eexists. split; [reflexivity|]. split; [reflexivity|].
        right. right. eexists. repeat split. exact Ecsv.
      * eexists. eexists. split; [reflexivity|]. split; [reflexivity|].
        left. split; reflexivity.
  - destruct (String.eqb_spec ext "json") as [Ejson|_].
    + destruct (disk_get (parse_path (path ++ file)) (files w))
        as [[|[header body|j|]]|]; try (eexists; eexists; split; [reflexivity|];
          split; [reflexivity|]; left; split; reflexivity).
      eexists. eexists. split; [reflexivity|]. split; [reflexivity|].
      right. left. exists j. repeat split. exact Ejson.
    + eexists. eexists. split; [reflexivity|]. split; [reflexivity|].
      left. split; reflexivity.
Qed.

Lemma reads_only_load_file path file : reads_only (load_file reparse path file).
Proof.
  intros w. unfold load_file.
  erewrite bind_ok by reflexivity.
  assert (Hsame : forall (v : value),
             files (snd (ret v w)) = files w
             /\ exists ext, tables (snd (ret v w)) = tables w ++ ext).
  { intros v. split; [reflexivity|]. exists []. symmetry. apply app_nil_r. }
  assert (Hnew : forall df,
             files (snd ((a <- alloc df ;; ret (VFrame a)) w)) = files w
             /\ exists ext,
                  tables (snd ((a <- alloc df ;; ret (VFrame a)) w))
                  = tables w ++ ext).
  { intros df. split; [reflexivity|]. exists [df]. reflexivity. }
  destruct (String.eqb _ "csv").
  - destruct (disk_get _ (files w)) as [[|[header body|j|]]|];
      try apply Hsame.
    cbv zeta. destruct (filter _ i_cols); [apply Hnew|].
    destruct (set_index _ _); [apply Hnew|apply Hsame].
  - destruct (String.eqb _ "json"); [|apply Hsame].
    destruct (disk_get _ (files w)) as [[|[header body|j|]]|]; apply Hsame.
Qed.

Lemma reads_only_load_files path l :
  forall self, reads_only (load_files reparse self path l).
Proof.
  induction l as [|f l IH]; intros self.
  - apply reads_only_keeps, keeps_ret.
  - intros w. rewrite load_files_cons. revert w.
    apply reads_only_bind; [apply reads_only_load_file|]. intros obj.
    apply reads_only_bind; [apply reads_only_keeps, keeps_lift|].
    intros self'. apply IH.
Qed.

(** X10.  Loading reads only: whatever the arguments and however the
    call ends, the disk is as it was and the tables that were in the store
    are untouched; the loaded tables are new objects. *)
Theorem load_reads_only :
  forall (exp_name : option string) (exp_id : option Z) (path : string)
         (w : world),
    let w' := snd (load scan getmtime reparse exp_name exp_id path w) in
    files w' = files w /\ exists ext, tables w' = tables w ++ ext.
Proof.
  intros exp_name exp_id path w. cbv zeta. revert w.
  change (reads_only (load scan getmtime reparse exp_name exp_id path)).
  unfold load, _load.
  apply reads_only_bind.
  { apply reads_only_keeps. destruct exp_name as [n|]; [apply keeps_ret|].
    apply keeps_bind; [apply keeps_listdir|].
    intros [|n ns]; [apply keeps_raise|apply keeps_ret]. }
  intros name. apply reads_only_bind.
  { apply reads_only_keeps. destruct exp_id as [i|]; [|apply keeps_ret].
    destruct (Z.eqb i 0); apply keeps_ret. }
  intros id. apply reads_only_bind.
  { apply reads_only_keeps. destruct id as [i|]; [apply keeps_ret|].
    apply keeps_bind; [apply keeps_last_exp_id|].
    intros i. destruct (Z.eqb i 0); [apply keeps_raise|apply keeps_ret]. }
  intros i. apply reads_only_bind.
  { apply reads_only_keeps, keeps_listdir. }
  intros l. apply reads_only_load_files.
Qed.

Lemma latest_spec (key : string -> Z) names :
  forall best,
    In (latest key best names) (best :: names)
    /\ forall n, In n (best :: names) -> key n <= key (latest key best names).
Proof.
  induction names as [|n names IH]; intros best; cbn [latest].
  - split; [left; reflexivity|]. intros n [<-|[]]. apply Z.le_refl.
  - destruct (IH (if Z.ltb (key best) (key n) then n else best)) as [Hin Hub].
    split.
    + destruct Hin as [Hin|Hin]; [|right; right; exact Hin].
      destruct (Z.ltb (key best) (key n)); [right; left|left]; exact Hin.
    + intros x Hx.
      assert (Hstep : key best <= key (if Z.ltb (key best) (key n)
                                       then n else best)
                      /\ key n <= key (if Z.ltb (key best) (key n)
                                       then n else best)).
      { destruct (Z.ltb_spec (key best) (key n)); lia. }
      pose proof (Hub _ (or_introl eq_refl)) as H0.
      destruct Hx as [<-|[<-|Hx]]; [lia|lia|].
      apply Hub. right. exact Hx.
Qed.

(** X11.  Without an experiment name [_load] takes the directory under
    [path] that was modified last and drops its last underscore and what
    follows; on an empty [path] it fails with the [ValueError] of [max]. *)
Theorem load_latest_experiment :
  forall (self : DataDict) (exp_id : option Z) (path : string) (w : world),
    is_dir (parse_path path) (files w) = true ->
    let names := scan (children (parse_path path) (files w)) in
    (names = [] ->
     _load scan getmtime reparse self None exp_id path w
     = (Raise (ValueError "max() arg is an empty sequence"), w))
    /\ (names <> [] ->
        exists best,
          In best names
          /\ (forall n, In n names ->
                getmtime (join path n) <= getmtime (join path best))
          /\ _load scan getmtime reparse self None exp_id path w
             = _load scan getmtime reparse self
                     (Some (before_last_underscore best)) exp_id path w).
Proof.
  intros self exp_id path w Hdir names. split.
  - intros Hnil. unfold _load.
    erewrite bind_raise; [reflexivity|].
    erewrite bind_ok by (apply listdir_ok; exact Hdir).
    fold names. rewrite Hnil. reflexivity.
  - intros Hne. destruct names as [|n ns] eqn:E; [contradiction|].
    destruct (latest_spec (fun d => getmtime (join path d)) ns n)
      as [Hin Hub].
    exists (latest (fun d => getmtime (join path d)) n ns).
    split; [exact Hin|]. split; [exact Hub|].
    unfold _load.
    erewrite bind_ok.
    2:{ erewrite bind_ok by (apply listdir_ok; exact Hdir).
        fold names. rewrite E. reflexivity. }
    erewrite (bind_ok (ret _)) by reflexivity. reflexivity.
Qed.

End LoadFacts.

Lemma load_latest_experiment_witness :
  let w := {| tables := [];
              files := [(["out"], Dir); (["out"; "a_1"], Dir);
                        (["out"; "b_c_2"], Dir)] |} in
  let mtime := fun p => if String.eqb p "out/b_c_2" then 2 else 1 in
  exists best,
    In best ["a_1"; "b_c_2"]
    /\ (forall n, In n ["a_1"; "b_c_2"] ->
          mtime (join "out" n) <= mtime (join "out" best))
    /\ _load (fun l => l) mtime (fun b => b) [] None None "out" w
       = _load (fun l => l) mtime (fun b => b) []
               (Some (before_last_underscore best)) None "out" w.
Proof.
  intros w mtime.
  apply (load_latest_experiment (fun l => l) mtime (fun b => b) [] None
           "out" w).
  - reflexivity.
  - discriminate.
Defined.

(** ** More on [_combine_vars] *)

Lemma dict_get_none_iff {V} k (l : list (string * V)) :
  dict_get k l = None <-> forall v, ~ In (k, v) l.
Proof.
  induction l as [|[k' v'] l IH]; cbn [dict_get].
  - split; [intros _ v []|reflexivity].
  - destruct (String.eqb_spec k k') as [->|Hne].
    + split; [discriminate|]. intros H. exfalso. apply (H v'). left. reflexivity.
    + rewrite IH. split.
      * intros H v [E|Hin]; [congruence|exact (H v Hin)].
      * intros H v Hin. apply (H v). right. exact Hin.
Qed.

Lemma keeps_any_in_columns keys o : keeps_world (any_in_columns keys o).
Proof. unfold any_in_columns. destruct keys; keeps. Qed.

Lemma filterM_sub {A} (p : A -> M bool) l :
  (forall a, keeps_world (p a)) ->
  forall w l1 w1,
    filterM p l w = (Ok l1, w1) -> w1 = w /\ forall x, In x l1 -> In x l.
Proof.
  intros Hp. induction l as [|a l IH]; intros w l1 w1 H; cbn [filterM] in H.
  - inversion H; subst. split; [reflexivity|auto].
  - unfold bind in H. pose proof (Hp a w) as Ha.
    destruct (p a w) as [[b|e] w2]; [|discriminate]. cbn [snd] in Ha. subst w2.
    destruct (filterM p l w) as [[r|e] w3] eqn:Er; [|discriminate].
    destruct (IH _ _ _ Er) as [-> Hsub]. inversion H; subst.
    split; [reflexivity|]. intros x Hx.
    destruct b; [destruct Hx as [<-|Hx]; [left; reflexivity|]|];
      right; apply Hsub; exact Hx.
Qed.

Lemma keeps_filterM {A} (p : A -> M bool) l :
  (forall a, keeps_world (p a)) -> keeps_world (filterM p l).
Proof.
  intros Hp. induction l as [|a l IH]; cbn [filterM]; [apply keeps_ret|].
  apply keeps_bind; [apply Hp|]. intros b.
  apply keeps_bind; [apply IH|]. intros r. apply keeps_ret.
Qed.

(** Without a table keyed by the model type among the selected ones,
    the part of [_combine_vars] that works on the local dict changes
    nothing. *)
Lemma combine_vars_dict_keeps self l0 ot vk m mt :
  dict_get "log" self = Some (VPy (PDict m)) ->
  dict_get "model_type" m = Some (PStr mt) ->
  (forall o, ~ In (mt, o) l0) ->
  keeps_world (combine_vars_dict self l0 ot vk).
Proof.
  intros Hlog Hmt Hno w. unfold combine_vars_dict.
  set (stage1 := if is_True vk then ret l0
                 else filterM (fun kv => any_in_columns (make_list vk) (snd kv))
                              l0).
  assert (H1 : keeps_world stage1).
  { unfold stage1. destruct (is_True vk); [apply keeps_ret|].
    apply keeps_filterM. intros a. apply keeps_any_in_columns. }
  assert (Hsub : forall l1 w1, stage1 w = (Ok l1, w1) ->
                               forall x, In x l1 -> In x l0).
  { unfold stage1. destruct (is_True vk).
    - intros l1 w1 [= <- _] x Hx. exact Hx.
    - intros l1 w1 E. eapply filterM_sub; [|exact E].
      intros a. apply keeps_any_in_columns. }
  unfold bind at 1. pose proof (H1 w) as Hw1.
  destruct (stage1 w) as [[l1|e] w1] eqn:E1; cbn [snd] in Hw1; subst w1;
    [|reflexivity].
  specialize (Hsub l1 w eq_refl).
  set (l2 := if is_True ot then l1
             else filter (fun kv => str_in (fst kv) (make_list ot)) l1).
  assert (Hl2 : dict_get mt l2 = None).
  { apply dict_get_none_iff. intros o Hin. apply (Hno o), Hsub.
    unfold l2 in Hin. destruct (is_True ot); [exact Hin|].
    apply filter_In in Hin. tauto. }
  unfold getattr. rewrite Hlog. erewrite bind_ok by reflexivity.
  cbn [getitem]. rewrite Hmt. erewrite bind_ok by reflexivity.
  cbv beta iota. rewrite Hl2. erewrite bind_ok by reflexivity.
  destruct l2 as [|x l2']; [reflexivity|].
  assert (K : keeps_world
            (frames <- mapM (fun kv => t <- as_table (snd kv) ;; df <- read t ;;
                                       ret (fst kv, df)) (x :: l2') ;;
             df <- lift (concat_dict frames) ;;
             df <- (if is_True vk then ret (set_names0 df "obj_type")
                    else lift (select_columns (set_names0 df "obj_type")
                                 (make_list vk))) ;;
             ret (Some (New df)))) by keeps.
  apply K.
Qed.

(** X12.  When the object types asked for match none of the tables in
    [variables] (in particular with [obj_types=False]), [_combine_vars]
    returns [None] and leaves the store as it was. *)
Theorem combine_vars_nothing_selected :
  forall (self : DataDict) (d : list (string * value))
         (m : list (string * pyval)) (v : pyval) (obj_types : selector)
         (w : world),
    dict_get "variables" self = Some (VData d) ->
    length d <> 1%nat ->
    dict_get "log" self = Some (VPy (PDict m)) ->
    dict_get "model_type" m = Some v ->
    is_True obj_types = false ->
    (forall k c, In (k, c) d -> str_in k (make_list obj_types) = false) ->
    _combine_vars self obj_types SelTrue w = (Ok None, w).
Proof.
  intros self d m v ot w Hvars Hlen Hlog Hmt Hot Hnone.
  unfold _combine_vars. rewrite Hvars.
  assert (H : combine_vars_dict self
                (map (fun kv => (fst kv, Obj (snd kv))) d) ot SelTrue w
              = (Ok None, w)).
  { unfold combine_vars_dict. cbn [is_True]. rewrite Hot.
    erewrite bind_ok by reflexivity.
    rewrite filter_none.
    2:{ intros [k o] Hin. apply in_map_iff in Hin.
        destruct Hin as ([k0 c0] & E & Hin). inversion E; subst.
        cbn [fst]. eapply Hnone. exact Hin. }
    unfold getattr. rewrite Hlog. erewrite bind_ok by reflexivity.
    cbn [getitem]. rewrite Hmt. erewrite bind_ok by reflexivity.
    destruct v; reflexivity. }
  destruct d as [|[k1 c1] [|e2 d']]; [exact H| |exact H].
  exfalso. apply Hlen. reflexivity.
Qed.

(** X13.  With several tables in [variables] and a log that has no
    [model_type], [_combine_vars] raises [KeyError] for that key and
    leaves the store as it was. *)
Theorem combine_vars_missing_model_type :
  forall (self : DataDict) (d : list (string * value))
         (m : list (string * pyval)) (obj_types : selector) (w : world),
    dict_get "variables" self = Some (VData d) ->
    length d <> 1%nat ->
    dict_get "log" self = Some (VPy (PDict m)) ->
    dict_get "model_type" m = None ->
    _combine_vars self obj_types SelTrue w
    = (Raise (KeyError "model_type"), w).
Proof.
  intros self d m ot w Hvars Hlen Hlog Hmt.
  unfold _combine_vars. rewrite Hvars.
  assert (H : combine_vars_dict self
                (map (fun kv => (fst kv, Obj (snd kv))) d) ot SelTrue w
              = (Raise (KeyError "model_type"), w)).
  { unfold combine_vars_dict. cbn [is_True].
    erewrite bind_ok by reflexivity.
    unfold getattr. rewrite Hlog. erewrite bind_ok by reflexivity.
    cbn [getitem]. rewrite Hmt. reflexivity. }
  destruct d as [|[k1 c1] [|e2 d']]; [exact H| |exact H].
  exfalso. apply Hlen. reflexivity.
Qed.

(** X14.  [_combine_vars] writes into the store only through the table
    of the model itself: on a record whose [variables] hold no entry
    keyed by [log.model_type], the call leaves every table and the disk as
    they were, whatever the selections and however it ends. *)
Theorem combine_vars_without_model_table :
  forall (self : DataDict) (d : list (string * value))
         (m : list (string * pyval)) (mt : string)
         (obj_types var_keys : selector) (w : world),
    dict_get "variables" self = Some (VData d) ->
    dict_get "log" self = Some (VPy (PDict m)) ->
    dict_get "model_type" m = Some (PStr mt) ->
    dict_get mt d = None ->
    snd (_combine_vars self obj_types var_keys w) = w.
Proof.
  intros self d m mt ot vk w Hvars Hlog Hmt Hno.
  unfold _combine_vars. rewrite Hvars.
  assert (H : snd (combine_vars_dict self
                     (map (fun kv => (fst kv, Obj (snd kv))) d) ot vk w) = w).
  { apply (combine_vars_dict_keeps self _ ot vk m mt Hlog Hmt).
    intros o Hin. apply in_map_iff in Hin.
    destruct Hin as ([k c] & E & Hin). inversion E; subst.
    exact (proj1 (dict_get_none_iff _ _) Hno c Hin). }
  destruct d as [|[k1 c1] [|e2 d']]; [exact H|reflexivity|exact H].
Qed.

Lemma combine_vars_nothing_selected_witness :
  _combine_vars two_type_record SelFalse SelTrue two_type_world
  = (Ok None, two_type_world).
Proof.
  apply (combine_vars_nothing_selected two_type_record
           [("Model", VFrame 0%nat); ("agent", VFrame 1%nat)]
           [("model_type", PStr "Model")] (PStr "Model")).
  - reflexivity.
  - discriminate.
  - reflexivity.
  - reflexivity.
  - reflexivity.
  - intros k c _. reflexivity.
Defined.

Lemma combine_vars_missing_model_type_witness :
  _combine_vars
    [ ("log", VPy (PDict [("sample_size", PInt 4)]));
      ("variables", VData [("Model", VFrame 0%nat); ("agent", VFrame 1%nat)]) ]
    SelTrue SelTrue two_type_world
  = (Raise (KeyError "model_type"), two_type_world).
Proof.
  apply (combine_vars_missing_model_type _
           [("Model", VFrame 0%nat); ("agent", VFrame 1%nat)]
           [("sample_size", PInt 4)]).
  - reflexivity.
  - discriminate.
  - reflexivity.
  - reflexivity.
Defined.

Lemma combine_vars_without_model_table_witness :
  snd (_combine_vars
         [ ("log", VPy (PDict [("model_type", PStr "Model")]));
           ("variables", VData [("agent", VFrame 1%nat);
                                ("firm", VFrame 1%nat)]) ]
         SelTrue SelTrue two_type_world)
  = two_type_world.
Proof.
  apply (combine_vars_without_model_table _
           [("agent", VFrame 1%nat); ("firm", VFrame 1%nat)]
           [("model_type", PStr "Model")] "Model"); reflexivity.
Defined.

(** ** More on the parameters *)

Lemma col_pos_dict_get (pars : list (string * pyval)) k v :
  dict_get k pars = Some v ->
  exists i, col_pos k (dict_keys pars) = Some i
            /\ nth i (map (fun kv => CVal (snd kv)) pars) CNaN = CVal v.
Proof.
  induction pars as [|[k' v'] pars IH]; cbn [dict_get]; [discriminate|].
  cbn [dict_keys map fst col_pos].
  destruct (String.eqb k k').
  - intros [= ->]. exists 0%nat. split; reflexivity.
  - intros H. destruct (IH H) as (i & Hi & Hn). exists (S i).
    unfold dict_keys in Hi. rewrite Hi. split; [reflexivity|exact Hn].
Qed.

Lemma map_const_repeat {A B} (x : B) (l : list A) :
  map (fun _ => x) l = repeat x (length l).
Proof. induction l as [|a l IH]; simpl; [reflexivity|]. rewrite IH. reflexivity. Qed.

(** The table [_dict_pars_to_df] builds. *)
Lemma dict_pars_frame self m pars n w :
  dict_get "log" self = Some (VPy (PDict m)) ->
  dict_get "sample_size" m = Some (PInt n)
  \/ (dict_get "sample_size" m = None /\ n = 1) ->
  _dict_pars_to_df self pars w
  = (Ok {| index_names := [Some "sample_id"];
           columns := dict_keys pars;
           rows := map (fun key => (key, map (fun kv => CVal (snd kv)) pars))
                       (range_keys (Z.to_nat n)) |}, w).
Proof.
  intros Hlog Hn. unfold _dict_pars_to_df, getattr. rewrite Hlog.
  erewrite bind_ok by reflexivity. cbn [contains]. unfold dict_has.
  erewrite bind_ok by reflexivity.
  destruct Hn as [Hn|[Hn ->]]; rewrite Hn.
  - cbn [getitem]. rewrite Hn. erewrite bind_ok by reflexivity. reflexivity.
  - erewrite bind_ok by reflexivity. reflexivity.
Qed.

(** X15.  [_dict_pars_to_df] makes of a dict of parameters a table with
    one row per sample ([log.sample_size], one row without it, none for a
    size below one), indexed by [sample_id] from 0, with the keys of the
    dict as columns, each holding the value of its key in every row,
    whatever the value is (a list too). *)
Theorem dict_pars_to_df_broadcast :
  forall (self : DataDict) (m pars : list (string * pyval)) (n : Z)
         (w : world),
    dict_get "log" self = Some (VPy (PDict m)) ->
    dict_get "sample_size" m = Some (PInt n)
    \/ (dict_get "sample_size" m = None /\ n = 1) ->
    exists df,
      _dict_pars_to_df self pars w = (Ok df, w)
      /\ index_names df = [Some "sample_id"]
      /\ map fst (rows df) = range_keys (Z.to_nat n)
      /\ columns df = dict_keys pars
      /\ forall k v, dict_get k pars = Some v ->
           column df k = Some (repeat (CVal v) (Z.to_nat n)).
Proof.
  intros self m pars n w Hlog Hn. eexists.
  split; [apply (dict_pars_frame self m pars n w Hlog Hn)|].
  cbn [index_names rows columns]. split; [reflexivity|].
  split; [rewrite map_map; cbn [fst]; apply map_id|].
  split; [reflexivity|].
  intros k v Hk. destruct (col_pos_dict_get pars k v Hk) as (i & Hi & Hnth).
  unfold column. cbn [columns rows]. rewrite Hi, map_map. cbn [snd].
  rewrite Hnth, map_const_repeat, length_range_keys. reflexivity.
Qed.

Lemma keeps_plain_items d : keeps_world (plain_items d).
Proof.
  destruct d as [a|m|[| | | | |m]]; cbn [plain_items];
    try apply keeps_raise; try apply keeps_ret.
  induction m as [|[k [a|d|v]] m IH];
    first [apply keeps_ret|apply keeps_raise|idtac].
  apply keeps_bind; [exact IH|]. intros r. apply keeps_ret.
Qed.

Lemma keeps_dict_pars_to_df self pars : keeps_world (_dict_pars_to_df self pars).
Proof.
  unfold _dict_pars_to_df.
  apply keeps_bind; [apply keeps_getattr|]. intros log.
  apply keeps_bind; [apply keeps_contains|]. intros has.
  apply keeps_bind;
    [destruct has; [apply keeps_getitem|apply keeps_ret]|].
  intros [a|d|[| | | | |x]]; first [apply keeps_ret|apply keeps_raise].
Qed.

(** X16.  [_combine_pars] changes nothing: it works on a copy of the
    sample, so the constants it adds never reach the stored table, and
    the store and the disk are as before whatever the arguments and
    however the call ends. *)
Theorem combine_pars_keeps_world :
  forall (self : DataDict) (sample constants : bool) (w : world),
    snd (_combine_pars self sample constants w) = w.
Proof.
  intros self sample constants.
  change (keeps_world (_combine_pars self sample constants)).
  unfold _combine_pars.
  destruct (dict_get "parameters" self) as [parameters|]; [|apply keeps_ret].
  apply keeps_bind.
  - destruct parameters as [a|pd|[| | | | |d]]; try apply keeps_raise.
    + destruct (sample && dict_has "sample" pd).
      * apply keeps_bind; [apply keeps_getitem|]. intros s.
        apply keeps_bind; [apply keeps_as_table|]. intros t.
        apply keeps_bind; [apply keeps_read|]. intros dfp.
        destruct (constants && dict_has "constants" pd); [|apply keeps_ret].
        apply keeps_bind; [apply keeps_getitem|]. intros c.
        apply keeps_bind; [apply keeps_plain_items|]. intros items.
        apply keeps_lift.
      * destruct (constants && dict_has "constants" pd); [|apply keeps_ret].
        apply keeps_bind; [apply keeps_getitem|]. intros c.
        apply keeps_bind; [apply keeps_plain_items|]. intros items.
        apply keeps_dict_pars_to_df.
    + destruct constants; [apply keeps_dict_pars_to_df|apply keeps_raise].
  - intros dfp. destruct (_ && _); apply keeps_ret.
Qed.

Lemma dict_pars_to_df_broadcast_witness :
  exists df,
    _dict_pars_to_df (sweep_record (PInt 1))
                     [("y", PList [PInt 1; PInt 2])]
                     (sweep_world (int_cells [10; 20; 30; 40])
                                  (int_cells [5; 6; 7; 8]))
    = (Ok df, sweep_world (int_cells [10; 20; 30; 40]) (int_cells [5; 6; 7; 8]))
    /\ column df "y" = Some (repeat (CVal (PList [PInt 1; PInt 2])) 4).
Proof.
  destruct (dict_pars_to_df_broadcast (sweep_record (PInt 1))
              [("model_type", PStr "Model"); ("sample_size", PInt 4)]
              [("y", PList [PInt 1; PInt 2])] 4
              (sweep_world (int_cells [10; 20; 30; 40])
                           (int_cells [5; 6; 7; 8])))
    as (df & Hrun & _ & _ & _ & Hcol).
  - reflexivity.
  - left. reflexivity.
  - exists df. split; [exact Hrun|]. apply (Hcol "y"). reflexivity.
Defined.

(** ** More on [arrange] *)

(** X17.  On the record of a single run (a flat dict of parameters, no
    sample size in the log), [arrange] with all reporters and one
    parameter named writes the parameter into the stored reporters table
    itself: after the call the table at the record's address has the
    parameter as a column, its value in every row.  No other table and
    nothing on disk is changed. *)
Theorem arrange_single_run_adds_to_reporters :
  forall (self : DataDict) (a : addr) (df : DataFrame)
         (d m : list (string * pyval)) (k : string) (v : pyval)
         (obj_types : selector) (index : bool) (w : world),
    dict_get "reporters" self = Some (VFrame a) ->
    nth_error (tables w) a = Some df ->
    dict_get "parameters" self = Some (VPy (PDict d)) ->
    dict_get "log" self = Some (VPy (PDict m)) ->
    dict_get "sample_size" m = None ->
    dict_get k d = Some v ->
    is_scalar v = true ->
    let w' := snd (arrange self SelFalse SelTrue (SelKey k) obj_types index w) in
    nth_error (tables w') a
    = Some (put_column df k (repeat (CVal v) (nrows df)))
    /\ (forall b, b <> a -> nth_error (tables w') b = nth_error (tables w) b)
    /\ files w' = files w.
Proof.
  intros self a df d m k v ot index w Hrep Hdf Hpar Hlog Hsize Hk Hsc w'.
  set (df' := put_column df k (repeat (CVal v) (nrows df))).
  destruct (col_pos_dict_get d k v Hk) as (i & Hi & Hnth).
  set (sel := {| index_names := [Some "sample_id"];
                 columns := [k];
                 rows := [([CVal (PInt 0)], [CVal v])] |}).
  assert (Hpars : (o <- _combine_pars self true true ;;
                   match o with
                   | None =>
                       raise (TypeError "'NoneType' object is not subscriptable")
                   | Some ob =>
                       t <- as_table ob ;;
                       cur <- read t ;;
                       sel <- lift (select_columns cur [k]) ;;
                       ret (Some (Fresh sel))
                   end) w = (Ok (Some (Fresh sel)), w)).
  { erewrite bind_ok.
    2:{ unfold _combine_pars. rewrite Hpar.
        erewrite bind_ok
          by (apply (dict_pars_frame self m d 1 w Hlog);
              right; split; [exact Hsize|reflexivity]).
        reflexivity. }
    cbn [as_table]. erewrite bind_ok by reflexivity.
    cbn [read]. erewrite bind_ok by reflexivity.
    unfold select_columns. cbn [columns positions]. rewrite Hi.
    change (range_keys (Z.to_nat 1)) with [[CVal (PInt 0)]].
    cbn [lift rows map pick fst snd index_names].
    rewrite Hnth. erewrite bind_ok by reflexivity. reflexivity. }
  assert (Hw' : w' = {| tables := set_nth a df' (tables w);
                         files := files w |}).
  { subst w'. unfold arrange. cbn [is_False is_True make_list].
    erewrite bind_ok by reflexivity.
    erewrite bind_ok.
    2:{ unfold getattr. rewrite Hrep. run. reflexivity. }
    erewrite bind_ok by exact Hpars.
    erewrite bind_ok by reflexivity.
    rewrite snd_bind_keeps by (intros; keeps).
    cbn [read]. erewrite bind_ok by reflexivity.
    change (Nat.ltb 1 (nrows sel)) with false. cbv iota.
    cbn [add_parameter_columns columns sel].
    erewrite bind_ok.
    2:{ erewrite bind_ok by reflexivity.
        cbn [read]. erewrite bind_ok by (apply deref_ok; exact Hdf).
        rewrite (setitem_scalar _ _ _ Hsc). fold df'.
        erewrite bind_ok by reflexivity.
        erewrite bind_ok by reflexivity. reflexivity. }
    reflexivity. }
  rewrite Hw'. cbn [tables files]. repeat split.
  - eapply nth_error_set_nth. exact Hdf.
  - intros b Hb. apply nth_error_set_nth_other. congruence.
Qed.

(** X18.  Asking [arrange] for parameters by name on a record without
    [parameters] raises [TypeError]: [_combine_pars] returns [None] and the
    selection of the named columns is made on it.  Nothing is changed. *)
Theorem arrange_named_parameters_missing :
  forall (self : DataDict) (a : addr) (parameters obj_types : selector)
         (index : bool) (w : world),
    dict_get "parameters" self = None ->
    dict_get "reporters" self = Some (VFrame a) ->
    is_True parameters = false ->
    is_False parameters = false ->
    arrange self SelFalse SelTrue parameters obj_types index w
    = (Raise (TypeError "'NoneType' object is not subscriptable"), w).
Proof.
  intros self a parameters ot index w Hpar Hrep HT HF.
  unfold arrange. cbn [is_False is_True]. rewrite HT, HF.
  erewrite bind_ok by reflexivity.
  erewrite bind_ok by (unfold getattr; rewrite Hrep; run; reflexivity).
  erewrite bind_raise; [reflexivity|].
  erewrite bind_ok by (unfold _combine_pars; rewrite Hpar; reflexivity).
  reflexivity.
Qed.

Lemma arrange_single_run_adds_to_reporters_witness :
  nth_error
    (tables (snd (arrange single_run_record SelFalse SelTrue (SelKey "y")
                          SelTrue false
                          {| tables := [model_table]; files := [] |}))) 0
  = Some (put_column model_table "y" (repeat (CVal (PInt 1)) 2)).
Proof.
  apply (arrange_single_run_adds_to_reporters single_run_record 0%nat
           model_table [("y", PInt 1)] [("model_type", PStr "Model")] "y"
           (PInt 1) SelTrue false
           {| tables := [model_table]; files := [] |});
    reflexivity.
Defined.

Lemma arrange_named_parameters_missing_witness :
  arrange [("reporters", VFrame 0%nat)] SelFalse SelTrue (SelKey "y")
          SelTrue false {| tables := [model_table]; files := [] |}
  = (Raise (TypeError "'NoneType' object is not subscriptable"),
     {| tables := [model_table]; files := [] |}).
Proof.
  apply (arrange_named_parameters_missing [("reporters", VFrame 0%nat)]
           0%nat); reflexivity.
Defined.

(** ** More on equality *)

Lemma value_nested_ind (P : value -> Prop) :
  (forall a, P (VFrame a)) ->
  (forall d, Forall (fun kx => P (snd kx)) d -> P (VData d)) ->
  (forall p, P (VPy p)) ->
  forall v, P v.
Proof.
  intros HFrame HData HPy.
  refine (fix rec (v : value) : P v :=
            match v with
            | VFrame a => HFrame a
            | VData d =>
                HData d ((fix all (d : list (string * value))
                            : Forall (fun kx => P (snd kx)) d :=
                            match d with
                            | [] => Forall_nil _
                            | kx :: d' =>
                                Forall_cons kx (rec (snd kx)) (all d')
                            end) d)
            | VPy p => HPy p
            end).
Qed.






(** X20.  With scalar constants (numbers, strings, [None]) next to a sample
    of [N >= 1] rows, [_combine_pars] returns the sample with one more
    column per constant, holding the constant in every row; the columns
    of the sample that are no constants are as they were, and so are the
    stored sample and the rest of the store. *)
Theorem combine_pars_broadcasts_scalars :
  forall (self : DataDict) (pd : list (string * value)) (a : addr)
         (sample : DataFrame) (consts : list (string * pyval)) (w : world),
    dict_get "parameters" self = Some (VData pd) ->
    dict_get "sample" pd = Some (VFrame a) ->
    dict_get "constants" pd = Some (VPy (PDict consts)) ->
    nth_error (tables w) a = Some sample ->
    wf_frame sample ->
    (0 < nrows sample)%nat ->
    NoDup (dict_keys consts) ->
    (forall k v, In (k, v) consts -> is_scalar v = true) ->
    exists dfp,
      _combine_pars self true true w = (Ok (Some (New dfp)), w)
      /\ nrows dfp = nrows sample
      /\ (forall k v, In (k, v) consts ->
            column dfp k = Some (repeat (CVal v) (nrows sample)))
      /\ (forall k, ~ In k (dict_keys consts) ->
            column dfp k = column sample k).
Proof.
  intros self pd a sample consts w Hpar Hs Hc Hdf Hwf Hpos Hnd Hsc.
  destruct (set_constants_scalars consts sample Hwf Hsc Hnd)
    as (dfp & Hrun & _ & Hn & _ & Hkeep & Hcols).
  exists dfp. split; [|split; [exact Hn|split]].
  - unfold _combine_pars. rewrite Hpar.
    unfold dict_has. rewrite Hs, Hc. cbn [andb getitem]. rewrite Hs, Hc.
    run. rewrite bind_lift, Hrun.
    destruct (nrows dfp) eqn:E; [lia|]. reflexivity.
  - intros k v Hin. apply (Hcols _ _ Hin).
  - exact Hkeep.
Qed.

Lemma combine_pars_broadcasts_scalars_witness :
  exists dfp,
    _combine_pars (sweep_record (PInt 1)) true true
                  (sweep_world (int_cells [10; 20; 30; 40])
                               (int_cells [5; 6; 7; 8]))
    = (Ok (Some (New dfp)),
       sweep_world (int_cells [10; 20; 30; 40]) (int_cells [5; 6; 7; 8]))
    /\ column dfp "y" = Some (repeat (CVal (PInt 1)) 4)
    /\ column dfp "x" = Some (int_cells [10; 20; 30; 40]).
Proof.
  destruct (combine_pars_broadcasts_scalars (sweep_record (PInt 1))
              [ ("constants", VPy (PDict [("y", PInt 1)]));
                ("sample", VFrame 0%nat) ]
              0%nat (sampled_column "x" (int_cells [10; 20; 30; 40]))
              [("y", PInt 1)]
              (sweep_world (int_cells [10; 20; 30; 40])
                           (int_cells [5; 6; 7; 8])))
    as (dfp & Hrun & _ & Hcol & Hkeep).
  - reflexivity.
  - reflexivity.
  - reflexivity.
  - reflexivity.
  - intros r Hin. cbn in Hin. intuition (subst; reflexivity).
  - cbn. lia.
  - repeat constructor. intros [].
  - intros k v [E|[]]. inversion E. reflexivity.
  - exists dfp. split; [exact Hrun|]. split.
    + apply (Hcol "y"). left. reflexivity.
    + rewrite (Hkeep "x"); [reflexivity|].
      cbn. intros [E|[]]. discriminate.
Defined.

Lemma bind_inv {A B} (c : M A) (f : A -> M B) w b w' :
  bind c f w = (Ok b, w') ->
  exists a w1, c w = (Ok a, w1) /\ f a w1 = (Ok b, w').
Proof.
  unfold bind. destruct (c w) as [[a|e] w1]; [|discriminate].
  intros H. exists a, w1. split; [reflexivity|exact H].
Qed.

Lemma map_fst_combine {A B} (l : list A) (m : list B) :
  length l = length m -> map fst (combine l m) = l.
Proof.
  revert m. induction l as [|a l IH]; intros [|b m] H; simpl in *;
    try reflexivity; try discriminate.
  f_equal. apply IH. congruence.
Qed.

(** X21.  Without [index=True] the table that [arrange] returns is a new
    one, never one of the record's own tables, and it is numbered from 0:
    writing into the result cannot change the record. *)
Theorem arrange_returns_new_table :
  forall (self : DataDict) (variables reporters parameters obj_types : selector)
         (w w' : world) (t : tref),
    arrange self variables reporters parameters obj_types false w
    = (Ok (Some t), w') ->
    exists df,
      t = Fresh df
      /\ index_names df = [None]
      /\ map fst (rows df) = range_keys (nrows df).
Proof.
  intros self vs rs ps ot w w' t H. unfold arrange in H.
  apply bind_inv in H. destruct H as (dfv & w1 & _ & H).
  apply bind_inv in H. destruct H as (dfm & w2 & _ & H).
  apply bind_inv in H. destruct H as (dfp & w3 & _ & H).
  apply bind_inv in H. destruct H as (df & w4 & _ & H).
  apply bind_inv in H. destruct H as (df2 & w5 & _ & H).
  destruct df2 as [t2|]; [|discriminate]. cbn [negb] in H.
  apply bind_inv in H. destruct H as (cur & w6 & _ & H).
  apply bind_inv in H. destruct H as (re & w7 & Hre & H).
  inversion H; subst. exists re. split; [reflexivity|].
  unfold lift in Hre. inversion Hre as [[Hreset Hw]]. clear Hre.
  unfold reset_index in Hreset. cbv zeta in Hreset.
  destruct (has_dup _); [discriminate|]. inversion Hreset; subst re.
  cbn [index_names rows]. split; [reflexivity|].
  assert (Hlen : length (range_keys (nrows cur)) = length (rows cur))
    by apply length_range_keys.
  unfold nrows at 2. cbn [rows]. rewrite length_map, length_combine, Hlen.
  rewrite Nat.min_id. fold (nrows cur).
  rewrite <- (map_fst_combine _ _ Hlen) at 2.
  rewrite map_map. reflexivity.
Qed.

Lemma arrange_returns_new_table_witness :
  exists df,
    arrange single_run_record SelFalse SelTrue SelFalse SelTrue false
            {| tables := [model_table]; files := [] |}
    = (Ok (Some (Fresh df)), {| tables := [model_table]; files := [] |})
    /\ index_names df = [None]
    /\ map fst (rows df) = range_keys (nrows df).
Proof.
  destruct (arrange_returns_new_table single_run_record SelFalse SelTrue
              SelFalse SelTrue {| tables := [model_table]; files := [] |}
              {| tables := [model_table]; files := [] |}
              (Fresh {| index_names := [None];
                        columns := ["t"; "wealth"];
                        rows := [ ([CVal (PInt 0)], [CVal (PInt 0); CVal (PInt 7)]);
                                  ([CVal (PInt 1)], [CVal (PInt 1); CVal (PInt 8)]) ] |})
              eq_refl)
    as (df & Ht & Hi & Hr).
  exists df. rewrite <- Ht. split; [reflexivity|]. split; assumption.
Defined.

(** ** The index of a sensitivity table *)

Lemma nth_app_last {A} (l : list A) x d : nth (length l) (l ++ [x]) d = x.
Proof. rewrite app_nth2 by apply Nat.le_refl. rewrite Nat.sub_diag. reflexivity. Qed.

Lemma filter_all {A} (f : A -> bool) l :
  (forall x, In x l -> f x = true) -> filter f l = l.
Proof.
  induction l as [|a l IH]; intros H; simpl; [reflexivity|].
  rewrite (H a (or_introl eq_refl)). f_equal. apply IH.
  intros x Hx. apply H. right. exact Hx.
Qed.

(** The rows after the two assignments and the change of index. *)
Lemma sobol_rows reporter (n : nat) :
  forall (rs : list (list cell * list cell)) (ps : list string),
    (forall r, In r rs -> length (snd r) = n) ->
    length ps = length rs ->
    map (fun r => (pick [S n; n] (snd r), pick (seq 0 n) (snd r)))
        (map (fun rv => (fst (fst rv), snd (fst rv) ++ [snd rv]))
             (combine
                (map (fun rv => (fst (fst rv), snd (fst rv) ++ [snd rv]))
                     (combine rs (map CVal (map PStr ps))))
                (repeat (CVal (PStr reporter)) (length rs))))
    = map (fun rp => ([CVal (PStr reporter); CVal (PStr (snd rp))],
                      snd (fst rp)))
          (combine rs ps).
Proof.
  induction rs as [|[key data] rs IH]; intros ps Hwf Hlen;
    destruct ps as [|p ps]; try discriminate; [reflexivity|].
  cbn [map combine repeat length fst snd]. f_equal.
  - assert (Hd : length data = n) by (apply (Hwf (key, data)); left; reflexivity).
    f_equal.
    + unfold pick. cbn [map]. f_equal.
      * rewrite <- Hd.
        replace (S (length data)) with (length (data ++ [CVal (PStr p)]))
          by (rewrite length_app; cbn; lia).
        apply nth_app_last.
      * f_equal. rewrite <- app_assoc. cbn [app].
        rewrite app_nth2 by lia. rewrite Hd, Nat.sub_diag. reflexivity.
    + rewrite <- Hd, <- app_assoc.
      exact (pick_middle data [] ([CVal (PStr p)] ++ [CVal (PStr reporter)])).
  - apply IH; [|cbn in Hlen; lia].
    intros r Hr. apply Hwf. right. exact Hr.
Qed.

(** X22.  [_sobol_set_df_index] on a table with one row per parameter
    key: every row gets the index key (reporter, parameter key), in that
    order, and the columns and cells stay as they were.  With another
    number of parameter keys than rows it raises [ValueError]. *)
Theorem sobol_set_df_index_keys :
  forall (df : DataFrame) (p_keys : list string) (reporter : string),
    wf_frame df ->
    NoDup (columns df) ->
    ~ In "parameter" (columns df) ->
    ~ In "reporter" (columns df) ->
    (length p_keys = nrows df ->
     _sobol_set_df_index df p_keys reporter
     = Ok {| index_names := [Some "reporter"; Some "parameter"];
             columns := columns df;
             rows := map (fun rp => ([CVal (PStr reporter);
                                      CVal (PStr (snd rp))],
                                     snd (fst rp)))
                         (combine (rows df) p_keys) |})
    /\ (length p_keys <> nrows df -> nrows df <> 0%nat ->
        _sobol_set_df_index df p_keys reporter
        = Raise (ValueError "Length of values does not match length of index")).
Proof.
  intros df p_keys reporter Hwf Hnd Hp Hr. split.
  - intros Hlen. unfold _sobol_set_df_index.
    assert (Hcp : col_pos "parameter" (columns df) = None).
    { destruct (col_pos "parameter" (columns df)) eqn:E; [|reflexivity].
      exfalso. apply Hp. eapply col_pos_in. exact E. }
    assert (Hcr : col_pos "reporter" (columns df ++ ["parameter"]) = None).
    { destruct (col_pos "reporter" (columns df ++ ["parameter"])) eqn:E;
        [|reflexivity].
      exfalso. apply col_pos_in in E. apply in_app_or in E.
      destruct E as [E|[E|[]]]; [exact (Hr E)|discriminate]. }
    unfold setitem at 1. cbv zeta. rewrite !length_map, Hlen, Nat.eqb_refl.
    replace (Nat.eqb (nrows df) 0 && negb (Nat.eqb (nrows df) 0)) with false
      by (destruct (Nat.eqb (nrows df) 0); reflexivity).
    set (df1 := put_column df "parameter" (map CVal (map PStr p_keys))).
    assert (E1 : df1 = {| index_names := index_names df;
                          columns := columns df ++ ["parameter"];
                          rows := map (fun rv => (fst (fst rv),
                                                  snd (fst rv) ++ [snd rv]))
                                      (combine (rows df)
                                               (map CVal (map PStr p_keys))) |}).
    { unfold df1, put_column. rewrite Hcp. reflexivity. }
    assert (Hn1 : nrows df1 = nrows df).
    { apply nrows_put_column. rewrite !length_map. exact Hlen. }
    cbn [setitem]. rewrite Hn1.
    set (df2 := put_column df1 "reporter"
                           (repeat (CVal (PStr reporter)) (nrows df))).
    assert (E2 : df2 = {| index_names := index_names df1;
                          columns := columns df1 ++ ["reporter"];
                          rows := map (fun rv => (fst (fst rv),
                                                  snd (fst rv) ++ [snd rv]))
                                      (combine (rows df1)
                                         (repeat (CVal (PStr reporter))
                                                 (nrows df))) |}).
    { unfold df2, put_column.
      replace (col_pos "reporter" (columns df1)) with (@None nat)
        by (rewrite E1; symmetry; exact Hcr).
      reflexivity. }
    change [Some "reporter"; Some "parameter"]
      with (map Some ["reporter"; "parameter"]).
    rewrite set_index_named by discriminate.
    rewrite E2. cbn [columns rows]. rewrite E1. cbn [columns rows index_names].
    assert (Hpos : positions ["reporter"; "parameter"]
                     ((columns df ++ ["parameter"]) ++ ["reporter"])
                   = Ok [S (length (columns df)); length (columns df)]).
    { cbn [positions].
      rewrite (col_pos_app_new _ _ Hcr), length_app. cbn [length].
      rewrite col_pos_app_other by discriminate.
      rewrite (col_pos_app_new _ _ Hcp).
      replace (length (columns df) + 1)%nat with (S (length (columns df)))
        by lia.
      reflexivity. }
    rewrite Hpos.
    assert (Hrest : filter (fun c => negb (str_in c ["reporter"; "parameter"]))
                           ((columns df ++ ["parameter"]) ++ ["reporter"])
                    = columns df).
    { rewrite !filter_app. cbn [filter str_in existsb String.eqb Ascii.eqb
                                 Bool.eqb orb negb].
      rewrite !app_nil_r. apply filter_all. intros c Hc.
      apply negb_true_iff.
      destruct (String.eqb_spec c "reporter") as [->|_];
        [exfalso; exact (Hr Hc)|].
      destruct (String.eqb_spec c "parameter") as [->|_];
        [exfalso; exact (Hp Hc)|].
      reflexivity. }
    assert (Hq : positions (columns df)
                   ((columns df ++ ["parameter"]) ++ ["reporter"])
                 = Ok (seq 0 (length (columns df)))).
    { rewrite <- app_assoc.
      exact (positions_middle (columns df) []
               (["parameter"] ++ ["reporter"]) Hnd). }
    cbv zeta. rewrite Hrest, Hq. f_equal. f_equal.
    apply sobol_rows.
    + intros r Hin. apply Hwf. exact Hin.
    + exact Hlen.
  - intros Hne Hrows. unfold _sobol_set_df_index.
    unfold setitem at 1. cbv zeta. rewrite !length_map.
    replace (Nat.eqb (nrows df) 0) with false
      by (symmetry; apply Nat.eqb_neq; exact Hrows).
    cbn [andb].
    replace (Nat.eqb (length p_keys) (nrows df)) with false
      by (symmetry; apply Nat.eqb_neq; exact Hne).
    reflexivity.
Qed.

Lemma sobol_set_df_index_keys_witness :
  _sobol_set_df_index
    {| index_names := [None]; columns := ["S1"; "ST"];
       rows := [ ([CVal (PInt 0)], [CVal (PInt 1); CVal (PInt 2)]);
                 ([CVal (PInt 1)], [CVal (PInt 3); CVal (PInt 4)]) ] |}
    ["x"; "y"] "out"
  = Ok {| index_names := [Some "reporter"; Some "parameter"];
          columns := ["S1"; "ST"];
          rows := [ ([CVal (PStr "out"); CVal (PStr "x")],
                     [CVal (PInt 1); CVal (PInt 2)]);
                    ([CVal (PStr "out"); CVal (PStr "y")],
                     [CVal (PInt 3); CVal (PInt 4)]) ] |}.
Proof.
  apply (sobol_set_df_index_keys
           {| index_names := [None]; columns := ["S1"; "ST"];
              rows := [ ([CVal (PInt 0)], [CVal (PInt 1); CVal (PInt 2)]);
                        ([CVal (PInt 1)], [CVal (PInt 3); CVal (PInt 4)]) ] |}
           ["x"; "y"] "out").
  - intros r [<-|[<-|[]]]; reflexivity.
  - repeat constructor; cbn; intuition discriminate.
  - cbn. intuition discriminate.
  - cbn. intuition discriminate.
  - reflexivity.
Defined.

(** ** The text of a record *)

Lemma repr_entry_shapes h h' v :
  same_shapes h h' -> repr_entry h v = repr_entry h' v.
Proof.
  intros Hs. induction v as [a|d IH|p] using value_nested_ind.
  - cbn [repr_entry]. specialize (Hs a).
    destruct (nth_error h a) as [df|], (nth_error h' a) as [df'|];
      cbn [option_map] in Hs; try discriminate; [|reflexivity].
    unfold shape in Hs. inversion Hs as [[Hr Hc]]. cbv zeta.
    rewrite Hr, Hc. reflexivity.
  - cbn [repr_entry]. induction d as [|[k x] d IHd]; [reflexivity|].
    inversion IH as [|? ? Hx Hd]; subst. cbn [snd] in Hx.
    rewrite Hx, (IHd Hd). reflexivity.
  - reflexivity.
Qed.

(** X23.  The text [__repr__] gives of a record depends on a table only
    through its numbers of columns and rows: with tables of the same
    shapes in the store the text is the same, whatever the tables hold. *)
Theorem repr_shows_shapes_only :
  forall (h h' : heap) (self : DataDict) (indent : bool),
    same_shapes h h' -> __repr__ h self indent = __repr__ h' self indent.
Proof.
  intros h h' self indent Hs. unfold __repr__.
  replace (repr_entries h' (if indent then "    " else "") self)
    with (repr_entries h (if indent then "    " else "") self);
    [reflexivity|].
  generalize (if indent then "    " else "") as i. intros i.
  induction self as [|[k v] l IH]; [reflexivity|].
  cbn [repr_entries]. rewrite (repr_entry_shapes h h' v Hs), IH. reflexivity.
Qed.

Lemma repr_shows_shapes_only_witness :
  __repr__ [model_table] two_type_record false
  = __repr__ [put_column model_table "wealth" (int_cells [1; 2])]
             two_type_record false.
Proof.
  apply repr_shows_shapes_only.
  intros [|[|a]]; reflexivity.
Defined.

(** ** Saving and loading without an id *)


Section NoId.

Variable scan : list string -> list string.
Variable getmtime : string -> Z.
Variable reparse : list (list cell) -> list (list cell).

Hypothesis scan_perm : forall l, Permutation (scan l) l.



End NoId.

